(** * iop multi join: the cross-cluster credential exchange

    A shallow embedding of [GetJoinCommand] (package [multi]) and of the
    objects it sends to the Kubernetes API, followed by the properties of
    the exchange loop: which calls are issued against which cluster, what
    the submitted secret contains, and how the command ends on each failure.

    The Kubernetes client, the kubeconfig loader and [json.Marshal] are
    collaborators outside the package.  They appear here as the interface
    [Kube]; the command is written once, against the interface.  General
    properties are proved for every implementation of it.  Properties that
    speak about the content of a cluster after a run are proved for [Mem],
    an in-memory API server with the create / merge-patch semantics of the
    real one. *)

From Stdlib Require Import ZArith String List Lia.
From stdpp Require Import base option list strings gmap.

Local Open Scope string_scope.
Local Open Scope list_scope.

Abbreviation bytes := (list Byte.byte).

(** ** Objects of k8s.io/apimachinery and k8s.io/api/core/v1 *)

Module metav1.

(** The reasons of [metav1.StatusReason] that the API server answers with
    on a get, create or patch. *)
Inductive StatusReason :=
| StatusReasonUnknown
| StatusReasonUnauthorized
| StatusReasonForbidden
| StatusReasonNotFound
| StatusReasonAlreadyExists
| StatusReasonConflict
| StatusReasonInvalid
| StatusReasonServerTimeout.

Record ObjectMeta := {
  Name : string;
  Namespace : string;
  Labels : gmap string string
}.

End metav1.

#[global] Instance StatusReason_eq_dec : EqDecision metav1.StatusReason.
Proof. solve_decision. Defined.

(** A non-nil Go [error]: what [Error()] prints and the status reason that
    the predicates of [k8s.io/apimachinery/pkg/api/errors] inspect.  A nil
    error is the absence of one ([None], or the right side of a sum). *)
Record error := {
  Reason : metav1.StatusReason;
  Message : string
}.

Module errors.

(** [errors.IsAlreadyExists]: false on nil. *)
Definition IsAlreadyExists (err : option error) : bool :=
  match err with
  | Some e => bool_decide (Reason e = metav1.StatusReasonAlreadyExists)
  | None => false
  end.

End errors.

Module v1.

Record ObjectReference := { ref_Name : string }.

Record ServiceAccount := {
  sa_ObjectMeta : metav1.ObjectMeta;
  Secrets : list ObjectReference
}.

Record Secret := {
  ObjectMeta : metav1.ObjectMeta;
  Data : gmap string bytes;
  StringData : gmap string string;
  Type_ : string
}.

Record Namespace := { ns_ObjectMeta : metav1.ObjectMeta }.

Definition Name (s : Secret) : string := metav1.Name (ObjectMeta s).

End v1.

(** ** Objects of k8s.io/client-go/tools/clientcmd/api *)

Module api.

Record Cluster := {
  Server : string;
  CertificateAuthorityData : bytes
}.

Record Context := {
  ctx_Cluster : string;
  ctx_AuthInfo : string;
  ctx_Namespace : string
}.

Record AuthInfo := { Token : string }.

Record Config := {
  Kind : string;
  APIVersion : string;
  Clusters : gmap string Cluster;
  AuthInfos : gmap string AuthInfo;
  Contexts : gmap string Context;
  CurrentContext : string
}.

Definition NewConfig : Config :=
  {| Kind := ""; APIVersion := ""; Clusters := ∅; AuthInfos := ∅;
     Contexts := ∅; CurrentContext := "" |}.

End api.

Module types.
Inductive PatchType :=
| JSONPatchType
| MergePatchType
| StrategicMergePatchType.
End types.

(** ** The command's arguments *)

Record Args := {
  kubeconfig : string;
  context : string;
  clusters : list string;
  namespace : string
}.

(** ** The collaborators

    [ClientConfig kubeconfig c] stands for
    [BuildClientConfig(kubeconfig, c).ClientConfig()] and
    [GetStartingConfig kubeconfig c] for
    [BuildClientConfig(kubeconfig, c).ConfigAccess().GetStartingConfig()];
    both read the local configuration only.  The four secret and account
    operations are the typed client's methods; a create or a patch returns
    Go's pair (result, err) and may change the world. *)
Class Kube := {
  World : Type;
  RestConfig : Type;
  Clientset : Type;
  Payload : Type;
  GetStartingConfig : string → string → error + api.Config;
  ClientConfig : string → string → error + RestConfig;
  NewForConfig : RestConfig → error + Clientset;
  Namespaces_Get : Clientset → string → World → error + v1.Namespace;
  ServiceAccounts_Get :
    Clientset → string → string → World → error + v1.ServiceAccount;
  Secrets_Get : Clientset → string → string → World → error + v1.Secret;
  Secrets_Create :
    Clientset → string → v1.Secret → World → v1.Secret * option error * World;
  Secrets_Patch :
    Clientset → string → string → types.PatchType → Payload → World →
    v1.Secret * option error * World;
  json_Marshal : v1.Secret → error + Payload
}.

(** How the process is ended from inside the command.  [log.Fatal] prints
    its message and calls [os.Exit(1)]; a nil-pointer dereference panics,
    which ends a Go program with status 2. *)
Inductive Abort :=
| LogFatal (msg : string)
| OsExit (code : Z)
| NilPanic.

(** How a run of the command ends: it returns nil, it returns an error, or
    the process is ended before it returns.  The status after [RunE] returns
    an error is chosen by the caller of the cobra command, which is not part
    of the package. *)
Inductive Exit :=
| ReturnNil
| ReturnErr (err : error)
| Aborted (a : Abort).

Definition exit_status (o : Exit) : option Z :=
  match o with
  | ReturnNil => Some 0%Z
  | ReturnErr _ => None
  | Aborted (LogFatal _) => Some 1%Z
  | Aborted (OsExit c) => Some c
  | Aborted NilPanic => Some 2%Z
  end.

(** The lines the command prints. *)
Inductive Line :=
| LJoining (src dst : string)
| LSecretExists (result : v1.Secret)
| LPatchErr (err : option error)
| LPatchResult (res : v1.Secret)
| LOnlyTwo (n : nat)
| LConfigNotFound (cluster : string)
| LNoClient (cluster : string) (err : error)
| LNoClientset (cluster : string) (err : error)
| LNoNamespace (cluster : string) (err : error)
| LFoundNamespace (cluster : string).

(** A step of the command either continues with a value or ends the
    process. *)
Inductive Res (A : Type) :=
| Ok (a : A)
| Stop (a : Abort).
Arguments Ok {A} a.
Arguments Stop {A} a.

Section Command.

Context `{K : Kube}.

(** A request sent to a cluster. *)
Inductive Call :=
| CGetNamespace (name : string)
| CGetServiceAccount (ns name : string)
| CGetSecret (ns name : string)
| CCreateSecret (ns : string) (s : v1.Secret)
| CPatchSecret (ns name : string) (pt : types.PatchType) (p : Payload).

(** What a run does, in order: requests, each with the client it was
    issued on, and printed lines. *)
Inductive Event :=
| Api (cs : Clientset) (c : Call)
| Stdout (l : Line).

(** Computations of the command: they read and change the clusters, log
    what they do, and either continue with a value or end the process. *)
Definition M (A : Type) : Type := World → Res A * World * list Event.

Definition ret {A} (a : A) : M A := λ w, (Ok a, w, []).

Definition bind {A B} (f : A → M B) (m : M A) : M B := λ w,
  match m w with
  | (Ok a, w1, t1) => let '(r, w2, t2) := f a w1 in (r, w2, t1 ++ t2)
  | (Stop o, w1, t1) => (Stop o, w1, t1)
  end.

#[global] Instance M_ret : MRet M := @ret.
#[global] Instance M_bind : MBind M := @bind.

Fixpoint forM_ {A} (l : list A) (f : A → M unit) : M unit :=
  match l with
  | [] => mret tt
  | x :: l' => f x ;; forM_ l' f
  end.

Definition printf (l : Line) : M unit := λ w, (Ok tt, w, [Stdout l]).

Definition stop {A} (a : Abort) : M A := λ w, (Stop a, w, []).

(** [log.Fatal(err)] and [log.Fatalf]. *)
Definition log_Fatal {A} (msg : string) : M A := stop (LogFatal msg).

(** [if err != nil { log.Fatal(err) }] *)
Definition orFatal {A} (r : error + A) : M A :=
  match r with
  | inl err => log_Fatal (Message err)
  | inr a => mret a
  end.

(** Field access through a pointer taken from a map: a missing key gives
    the nil pointer and the access panics. *)
Definition deref {A} (p : option A) : M A :=
  match p with
  | Some a => mret a
  | None => stop NilPanic
  end.

Definition getNamespace (cs : Clientset) (name : string)
  : M (error + v1.Namespace) := λ w,
  (Ok (Namespaces_Get cs name w), w, [Api cs (CGetNamespace name)]).

Definition getServiceAccount (cs : Clientset) (ns name : string)
  : M (error + v1.ServiceAccount) := λ w,
  (Ok (ServiceAccounts_Get cs ns name w), w,
   [Api cs (CGetServiceAccount ns name)]).

Definition getSecret (cs : Clientset) (ns name : string)
  : M (error + v1.Secret) := λ w,
  (Ok (Secrets_Get cs ns name w), w, [Api cs (CGetSecret ns name)]).

Definition createSecret (cs : Clientset) (ns : string) (s : v1.Secret)
  : M (v1.Secret * option error) := λ w,
  let '(result, err, w') := Secrets_Create cs ns s w in
  (Ok (result, err), w', [Api cs (CCreateSecret ns s)]).

Definition patchSecret (cs : Clientset) (ns name : string)
    (pt : types.PatchType) (p : Payload)
  : M (v1.Secret * option error) := λ w,
  let '(res, err, w') := Secrets_Patch cs ns name pt p w in
  (Ok (res, err), w', [Api cs (CPatchSecret ns name pt p)]).

(** *** The remote-access descriptor [sc] *)
Definition descriptor (clusterName server : string) (caData token : bytes)
  : api.Config :=
  let sc := api.NewConfig in
  {| api.Kind := "Config";
     api.APIVersion := "v1";
     api.Clusters :=
       <[clusterName :=
           {| api.CertificateAuthorityData := caData;
              api.Server := server |}]> (api.Clusters sc);
     api.Contexts :=
       <[clusterName :=
           {| api.ctx_Cluster := clusterName;
              api.ctx_AuthInfo := clusterName;
              api.ctx_Namespace := "" |}]> (api.Contexts sc);
     api.CurrentContext := clusterName;
     api.AuthInfos :=
       <[clusterName := {| api.Token := string_of_list_byte token |}]>
         (api.AuthInfos sc) |}.

(** *** The secret [srcSecret] sent to the destination *)
Definition srcSecret (src namespace : string) : v1.Secret :=
  {| v1.ObjectMeta :=
       {| metav1.Name := "istio-mc-" +:+ src;
          metav1.Namespace := namespace;
          metav1.Labels := {["istio/multiCluster" := "true"]} |};
     v1.Data := ∅;
     v1.StringData := ∅;
     v1.Type_ := "" |}.

(** *** The body of the inner loop: one directed pair [src] to [dst] *)
Definition joinPair (args : Args) (config : api.Config)
    (dst : string) (dstKube : Clientset) (src : string) : M unit :=
  if decide (src = dst) then mret tt else
  printf (LJoining src dst) ;;
  dstContext ← deref (api.Contexts config !! dst);
  let clusterName := api.ctx_Cluster dstContext in
  dstCluster ← deref (api.Clusters config !! clusterName);
  let server := api.Server dstCluster in
  let namespace := "istio-system" in
  let serviceAccountName := "istio-pilot-service-account" in
  srcRest ← orFatal (ClientConfig (kubeconfig args) src);
  srcKube ← orFatal (NewForConfig srcRest);
  r ← getServiceAccount srcKube namespace serviceAccountName;
  serviceAccount ← orFatal r;
  match v1.Secrets serviceAccount with
  | [ref] =>
      let secretName := v1.ref_Name ref in
      r ← getSecret srcKube namespace secretName;
      pilotSecret ← orFatal r;
      match v1.Data pilotSecret !! "ca.crt" with
      | None => log_Fatal (secretName +:+ " is missing ca.crt")
      | Some caData =>
          match v1.Data pilotSecret !! "token" with
          | None => log_Fatal (secretName +:+ " is missing token")
          | Some token =>
              let sc := descriptor clusterName server caData token in
              let srcSecret := srcSecret src namespace in
              '(result, err) ← createSecret dstKube namespace srcSecret;
              if errors.IsAlreadyExists err then
                printf (LSecretExists result) ;;
                patch ← orFatal (json_Marshal srcSecret);
                '(res, err) ← patchSecret dstKube namespace
                                 (v1.Name srcSecret)
                                 types.StrategicMergePatchType patch;
                printf (LPatchErr err) ;;
                printf (LPatchResult res)
              else mret tt
          end
      end
  | _ =>
      (* len(serviceAccount.Secrets) != 1: log.Fatal(err) with err nil *)
      log_Fatal "<nil>"
  end.

(** *** The two nested loops over [args.clusters] *)
Definition joinClusters (args : Args) (config : api.Config) : M unit :=
  forM_ (clusters args) (λ dst,
    dstRest ← orFatal (ClientConfig (kubeconfig args) dst);
    dstKube ← orFatal (NewForConfig dstRest);
    forM_ (clusters args) (joinPair args config dst dstKube)).

(** *** The checks at the head of the disabled block

    The block guarded by [if false] starts with the two-cluster check and
    the per-cluster lookup below; the shell invocations that follow them in
    the block are not part of the exchange and are left out. *)
Definition legacyCheckCluster (args : Args) (config : api.Config)
    (cluster : string) : M bool :=
  match api.Contexts config !! cluster with
  | None => printf (LConfigNotFound cluster) ;; mret true
  | Some _ =>
      match ClientConfig (kubeconfig args) cluster with
      | inl err => printf (LNoClient cluster err) ;; mret true
      | inr rest =>
          match NewForConfig rest with
          | inl err => printf (LNoClientset cluster err) ;; mret true
          | inr cs =>
              r ← getNamespace cs "istio-system";
              match r with
              | inl err => printf (LNoNamespace cluster err) ;; mret true
              | inr _ => printf (LFoundNamespace cluster) ;; mret false
              end
          end
      end
  end.

Fixpoint legacyCheckClusters (args : Args) (config : api.Config)
    (l : list string) (notFound : bool) : M bool :=
  match l with
  | [] => mret notFound
  | cluster :: l' =>
      failed ← legacyCheckCluster args config cluster;
      legacyCheckClusters args config l' (failed || notFound)
  end.

Definition legacyChecks (args : Args) (config : api.Config) : M unit :=
  (if decide (length (clusters args) = 2) then mret tt
   else printf (LOnlyTwo (length (clusters args))) ;; stop (OsExit 1)) ;;
  notFound ← legacyCheckClusters args config (clusters args) false;
  if (notFound : bool) then stop (OsExit 1) else mret tt.

(** *** [RunE] of the join command *)
Definition joinBody (args : Args) (config : api.Config) : M unit :=
  (if false then legacyChecks args config else mret tt) ;;
  joinClusters args config.

(** The outcome of the command once the body has run: [return nil] after
    the loops, or the exit that ended the process. *)
Definition finish (r : Res unit * World * list Event)
  : Exit * World * list Event :=
  match r with
  | (Ok _, w, t) => (ReturnNil, w, t)
  | (Stop a, w, t) => (Aborted a, w, t)
  end.

Definition RunE (args : Args) (w : World) : Exit * World * list Event :=
  match GetStartingConfig (kubeconfig args) (context args) with
  | inl err => (ReturnErr err, w, [])
  | inr config => finish (joinBody args config w)
  end.

End Command.


(** ** What is observed of a run *)

Section Observations.

Context `{K : Kube}.

(** The client the command builds for a context: [ClientConfig] followed
    by [NewForConfig]. *)
Definition clientFor (args : Args) (c : string) : error + Clientset :=
  match ClientConfig (kubeconfig args) c with
  | inl err => inl err
  | inr rest => NewForConfig rest
  end.

Definition isGet (c : Call) : bool :=
  match c with
  | CGetNamespace _ | CGetServiceAccount _ _ | CGetSecret _ _ => true
  | CCreateSecret _ _ | CPatchSecret _ _ _ _ => false
  end.

Definition isWrite (c : Call) : bool := negb (isGet c).

Definition callNamespace (c : Call) : string :=
  match c with
  | CGetNamespace _ => ""
  | CGetServiceAccount ns _ | CGetSecret ns _
  | CCreateSecret ns _ | CPatchSecret ns _ _ _ => ns
  end.

Definition isApi (e : Event) : bool :=
  match e with Api _ _ => true | Stdout _ => false end.

Definition isWriteEvent (e : Event) : bool :=
  match e with Api _ c => isWrite c | Stdout _ => false end.

(** The requests of a trace, the writes among them, and the directed pairs
    announced by "joining src to dst", one per exchange attempt. *)
Definition calls (t : list Event) : list Event := List.filter isApi t.

Definition writes (t : list Event) : list Event := List.filter isWriteEvent t.

Definition attempts (t : list Event) : list (string * string) :=
  omap (λ e, match e with
             | Stdout (LJoining src dst) => Some (src, dst)
             | _ => None
             end) t.

(** The pairs the two loops of [joinClusters] go through, in order: the
    outer loop fixes [dst], the inner one skips [src = dst]. *)
Definition pairsInto (l : list string) (dst : string)
  : list (string * string) :=
  src ← l; if decide (src = dst) then [] else [(src, dst)].

Definition orderedPairs (l : list string) : list (string * string) :=
  dst ← l; pairsInto l dst.

(** A property of every event a computation can emit. *)
Definition traceAll {A} (P : Event → Prop) (m : M A) : Prop :=
  ∀ w, Forall P (m w).2.

(** What a request of the pair [src] to [dst] may be: a get on the client
    built for [src], or a create or patch in istio-system on [dstKube]. *)
Definition pairEvent (args : Args) (src : string) (dstKube : Clientset)
    (e : Event) : Prop :=
  match e with
  | Stdout _ => True
  | Api cs c =>
      (isGet c = true ∧ clientFor args src = inr cs) ∨
      (isWrite c = true ∧ cs = dstKube ∧ callNamespace c = "istio-system")
  end.

(** The address of the destination's API server as the loop body reads it
    from the local configuration: the context of [dst], then its cluster. *)
Definition serverOf (config : api.Config) (dst : string) : option string :=
  match api.Contexts config !! dst with
  | None => None
  | Some dstContext =>
      match api.Clusters config !! api.ctx_Cluster dstContext with
      | None => None
      | Some dstCluster => Some (api.Server dstCluster)
      end
  end.

(** A secret that carries a name, a namespace and the mesh-join label, and
    nothing else. *)
Definition onlyNameNamespaceLabel (src : string) (s : v1.Secret) : Prop :=
  metav1.Name (v1.ObjectMeta s) = "istio-mc-" +:+ src ∧
  metav1.Namespace (v1.ObjectMeta s) = "istio-system" ∧
  metav1.Labels (v1.ObjectMeta s) = {["istio/multiCluster" := "true"]} ∧
  v1.Data s = ∅ ∧
  v1.StringData s = ∅ ∧
  v1.Type_ s = "".

(** What a write of the pair [src] to [dst] submits: the create such a
    secret, the patch the encoding of such a secret under its name. *)
Definition pairPayload (src : string) (e : Event) : Prop :=
  match e with
  | Api _ (CCreateSecret ns s) =>
      ns = "istio-system" ∧ onlyNameNamespaceLabel src s
  | Api _ (CPatchSecret ns name pt p) =>
      ns = "istio-system" ∧ name = "istio-mc-" +:+ src ∧
      pt = types.StrategicMergePatchType ∧
      ∃ s, onlyNameNamespaceLabel src s ∧ json_Marshal s = inr p
  | _ => True
  end.

(** A computation whose every way of ending the process satisfies [P]. *)
Definition stopsIn {A} (P : Abort → Prop) (m : M A) : Prop :=
  ∀ w a w' t, m w = (Stop a, w', t) → P a.

(** Ended by [log.Fatal] (status 1) or by a panic (status 2). *)
Definition fatalOrPanic (a : Abort) : Prop :=
  a = NilPanic ∨ ∃ msg, a = LogFatal msg.

(** A computation that relates the clusters it ends on to the clusters it
    started on, however it ends. *)
Definition preserves {A} (R : World → World → Prop) (m : M A) : Prop :=
  ∀ w, R w (m w).1.2.

(** A computation that ends the process, whatever the clusters hold. *)
Definition mustStop {A} (m : M A) : Prop :=
  ∀ w, ∃ a w' t, m w = (Stop a, w', t).

End Observations.

(** ** An in-memory API server

    Every cluster holds its namespaces, service accounts and secrets, the
    latter two keyed by (namespace, name).  A create of a name that is taken
    is refused with AlreadyExists; a patch of an existing secret merges the
    patch's labels and data over the stored ones and keeps what the patch
    does not mention; a patch of a missing secret is refused with NotFound.
    [createDenied] and [patchDenied] let a cluster refuse every write of
    that kind with a given error, as an admission rule or a missing
    permission would.  A client is the name of the cluster it talks to, as
    resolved from the context in the local configuration [cfg]; a context
    that the configuration does not hold cannot be turned into a client. *)
Module Mem.

Record Cluster := {
  namespaces : gset string;
  serviceAccounts : gmap (string * string) v1.ServiceAccount;
  secrets : gmap (string * string) v1.Secret;
  createDenied : option error;
  patchDenied : option error
}.

Definition withSecrets (c : Cluster)
    (ss : gmap (string * string) v1.Secret) : Cluster :=
  {| namespaces := namespaces c;
     serviceAccounts := serviceAccounts c;
     secrets := ss;
     createDenied := createDenied c;
     patchDenied := patchDenied c |}.

Definition noSecret : v1.Secret :=
  {| v1.ObjectMeta :=
       {| metav1.Name := ""; metav1.Namespace := ""; metav1.Labels := ∅ |};
     v1.Data := ∅; v1.StringData := ∅; v1.Type_ := "" |}.

Definition errUnreachable : error :=
  {| Reason := metav1.StatusReasonUnknown;
     Message := "connection refused" |}.

Definition errNotFound (name : string) : error :=
  {| Reason := metav1.StatusReasonNotFound;
     Message := name +:+ " not found" |}.

Definition errAlreadyExists (name : string) : error :=
  {| Reason := metav1.StatusReasonAlreadyExists;
     Message := name +:+ " already exists" |}.

Definition errNoContext (c : string) : error :=
  {| Reason := metav1.StatusReasonUnknown;
     Message := "context " +:+ c +:+ " does not exist" |}.

Definition errNoCluster (c : string) : error :=
  {| Reason := metav1.StatusReasonUnknown;
     Message := "cluster " +:+ c +:+ " does not exist" |}.

Definition clientConfig (cfg : api.Config) (c : string) : error + string :=
  match api.Contexts cfg !! c with
  | None => inl (errNoContext c)
  | Some ctx =>
      match api.Clusters cfg !! api.ctx_Cluster ctx with
      | None => inl (errNoCluster (api.ctx_Cluster ctx))
      | Some _ => inr (api.ctx_Cluster ctx)
      end
  end.

Definition getNamespace (cs name : string) (w : gmap string Cluster)
  : error + v1.Namespace :=
  match w !! cs with
  | None => inl errUnreachable
  | Some c =>
      if decide (name ∈ namespaces c)
      then inr {| v1.ns_ObjectMeta :=
                    {| metav1.Name := name; metav1.Namespace := "";
                       metav1.Labels := ∅ |} |}
      else inl (errNotFound name)
  end.

Definition getServiceAccount (cs ns name : string) (w : gmap string Cluster)
  : error + v1.ServiceAccount :=
  match w !! cs with
  | None => inl errUnreachable
  | Some c =>
      match serviceAccounts c !! (ns, name) with
      | None => inl (errNotFound name)
      | Some sa => inr sa
      end
  end.

Definition getSecret (cs ns name : string) (w : gmap string Cluster)
  : error + v1.Secret :=
  match w !! cs with
  | None => inl errUnreachable
  | Some c =>
      match secrets c !! (ns, name) with
      | None => inl (errNotFound name)
      | Some s => inr s
      end
  end.

Definition createSecret (cs ns : string) (s : v1.Secret)
    (w : gmap string Cluster)
  : v1.Secret * option error * gmap string Cluster :=
  match w !! cs with
  | None => (noSecret, Some errUnreachable, w)
  | Some c =>
      match createDenied c with
      | Some e => (noSecret, Some e, w)
      | None =>
          match secrets c !! (ns, v1.Name s) with
          | Some _ => (noSecret, Some (errAlreadyExists (v1.Name s)), w)
          | None =>
              (s, None,
               <[cs := withSecrets c (<[(ns, v1.Name s) := s]> (secrets c))]> w)
          end
      end
  end.

(** The stored object after a merge patch. *)
Definition merge (p old : v1.Secret) : v1.Secret :=
  {| v1.ObjectMeta :=
       {| metav1.Name := v1.Name old;
          metav1.Namespace := metav1.Namespace (v1.ObjectMeta old);
          metav1.Labels :=
            metav1.Labels (v1.ObjectMeta p) ∪ metav1.Labels (v1.ObjectMeta old) |};
     v1.Data := v1.Data p ∪ v1.Data old;
     v1.StringData := v1.StringData p ∪ v1.StringData old;
     v1.Type_ := if decide (v1.Type_ p = "") then v1.Type_ old else v1.Type_ p |}.

Definition patchSecret (cs ns name : string) (pt : types.PatchType)
    (p : v1.Secret) (w : gmap string Cluster)
  : v1.Secret * option error * gmap string Cluster :=
  match w !! cs with
  | None => (noSecret, Some errUnreachable, w)
  | Some c =>
      match patchDenied c with
      | Some e => (noSecret, Some e, w)
      | None =>
          match secrets c !! (ns, name) with
          | None => (noSecret, Some (errNotFound name), w)
          | Some old =>
              let s := merge p old in
              (s, None,
               <[cs := withSecrets c (<[(ns, name) := s]> (secrets c))]> w)
          end
      end
  end.

Definition kube (cfg : api.Config) : Kube :=
  {| World := gmap string Cluster;
     RestConfig := string;
     Clientset := string;
     Payload := v1.Secret;
     GetStartingConfig := λ _ _, inr cfg;
     ClientConfig := λ _ c, clientConfig cfg c;
     NewForConfig := λ rest, inr rest;
     Namespaces_Get := getNamespace;
     ServiceAccounts_Get := getServiceAccount;
     Secrets_Get := getSecret;
     Secrets_Create := createSecret;
     Secrets_Patch := patchSecret;
     json_Marshal := λ s, inr s |}.

(** *** A configuration with three contexts and a world to run on *)

Definition ctx (cluster : string) : api.Context :=
  {| api.ctx_Cluster := cluster; api.ctx_AuthInfo := cluster +:+ "-admin";
     api.ctx_Namespace := "" |}.

Definition endpoint (url : string) : api.Cluster :=
  {| api.Server := url; api.CertificateAuthorityData := [] |}.

Definition cfg3 : api.Config :=
  {| api.Kind := "Config"; api.APIVersion := "v1";
     api.Clusters :=
       <["cluster-a" := endpoint "https://a.example:6443"]>
       (<["cluster-b" := endpoint "https://b.example:6443"]>
       (<["cluster-d" := endpoint "https://d.example:6443"]> ∅));
     api.AuthInfos := ∅;
     api.Contexts :=
       <["a" := ctx "cluster-a"]>
       (<["b" := ctx "cluster-b"]>
       (<["d" := ctx "cluster-d"]> ∅));
     api.CurrentContext := "a" |}.

Definition meta (name : string) : metav1.ObjectMeta :=
  {| metav1.Name := name; metav1.Namespace := "istio-system";
     metav1.Labels := ∅ |}.

Definition pilotAccount (refs : list string) : v1.ServiceAccount :=
  {| v1.sa_ObjectMeta := meta "istio-pilot-service-account";
     v1.Secrets := (λ n, {| v1.ref_Name := n |}) <$> refs |}.

Definition tokenSecret (name : string) (data : gmap string bytes)
  : v1.Secret :=
  {| v1.ObjectMeta := meta name; v1.Data := data; v1.StringData := ∅;
     v1.Type_ := "kubernetes.io/service-account-token" |}.

Definition credentials : gmap string bytes :=
  <["ca.crt" := [Byte.x2d; Byte.x43; Byte.x41]]>
  (<["token" := [Byte.x74; Byte.x6f; Byte.x6b]]> ∅).

(** A cluster with the control-plane namespace, the pilot account bound
    to one token secret, and no write restriction. *)
Definition healthy : Cluster :=
  {| namespaces := {["istio-system"]};
     serviceAccounts :=
       {[("istio-system", "istio-pilot-service-account") :=
           pilotAccount ["pilot-token"]]};
     secrets :=
       {[("istio-system", "pilot-token") :=
           tokenSecret "pilot-token" credentials]};
     createDenied := None;
     patchDenied := None |}.

Definition world3 : gmap string Cluster :=
  <["cluster-a" := healthy]>
  (<["cluster-b" := healthy]>
  (<["cluster-d" := healthy]> ∅)).

Definition join (cs : list string) : Args :=
  {| kubeconfig := ""; context := ""; clusters := cs; namespace := "" |}.

(** Variations of a healthy cluster: a different binding of the pilot
    account, one more (or one replaced) secret in istio-system, and writes
    refused with a given error. *)
Definition withAccount (c : Cluster) (refs : list string) : Cluster :=
  {| namespaces := namespaces c;
     serviceAccounts :=
       <[("istio-system", "istio-pilot-service-account") :=
           pilotAccount refs]> (serviceAccounts c);
     secrets := secrets c;
     createDenied := createDenied c;
     patchDenied := patchDenied c |}.

Definition withSecret (c : Cluster) (s : v1.Secret) : Cluster :=
  withSecrets c (<[("istio-system", v1.Name s) := s]> (secrets c)).

Definition refusing (c : Cluster) (onCreate onPatch : option error)
  : Cluster :=
  {| namespaces := namespaces c;
     serviceAccounts := serviceAccounts c;
     secrets := secrets c;
     createDenied := onCreate;
     patchDenied := onPatch |}.

Definition errForbidden : error :=
  {| Reason := metav1.StatusReasonForbidden;
     Message := "secrets is forbidden" |}.

(** Cluster a refuses the creation of secrets. *)
Definition worldNoCreate : gmap string Cluster :=
  <["cluster-a" := refusing healthy (Some errForbidden) None]> world3.

(** Cluster a holds istio-mc-b already and refuses patches. *)
Definition worldNoPatch : gmap string Cluster :=
  <["cluster-a" :=
      refusing (withSecret healthy (tokenSecret "istio-mc-b" ∅))
        None (Some errForbidden)]> world3.

(** The pilot account of cluster a references two secrets. *)
Definition worldTwoRefs : gmap string Cluster :=
  <["cluster-a" :=
      withAccount healthy ["pilot-token"; "pilot-token-old"]]> world3.

(** The token secret of cluster a has a CA certificate and no token. *)
Definition worldNoToken : gmap string Cluster :=
  <["cluster-a" :=
      withSecret healthy
        (tokenSecret "pilot-token"
           (<["ca.crt" := [Byte.x2d; Byte.x43; Byte.x41]]> ∅))]> world3.

(** The command on the three healthy clusters, for the contexts a and b. *)
Definition firstRun
  : Exit * gmap string Cluster * list (@Event (kube cfg3)) :=
  RunE (K:=kube cfg3) (join ["a"; "b"]) world3.

(** The secret of a given name that a cluster holds in istio-system. *)
Definition secretOn (w : gmap string Cluster) (cluster name : string)
  : option v1.Secret :=
  match w !! cluster with
  | None => None
  | Some c => secrets c !! ("istio-system", name)
  end.

(** *** What a cluster holds, before and after a run *)

(** The stored secret [s'] kept what [s] had: the same data, and the
    mesh-join label if [s] carried it. *)
Definition secretLe (s s' : v1.Secret) : Prop :=
  v1.Data s' = v1.Data s ∧
  (metav1.Labels (v1.ObjectMeta s) !! "istio/multiCluster" = Some "true" →
   metav1.Labels (v1.ObjectMeta s') !! "istio/multiCluster" = Some "true").

Definition clusterLe (c c' : Cluster) : Prop :=
  serviceAccounts c' = serviceAccounts c ∧
  createDenied c' = createDenied c ∧
  patchDenied c' = patchDenied c ∧
  ∀ k s, secrets c !! k = Some s →
         ∃ s', secrets c' !! k = Some s' ∧ secretLe s s'.

(** The same clusters, each with the accounts and write rules it had and
    with every secret it had. *)
Definition grows (w w' : gmap string Cluster) : Prop :=
  ∀ h, option_Forall2 clusterLe (w !! h) (w' !! h).

(** The cluster behind client [h] answers and refuses no write. *)
Definition writable (w : gmap string Cluster) (h : string) : Prop :=
  ∃ c, w !! h = Some c ∧ createDenied c = None ∧ patchDenied c = None.

Definition acceptsWrites (cfg : api.Config) (cs : list string)
    (w : gmap string Cluster) : Prop :=
  ∀ c h, c ∈ cs → clientConfig cfg c = inr h → writable w h.

(** The pilot account of [src] is bound to one secret, which holds a CA
    certificate and a token. *)
Definition readable (cfg : api.Config) (w : gmap string Cluster)
    (src : string) : Prop :=
  ∃ srcKube sc sa ref ps,
    clientConfig cfg src = inr srcKube ∧
    w !! srcKube = Some sc ∧
    serviceAccounts sc !! ("istio-system", "istio-pilot-service-account")
      = Some sa ∧
    v1.Secrets sa = [ref] ∧
    secrets sc !! ("istio-system", v1.ref_Name ref) = Some ps ∧
    is_Some (v1.Data ps !! "ca.crt") ∧
    is_Some (v1.Data ps !! "token").

(** The cluster behind [h] holds the secret istio-mc-<src> in istio-system,
    with the mesh-join label. *)
Definition hasJoinSecret (w : gmap string Cluster) (h src : string) : Prop :=
  ∃ c s,
    w !! h = Some c ∧
    secrets c !! ("istio-system", "istio-mc-" +:+ src) = Some s ∧
    metav1.Labels (v1.ObjectMeta s) !! "istio/multiCluster" = Some "true".

(** The pair [src] to [dst] has been exchanged. *)
Definition settled (cfg : api.Config) (w : gmap string Cluster)
    (src dst : string) : Prop :=
  ∃ dstKube,
    clientConfig cfg dst = inr dstKube ∧
    readable cfg w src ∧
    writable w dstKube ∧
    hasJoinSecret w dstKube src.

(** The name of the cluster a context resolves to. *)
Definition clientName (cfg : api.Config) (c : string) : string :=
  match clientConfig cfg c with
  | inr h => h
  | inl _ => ""
  end.

(** The two writes of an exchange that finds its secret in place: the
    refused create and the patch. *)
Definition upsertCalls (cfg : api.Config) (src dst : string)
  : list (@Event (kube cfg)) :=
  [Api (K:=kube cfg) (clientName cfg dst)
     (CCreateSecret (K:=kube cfg) "istio-system"
        (srcSecret src "istio-system"));
   Api (K:=kube cfg) (clientName cfg dst)
     (CPatchSecret (K:=kube cfg) "istio-system" ("istio-mc-" +:+ src)
        types.StrategicMergePatchType (srcSecret src "istio-system"))].

Definition patchSucceeded {K : Kube} (e : @Event K) : Prop :=
  match e with
  | Stdout (LPatchErr err) => err = None
  | _ => True
  end.

End Mem.

(** ** Further observations of a run *)

Section Protocol.

Context `{K : Kube}.

(** The requests of one exchange, in the order the loop body issues them:
    the two gets on the source, the create on the destination and, when it
    comes to that, the patch. *)
Definition pairRequests (srcKube dstKube : Clientset) (src secretName : string)
    (patch : list Event) : list Event :=
  [Api srcKube
     (CGetServiceAccount "istio-system" "istio-pilot-service-account");
   Api srcKube (CGetSecret "istio-system" secretName);
   Api dstKube (CCreateSecret "istio-system" (srcSecret src "istio-system"))]
  ++ patch.

(** No patch, or one patch of istio-mc-<src> on the destination. *)
Definition patchOrNone (dstKube : Clientset) (src : string)
    (patch : list Event) : Prop :=
  patch = [] ∨
  ∃ p, patch =
         [Api dstKube
            (CPatchSecret "istio-system" ("istio-mc-" +:+ src)
               types.StrategicMergePatchType p)].

Definition isPatch (e : Event) : bool :=
  match e with
  | Api _ (CPatchSecret _ _ _ _) => true
  | _ => false
  end.

(** What a request of a whole run may be: made in istio-system, on the
    client of one of the listed identifiers, and, for a write, about the
    secret istio-mc-<src> of a listed identifier [src]. *)
Definition runEvent (args : Args) (e : Event) : Prop :=
  match e with
  | Stdout _ => True
  | Api cs c =>
      callNamespace c = "istio-system" ∧
      (∃ id, id ∈ clusters args ∧ clientFor args id = inr cs) ∧
      match c with
      | CCreateSecret _ s =>
          ∃ src, src ∈ clusters args ∧ v1.Name s = "istio-mc-" +:+ src
      | CPatchSecret _ name _ _ =>
          ∃ src, src ∈ clusters args ∧ name = "istio-mc-" +:+ src
      | _ => True
      end
  end.

(** The arguments with another value of the namespace flag, and with
    another value of the context flag. *)
Definition withNamespace (args : Args) (ns : string) : Args :=
  {| kubeconfig := kubeconfig args; context := context args;
     clusters := clusters args; namespace := ns |}.

Definition withContext (args : Args) (c : string) : Args :=
  {| kubeconfig := kubeconfig args; context := c;
     clusters := clusters args; namespace := namespace args |}.

End Protocol.

(** ** Further runs on the in-memory server *)

Module MemRuns.

(** The exchange of a to b on the three healthy clusters. *)
Definition firstPair
  : Res unit * gmap string Mem.Cluster * list (@Event (Mem.kube Mem.cfg3)) :=
  joinPair (K:=Mem.kube Mem.cfg3) (Mem.join ["a"; "b"]) Mem.cfg3
    "b" "cluster-b" "a" Mem.world3.

(** Cluster b holds a secret istio-mc-a already, with data, string data, a
    type and a label of its own and without the mesh-join label; the
    exchange of a to b there. *)
Definition oldSecret : v1.Secret :=
  {| v1.ObjectMeta :=
       {| metav1.Name := "istio-mc-a";
          metav1.Namespace := "istio-system";
          metav1.Labels := {["owner" := "ops"]} |};
     v1.Data := {["kubeconfig" := [Byte.x61; Byte.x70; Byte.x69]]};
     v1.StringData := {["note" := "kept"]};
     v1.Type_ := "Opaque" |}.

Definition worldOldSecret : gmap string Mem.Cluster :=
  <["cluster-b" := Mem.withSecret Mem.healthy oldSecret]> Mem.world3.

Definition secondPair
  : Res unit * gmap string Mem.Cluster * list (@Event (Mem.kube Mem.cfg3)) :=
  joinPair (K:=Mem.kube Mem.cfg3) (Mem.join ["a"; "b"]) Mem.cfg3
    "b" "cluster-b" "a" worldOldSecret.

(** Cluster b refuses the creation of secrets. *)
Definition worldNoCreateOnB : gmap string Mem.Cluster :=
  <["cluster-b" := Mem.refusing Mem.healthy (Some Mem.errForbidden) None]>
    Mem.world3.

(** The command where cluster a refuses the creation of secrets, and the
    command once more on the clusters as that run left them. *)
Definition refusedRun
  : Exit * gmap string Mem.Cluster * list (@Event (Mem.kube Mem.cfg3)) :=
  RunE (K:=Mem.kube Mem.cfg3) (Mem.join ["a"; "b"]) Mem.worldNoCreate.

Definition refusedRerun
  : Exit * gmap string Mem.Cluster * list (@Event (Mem.kube Mem.cfg3)) :=
  RunE (K:=Mem.kube Mem.cfg3) (Mem.join ["a"; "b"]) refusedRun.1.2.

(** The in-memory server behind a loader that, like clientcmd, takes the
    current context of the configuration when the identifier is empty. *)
Definition kubeCurrent (cfg : api.Config) : Kube :=
  {| World := gmap string Mem.Cluster;
     RestConfig := string;
     Clientset := string;
     Payload := v1.Secret;
     GetStartingConfig := λ _ _, inr cfg;
     ClientConfig := λ _ c,
       Mem.clientConfig cfg
         (if decide (c = "") then api.CurrentContext cfg else c);
     NewForConfig := λ rest, inr rest;
     Namespaces_Get := Mem.getNamespace;
     ServiceAccounts_Get := Mem.getServiceAccount;
     Secrets_Get := Mem.getSecret;
     Secrets_Create := Mem.createSecret;
     Secrets_Patch := Mem.patchSecret;
     json_Marshal := λ s, inr s |}.

(** Cluster a has lost its pilot service account. *)
Definition worldNoAccount : gmap string Mem.Cluster :=
  <["cluster-a" :=
      {| Mem.namespaces := Mem.namespaces Mem.healthy;
         Mem.serviceAccounts := ∅;
         Mem.secrets := Mem.secrets Mem.healthy;
         Mem.createDenied := None;
         Mem.patchDenied := None |}]> Mem.world3.

(** The pilot service account of cluster a references a secret that is
    not there. *)
Definition worldDangling : gmap string Mem.Cluster :=
  <["cluster-a" := Mem.withAccount Mem.healthy ["lost-token"]]> Mem.world3.

End MemRuns.

(** ** The client configuration of a kubeconfig path and a context *)

Module clientcmd.

(** What [os.Stat] tells of a file: its size. *)
Record FileInfo := { Size : Z }.

(** [ClientConfigLoadingRules] and [ConfigOverrides], with the fields the
    package sets from its arguments; [DefaultClientConfig] and
    [ClusterDefaults] are the library's constants. *)
Record ClientConfigLoadingRules := { ExplicitPath : string }.

Record ConfigOverrides := { CurrentContext : string }.

Record DeferredLoadingClientConfig := {
  loadingRules : ClientConfigLoadingRules;
  overrides : ConfigOverrides
}.

End clientcmd.

(** [BuildClientConfig]: a kubeconfig path whose file cannot be examined,
    or is empty, is replaced by the empty path before the loading rules are
    built; [stat] is [os.Stat]. *)
Definition BuildClientConfig (stat : string → error + clientcmd.FileInfo)
    (kubeconfig context : string) : clientcmd.DeferredLoadingClientConfig :=
  let kubeconfig :=
    if decide (kubeconfig = "") then kubeconfig
    else match stat kubeconfig with
         | inl _ => ""
         | inr info =>
             if decide (clientcmd.Size info = 0%Z) then "" else kubeconfig
         end in
  {| clientcmd.loadingRules := {| clientcmd.ExplicitPath := kubeconfig |};
     clientcmd.overrides := {| clientcmd.CurrentContext := context |} |}.

(** ** The list command *)

Section ListCommand.

Context `{K : Kube}.

(** The table handed to the tab writer, a line per element and a cell per
    column.  [flush] is [out.Flush()], the write of the formatted table to
    the standard output.  Go leaves the order of [range] over a map open;
    the rows are taken in the order of [map_to_list]. *)
Definition listHeader : list string :=
  ["NAME"; "CLUSTER"; "AUTHINFO"; "NAMESPACE"].

Definition listRow (name : string) (context : api.Context) : list string :=
  [name; api.ctx_Cluster context; api.ctx_AuthInfo context;
   api.ctx_Namespace context].

Definition listRunE (flush : list (list string) → option error)
    (args : Args) : Exit * list (list string) :=
  match GetStartingConfig (kubeconfig args) (context args) with
  | inl err => (ReturnErr err, [])
  | inr config =>
      let out :=
        listHeader ::
        ((λ '(name, context), listRow name context)
           <$> map_to_list (api.Contexts config)) in
      (match flush out with
       | Some err => ReturnErr err
       | None => ReturnNil
       end, out)
  end.

End ListCommand.

(** ** The checks before the join, as the earlier revision runs them *)

Section Preflight.

Context `{K : Kube}.

(** The checks of one cluster: its context, its client configuration, its
    client set and its istio-system namespace.  The client set is returned
    when all four pass, to be stored in [csm]. *)
Definition preflightCluster (args : Args) (config : api.Config)
    (cluster : string) : M (option Clientset) :=
  match api.Contexts config !! cluster with
  | None => printf (LConfigNotFound cluster) ;; mret None
  | Some _ =>
      match ClientConfig (kubeconfig args) cluster with
      | inl err => printf (LNoClient cluster err) ;; mret None
      | inr rest =>
          match NewForConfig rest with
          | inl err => printf (LNoClientset cluster err) ;; mret None
          | inr cs =>
              r ← getNamespace cs "istio-system";
              match r with
              | inl err => printf (LNoNamespace cluster err) ;; mret None
              | inr _ => printf (LFoundNamespace cluster) ;; mret (Some cs)
              end
          end
      end
  end.

Fixpoint preflightLoop (args : Args) (config : api.Config)
    (l : list string) (csm : gmap string Clientset) (notFound : bool)
  : M (gmap string Clientset * bool) :=
  match l with
  | [] => mret (csm, notFound)
  | cluster :: l' =>
      r ← preflightCluster args config cluster;
      match r with
      | None => preflightLoop args config l' csm true
      | Some cs => preflightLoop args config l' (<[cluster := cs]> csm) notFound
      end
  end.

Definition preflight (args : Args) (config : api.Config)
  : M (gmap string Clientset) :=
  (if decide (length (clusters args) = 2) then mret tt
   else printf (LOnlyTwo (length (clusters args))) ;; stop (OsExit 1)) ;;
  '(csm, notFound) ← preflightLoop args config (clusters args) ∅ false;
  if (notFound : bool) then stop (OsExit 1) else mret csm.

(** A cluster passes the checks. *)
Definition passes (args : Args) (config : api.Config) (w : World)
    (cluster : string) (cs : Clientset) : Prop :=
  is_Some (api.Contexts config !! cluster) ∧
  clientFor args cluster = inr cs ∧
  ∃ ns, Namespaces_Get cs "istio-system" w = inr ns.

(** The cluster a diagnostic of the checks is about. *)
Definition lineCluster (e : Event) : option string :=
  match e with
  | Stdout (LConfigNotFound c) | Stdout (LNoClient c _)
  | Stdout (LNoClientset c _) | Stdout (LNoNamespace c _)
  | Stdout (LFoundNamespace c) => Some c
  | _ => None
  end.

(** What an event of the checks may be: a diagnostic, or the get of the
    namespace istio-system on the client of a listed cluster. *)
Definition preflightEvent (args : Args) (e : Event) : Prop :=
  match e with
  | Stdout _ => True
  | Api cs c =>
      c = CGetNamespace "istio-system" ∧
      ∃ cluster, cluster ∈ clusters args ∧ clientFor args cluster = inr cs
  end.

End Preflight.


(** ** The revision of the join command that shells out to kubectl

    [cmd/iop/multi/multicluster.go] runs the checks of the clusters and then
    rotates the certificate authority of the second cluster by a sequence of
    kubectl commands. *)

From Stdlib Require Import Ascii.
From stdpp Require Import pretty.

(** The host the command runs on.  [CombinedOutput argv] is
    [exec.Command(argv[0], argv[1:]...).CombinedOutput()], with the output
    as a string; [TempFile] is [ioutil.TempFile("", "")]; the three file
    operations are the methods of the [*os.File] it returns.  A command may
    change the clusters, a write the file system: all of it is the world. *)
Class Host `{K : Kube} := {
  File : Type;
  CombinedOutput : list string → World → string * option error * World;
  TempFile : World → (error + File) * World;
  File_Write : File → string → World → option error * World;
  File_Close : File → World → World;
  File_Name : File → string
}.

Module strings.

(** [strings.Split(s, sep)] for a separator of one character: the pieces of
    [s] between the occurrences of [sep]; a string without [sep], the empty
    string too, is its only piece. *)
Fixpoint Split (s : string) (sep : ascii) : list string :=
  match s with
  | EmptyString => [EmptyString]
  | String c s' =>
      if Ascii.eqb c sep then EmptyString :: Split s' sep
      else match Split s' sep with
           | [] => [String c EmptyString]
           | piece :: pieces => String c piece :: pieces
           end
  end.

(** [strings.ContainsRune(s, r)] *)
Fixpoint ContainsRune (s : string) (r : ascii) : bool :=
  match s with
  | EmptyString => false
  | String c s' => Ascii.eqb c r || ContainsRune s' r
  end.

End strings.

Module strconv.

Definition Itoa (i : Z) : string := pretty i.

End strconv.

Module fmt.

(** [fmt.Errorf("%v: %v", err, string(out))]: a plain error, of no status
    reason. *)
Definition Errorf (err : error) (out : string) : error :=
  {| Reason := metav1.StatusReasonUnknown;
     Message := Message err +:+ ": " +:+ out |}.

End fmt.

Module multicluster.

(** How the command stops before its last statement: it returns an error,
    the process is ended, or an index is out of range, which panics. *)
Inductive Halt :=
| Return (err : error)
| Ended (a : Abort)
| IndexOutOfRange.

Inductive Flow (A : Type) :=
| Go (a : A)
| Halted (h : Halt).
Arguments Go {A} a.
Arguments Halted {A} h.

(** What [fmt.Println] is called with. *)
Inductive Said :=
| SArgs (args : list string)
| SOut (out : string)
| SNS (namespaces : list string)
| SSavedTo (name : string)
| SNamespace (namespace : string)
| SDeployment (deployment : string).

(** The quotation mark, and the newline that separates the names of the
    deployments. *)
Definition quote : string := String "034"%char EmptyString.

Definition newline : ascii := "010"%char.

(** The patch that restarts a deployment. *)
Definition patch : string :=
  "{" +:+ quote +:+ "spec" +:+ quote +:+ ":{" +:+ quote +:+ "template"
  +:+ quote +:+ ":{" +:+ quote +:+ "metadata" +:+ quote +:+ ":{" +:+ quote
  +:+ "annotations" +:+ quote +:+ ":{" +:+ quote +:+ "date" +:+ quote +:+ ":"
  +:+ quote +:+ "`date +'%s'`" +:+ quote +:+ "}}}}}".

Section Join.

Context `{K : Kube} `{H : !Host}.

(** What a run does, in order: the events of the checks, the commands it
    runs with their arguments, the temporary file it creates, writes and
    closes, and the lines it prints. *)
Inductive Step :=
| Checked (e : Event)
| Exec (argv : list string)
| TempCreated
| Written (f : File) (data : string)
| Closed (f : File)
| Println (s : Said).

Definition Sh (A : Type) : Type := World → Flow A * World * list Step.

Definition Sh_ret {A} (a : A) : Sh A := λ w, (Go a, w, []).

Definition Sh_bind {A B} (f : A → Sh B) (m : Sh A) : Sh B := λ w,
  match m w with
  | (Go a, w1, t1) => let '(r, w2, t2) := f a w1 in (r, w2, t1 ++ t2)
  | (Halted h, w1, t1) => (Halted h, w1, t1)
  end.

#[global] Instance Sh_MRet : MRet Sh := @Sh_ret.
#[global] Instance Sh_MBind : MBind Sh := @Sh_bind.

Fixpoint forEach {A} (l : list A) (f : A → Sh unit) : Sh unit :=
  match l with
  | [] => mret tt
  | x :: l' => f x ;; forEach l' f
  end.

Definition halt {A} (h : Halt) : Sh A := λ w, (Halted h, w, []).

Definition println (s : Said) : Sh unit := λ w, (Go tt, w, [Println s]).

(** The checks of the clusters, run as part of this command. *)
Definition checked {A} (m : M A) : Sh A := λ w,
  match m w with
  | (Ok a, w1, t) => (Go a, w1, Checked <$> t)
  | (Stop a, w1, t) => (Halted (Ended a), w1, Checked <$> t)
  end.

(** [l[i]] *)
Definition index (l : list string) (i : nat) : Sh string :=
  match l !! i with
  | Some x => mret x
  | None => halt IndexOutOfRange
  end.

(** [exec.Command(args[0], args[1:]...).CombinedOutput()] *)
Definition run (args : list string) : Sh (string * option error) :=
  match args with
  | [] => halt IndexOutOfRange
  | name :: arg => λ w,
      let '(out, err, w') := CombinedOutput (name :: arg) w in
      (Go (out, err), w', [Exec (name :: arg)])
  end.

(** [if err != nil { log.Fatal(err) }] *)
Definition fatalIf (err : option error) : Sh unit :=
  match err with
  | Some e => halt (Ended (LogFatal (Message e)))
  | None => mret tt
  end.

(** [if err != nil { log.Fatalf("%v: %v", err, string(out)) }] *)
Definition fatalfIf (err : option error) (out : string) : Sh unit :=
  match err with
  | Some e => halt (Ended (LogFatal (Message e +:+ ": " +:+ out)))
  | None => mret tt
  end.

(** [if err != nil { return fmt.Errorf("%v: %v", err, string(out)) }] *)
Definition returnIf (err : option error) (out : string) : Sh unit :=
  match err with
  | Some e => halt (Return (fmt.Errorf e out))
  | None => mret tt
  end.

(** [ioutil.TempFile("", "")], with [log.Fatal] on its error, and the
    methods [Write] and [Close] of the file. *)
Definition tempFile : Sh File := λ w,
  let '(r, w') := TempFile w in
  match r with
  | inl err => (Halted (Ended (LogFatal (Message err))), w', [TempCreated])
  | inr t => (Go t, w', [TempCreated])
  end.

Definition write (t : File) (data : string) : Sh (option error) := λ w,
  let '(err, w') := File_Write t data w in (Go err, w', [Written t data]).

Definition close (t : File) : Sh unit := λ w,
  (Go tt, File_Close t w, [Closed t]).

Definition scale (args : Args) (replicas : Z) : Sh (option error) :=
  c1 ← index (clusters args) 1;
  '(out, err) ← run ["kubectl"; "--context=" +:+ c1; "scale"; "deployment";
                     "-n"; "istio-system"; "istio-citadel"; "--replicas";
                     strconv.Itoa replicas];
  match err with
  | Some e => mret (Some (fmt.Errorf e out))
  | None => mret None
  end.

Definition wait (args : Args) : Sh (option error) :=
  c1 ← index (clusters args) 1;
  '(out, err) ← run ["kubectl"; "--context=" +:+ c1; "rollout"; "status";
                     "deployment"; "-n"; "istio-system"; "istio-citadel"];
  match err with
  | Some e => mret (Some (fmt.Errorf e out))
  | None => mret None
  end.

Definition deleteSecret (args : Args) (namespace secret : string)
  : Sh (option error) :=
  c1 ← index (clusters args) 1;
  let args :=
    strings.Split ("kubectl --context=" +:+ c1 +:+ " -n " +:+ namespace
                   +:+ " delete secret " +:+ secret) " " in
  println (SArgs args) ;;
  '(out, err) ← run args;
  match err with
  | Some e => mret (Some (fmt.Errorf e out))
  | None => println (SOut out) ;; mret None
  end.

(** The loop that deletes the secret istio.default, namespace by
    namespace; what the commands answer is not looked at. *)
Definition deleteDefaults (args : Args) (namespaces : list string) : Sh unit :=
  forEach namespaces (λ namespace,
    c1 ← index (clusters args) 1;
    let args :=
      strings.Split ("kubectl --context=" +:+ namespace +:+ " -n " +:+ c1
                     +:+ " delete secret istio.default") " " in
    _ ← run args;
    mret tt).

(** From the scaling down of citadel to the copy of the secret of the
    certificate authority; the names of the namespaces are kept for the
    restart. *)
Definition replace (args : Args) : Sh (list string) :=
  err ← scale args 0;
  fatalIf err ;;
  err ← wait args;
  fatalIf err ;;
  err ← deleteSecret args "istio-system" "istio-ca-secret";
  fatalIf err ;;
  c1 ← index (clusters args) 1;
  let cargs :=
    strings.Split ("kubectl --context=" +:+ c1
                   +:+ " get namespace -o jsonpath='{.items[*].metadata.name}'")
      " " in
  '(out, err) ← run cargs;
  returnIf err out ;;
  let namespaces := strings.Split out " " in
  println (SNS namespaces) ;;
  deleteDefaults args namespaces ;;
  c0 ← index (clusters args) 0;
  let cargs :=
    strings.Split ("kubectl --context=" +:+ c0
                   +:+ " -n istio-system get secret istio-ca-secret -o yaml --export")
      " " in
  '(out, err) ← run cargs;
  returnIf err out ;;
  t ← tempFile;
  err ← write t out;
  fatalIf err ;;
  close t ;;
  println (SSavedTo (File_Name t)) ;;
  c1 ← index (clusters args) 1;
  let cargs :=
    strings.Split ("kubectl --context=" +:+ c1 +:+ " -n istio-system apply -f "
                   +:+ File_Name t +:+ " --validate=false") " " in
  '(out, err) ← run cargs;
  returnIf err out ;;
  mret namespaces.

(** The restart of one deployment, of the deployments of one namespace and
    of all of them. *)
Definition patchDeployment (args : Args) (namespace deployment : string)
  : Sh unit :=
  println (SDeployment deployment) ;;
  c1 ← index (clusters args) 1;
  let cargs :=
    strings.Split ("kubectl --context=" +:+ c1 +:+ " -n " +:+ namespace
                   +:+ " patch " +:+ deployment +:+ " -p " +:+ patch) " " in
  println (SArgs cargs) ;;
  '(out, err) ← run cargs;
  fatalfIf err out ;;
  println (SOut out).

Definition restartNamespace (args : Args) (namespace : string) : Sh unit :=
  println (SNamespace namespace) ;;
  if decide (namespace = "kube-system" ∨ namespace = "kube-public")
  then mret tt
  else
    c1 ← index (clusters args) 1;
    let cargs :=
      strings.Split ("kubectl --context=" +:+ c1 +:+ " -n " +:+ namespace
                     +:+ " get deployment -o=name") " " in
    '(out, err) ← run cargs;
    fatalfIf err out ;;
    forEach (strings.Split out newline) (patchDeployment args namespace).

Definition restart (args : Args) (namespaces : list string) : Sh unit :=
  forEach namespaces (restartNamespace args).

(** The commands after the checks. *)
Definition rotate (args : Args) : Sh unit :=
  namespaces ← replace args;
  err ← scale args 1;
  fatalIf err ;;
  err ← wait args;
  fatalIf err ;;
  restart args namespaces.

(** [RunE] of the join command: [Go tt] is [return nil]. *)
Definition RunE (args : Args) : Sh unit :=
  match GetStartingConfig (kubeconfig args) (context args) with
  | inl err => halt (Return err)
  | inr config =>
      _ ← checked (preflight args config);
      rotate args
  end.

(** *** Observations *)

(** The commands of a run, in order. *)
Definition commands (t : list Step) : list (list string) :=
  omap (λ e, match e with Exec argv => Some argv | _ => None end) t.

Definition scaleArgs (c1 : string) (replicas : Z) : list string :=
  ["kubectl"; "--context=" +:+ c1; "scale"; "deployment"; "-n";
   "istio-system"; "istio-citadel"; "--replicas"; strconv.Itoa replicas].

Definition waitArgs (c1 : string) : list string :=
  ["kubectl"; "--context=" +:+ c1; "rollout"; "status"; "deployment"; "-n";
   "istio-system"; "istio-citadel"].

(** The two arguments that [strings.Split] makes of the patch. *)
Definition patchHead : string :=
  "{" +:+ quote +:+ "spec" +:+ quote +:+ ":{" +:+ quote +:+ "template"
  +:+ quote +:+ ":{" +:+ quote +:+ "metadata" +:+ quote +:+ ":{" +:+ quote
  +:+ "annotations" +:+ quote +:+ ":{" +:+ quote +:+ "date" +:+ quote +:+ ":"
  +:+ quote +:+ "`date".

Definition patchTail : string := "+'%s'`" +:+ quote +:+ "}}}}}".

(** The commands the run may issue for the clusters [c0] and [c1]. *)
Inductive issued (c0 c1 : string) : list string → Prop :=
| issued_scale replicas :
    replicas = 0%Z ∨ replicas = 1%Z →
    issued c0 c1 (scaleArgs c1 replicas)
| issued_wait :
    issued c0 c1 (waitArgs c1)
| issued_delete :
    issued c0 c1
      (strings.Split
         ("kubectl --context=" +:+ c1
          +:+ " -n istio-system delete secret istio-ca-secret") " ")
| issued_namespaces :
    issued c0 c1
      (strings.Split
         ("kubectl --context=" +:+ c1
          +:+ " get namespace -o jsonpath='{.items[*].metadata.name}'") " ")
| issued_default namespace :
    strings.ContainsRune namespace " " = false →
    issued c0 c1
      (strings.Split
         ("kubectl --context=" +:+ namespace +:+ " -n " +:+ c1
          +:+ " delete secret istio.default") " ")
| issued_export :
    issued c0 c1
      (strings.Split
         ("kubectl --context=" +:+ c0
          +:+ " -n istio-system get secret istio-ca-secret -o yaml --export")
         " ")
| issued_apply name :
    issued c0 c1
      (strings.Split
         ("kubectl --context=" +:+ c1 +:+ " -n istio-system apply -f "
          +:+ name +:+ " --validate=false") " ")
| issued_deployments namespace :
    namespace ≠ "kube-system" → namespace ≠ "kube-public" →
    strings.ContainsRune namespace " " = false →
    issued c0 c1
      (strings.Split
         ("kubectl --context=" +:+ c1 +:+ " -n " +:+ namespace
          +:+ " get deployment -o=name") " ")
| issued_patch namespace deployment :
    namespace ≠ "kube-system" → namespace ≠ "kube-public" →
    strings.ContainsRune namespace " " = false →
    issued c0 c1
      (strings.Split
         ("kubectl --context=" +:+ c1 +:+ " -n " +:+ namespace
          +:+ " patch " +:+ deployment +:+ " -p " +:+ patch) " ").


(** Every step of a computation satisfies [P]; a computation halts only
    in the ways [Q] allows. *)
Definition steps {A} (P : Step → Prop) (m : Sh A) : Prop :=
  ∀ w, Forall P (m w).2.

Definition halts {A} (Q : Halt → Prop) (m : Sh A) : Prop :=
  ∀ w h, (m w).1.1 = Halted h → Q h.

(** A computation that goes on does so with a value that satisfies [R]. *)
Definition returns {A} (R : A → Prop) (m : Sh A) : Prop :=
  ∀ w a, (m w).1.1 = Go a → R a.

(** A property of the commands, as a property of the steps. *)
Definition onExec (Q : list string → Prop) (e : Step) : Prop :=
  match e with
  | Exec argv => Q argv
  | _ => True
  end.

(** The ways the command stops that are written in the code: it returns
    an error or calls [log.Fatal]. *)
Definition written (h : Halt) : Prop :=
  match h with
  | Return _ | Ended (LogFatal _) => True
  | _ => False
  end.

Definition fatal (h : Halt) : Prop :=
  match h with
  | Ended (LogFatal _) => True
  | _ => False
  end.

End Join.

End multicluster.

(** A host that answers every command from a script and keeps the clusters
    as they are. *)
Module MemHost.

Definition host (cfg : api.Config)
    (answer : list string → string * option error)
  : Host (K := Mem.kube cfg) :=
  {| File := string;
     CombinedOutput argv w := (answer argv, w);
     TempFile w := (inr "/tmp/001", w);
     File_Write f data w := (None, w);
     File_Close f w := w;
     File_Name f := f |}.

Definition exitStatus1 : error :=
  {| Reason := metav1.StatusReasonUnknown; Message := "exit status 1" |}.

(** Every command succeeds; the cluster has three namespaces and one
    deployment in each. *)
Definition allFine (argv : list string) : string * option error :=
  match argv with
  | [_; _; "get"; "namespace"; _; _] =>
      ("default istio-system kube-system", None)
  | _ :: _ :: "-n" :: _ :: "get" :: "deployment" :: _ =>
      ("deployment.apps/web", None)
  | _ => ("", None)
  end.

(** The namespaces cannot be listed. *)
Definition noListing (argv : list string) : string * option error :=
  match argv with
  | [_; _; "get"; "namespace"; _; _] =>
      ("Unable to connect to the server", Some exitStatus1)
  | _ => allFine argv
  end.

(** Citadel cannot be scaled. *)
Definition noScale (argv : list string) : string * option error :=
  match argv with
  | _ :: _ :: "scale" :: _ =>
      ("deployment not found", Some exitStatus1)
  | _ => allFine argv
  end.

End MemHost.

(** * Properties of the command, for every implementation of [Kube] *)

(** Unfolds the loop body into nested matches on the collaborators'
    answers. *)
Ltac unfold_pair :=
  unfold joinPair, mbind, M_bind, bind, printf, deref, orFatal, log_Fatal,
    stop, getServiceAccount, getSecret, createSecret, patchSecret, mret,
    M_ret, ret.

Section Properties.

Context `{K : Kube}.

(** ** Running a sequence *)

Lemma run_bind {A B} (m : M A) (f : A → M B) w :
  (m ≫= f) w =
    match m w with
    | (Ok a, w1, t1) => let '(r, w2, t2) := f a w1 in (r, w2, t1 ++ t2)
    | (Stop o, w1, t1) => (Stop o, w1, t1)
    end.
Proof. reflexivity. Qed.

Lemma run_ret_bind {A B} (a : A) (f : A → M B) w : (mret a ≫= f) w = f a w.
Proof. rewrite run_bind. simpl. by destruct (f a w) as [[??]?]. Qed.

Lemma bind_inv {A B} (m : M A) (f : A → M B) w r w' t :
  (m ≫= f) w = (r, w', t) →
  (∃ o, m w = (Stop o, w', t) ∧ r = Stop o) ∨
  (∃ a w1 t1 t2,
      m w = (Ok a, w1, t1) ∧ f a w1 = (r, w', t2) ∧ t = t1 ++ t2).
Proof.
  rewrite run_bind. destruct (m w) as [[[a|o] w1] t1].
  - destruct (f a w1) as [[r2 w2] t2] eqn:Hf. intros [= <- <- <-].
    right. by exists a, w1, t1, t2.
  - intros [= <- <- <-]. left. by exists o.
Qed.

Lemma bind_ok_inv {A B} (m : M A) (f : A → M B) w b w' t :
  (m ≫= f) w = (Ok b, w', t) →
  ∃ a w1 t1 t2,
    m w = (Ok a, w1, t1) ∧ f a w1 = (Ok b, w', t2) ∧ t = t1 ++ t2.
Proof. intros [(o & _ & [=])|H]%bind_inv. done. Qed.

Lemma run_forM_cons {A} (x : A) l (f : A → M unit) :
  forM_ (x :: l) f = (f x ≫= λ _, forM_ l f).
Proof. reflexivity. Qed.

Lemma orFatal_ok_inv {A} (r : error + A) w a w' t :
  orFatal r w = (Ok a, w', t) → r = inr a ∧ w' = w ∧ t = [].
Proof. destruct r; intros [=]; by subst. Qed.

(** ** Properties of every event of a computation *)

Lemma traceAll_ret {A} P (a : A) : traceAll P (mret a).
Proof. intros w. constructor. Qed.

Lemma traceAll_stop {A} P o : traceAll P (stop (A:=A) o).
Proof. intros w. constructor. Qed.

Lemma traceAll_bind {A B} P (m : M A) (f : A → M B) :
  traceAll P m → (∀ a, traceAll P (f a)) → traceAll P (m ≫= f).
Proof.
  intros Hm Hf w. rewrite run_bind. specialize (Hm w).
  destruct (m w) as [[[a|o] w1] t1]; [|done].
  specialize (Hf a w1). destruct (f a w1) as [[r2 w2] t2].
  simpl in *. by apply Forall_app.
Qed.

Lemma traceAll_forM_ {A} P (l : list A) (f : A → M unit) :
  (∀ x, x ∈ l → traceAll P (f x)) → traceAll P (forM_ l f).
Proof.
  induction l as [|x l IH]; intros Hf.
  - apply traceAll_ret.
  - rewrite run_forM_cons. apply traceAll_bind.
    + apply Hf. left.
    + intros _. apply IH. intros y Hy. apply Hf. by right.
Qed.

Lemma traceAll_orFatal {A} P (r : error + A) : traceAll P (orFatal r).
Proof. destruct r; intros w; constructor. Qed.

Lemma traceAll_deref {A} P (p : option A) : traceAll P (deref p).
Proof. destruct p; intros w; constructor. Qed.

Lemma traceAll_bind_orFatal {A B} P (r : error + A) (f : A → M B) :
  (∀ a, r = inr a → traceAll P (f a)) → traceAll P (orFatal r ≫= f).
Proof.
  intros Hf. destruct r as [e|a]; [intros w; constructor|].
  intros w. unfold orFatal. rewrite run_ret_bind. by apply Hf.
Qed.

Lemma traceAll_bind_deref {A B} P (p : option A) (f : A → M B) :
  (∀ a, p = Some a → traceAll P (f a)) → traceAll P (deref p ≫= f).
Proof.
  intros Hf. destruct p as [a|]; [|intros w; constructor].
  intros w. unfold deref. rewrite run_ret_bind. by apply Hf.
Qed.

Lemma traceAll_single {A} (P : Event → Prop) (m : M A) e :
  (∀ w, (m w).2 = [e]) → P e → traceAll P m.
Proof. intros Hm He w. rewrite Hm. by repeat constructor. Qed.

Lemma createSecret_trace cs ns s w :
  (createSecret cs ns s w).2 = [Api cs (CCreateSecret ns s)].
Proof.
  unfold createSecret. by destruct (Secrets_Create cs ns s w) as [[??]?].
Qed.

Lemma patchSecret_trace cs ns name pt p w :
  (patchSecret cs ns name pt p w).2 = [Api cs (CPatchSecret ns name pt p)].
Proof.
  unfold patchSecret.
  by destruct (Secrets_Patch cs ns name pt p w) as [[??]?].
Qed.

(** Walks through a computation and leaves one goal per request and per
    printed line; the values obtained on the way stay in the context. *)
Ltac trace_walk :=
  repeat first
    [ apply traceAll_ret
    | apply traceAll_stop
    | apply traceAll_orFatal
    | apply traceAll_deref
    | apply traceAll_bind_orFatal; intros ? ?
    | apply traceAll_bind_deref; intros ? ?
    | apply traceAll_bind; [|intros ?]
    | progress unfold log_Fatal
    | match goal with
      | |- traceAll _ (if ?b then _ else _) => destruct b eqn:?
      | |- traceAll _ (match ?x with _ => _ end) => destruct x eqn:?
      | |- traceAll _ (let '(_, _) := ?x in _) => destruct x eqn:?
      | |- traceAll _ (printf ?l) =>
          apply traceAll_single with (e := Stdout l); [done|]
      | |- traceAll _ (getNamespace ?cs ?n) =>
          apply traceAll_single with (e := Api cs (CGetNamespace n)); [done|]
      | |- traceAll _ (getServiceAccount ?cs ?ns ?n) =>
          apply traceAll_single
            with (e := Api cs (CGetServiceAccount ns n)); [done|]
      | |- traceAll _ (getSecret ?cs ?ns ?n) =>
          apply traceAll_single with (e := Api cs (CGetSecret ns n)); [done|]
      | |- traceAll _ (createSecret ?cs ?ns ?s) =>
          apply traceAll_single with (e := Api cs (CCreateSecret ns s));
          [apply createSecret_trace|]
      | |- traceAll _ (patchSecret ?cs ?ns ?n ?pt ?p) =>
          apply traceAll_single with (e := Api cs (CPatchSecret ns n pt p));
          [apply patchSecret_trace|]
      end ].

Lemma joinPair_events args config dst dstKube src :
  traceAll (pairEvent args src dstKube)
    (joinPair args config dst dstKube src).
Proof.
  unfold joinPair. trace_walk; try done.
  all: try (right; done).
  all: left; split; [done|]; unfold clientFor.
  all: match goal with H : ClientConfig _ _ = _ |- _ => by rewrite H end.
Qed.

Lemma joinPair_payload args config dst dstKube src :
  traceAll (pairPayload src) (joinPair args config dst dstKube src).
Proof.
  unfold joinPair. trace_walk; try done.
  do 3 (split; [done|]). eexists. split; [|eassumption]. by repeat split.
Qed.

(** C10: within the exchange of a directed pair, every request is either a
    get on the client built for the source, or a create or patch on the
    destination's client in the namespace istio-system.  So the source's
    client receives only gets, and every create and patch goes to the
    destination's client, in the control-plane namespace. *)
Theorem exchange_reads_source_writes_destination
    (args : Args) (config : api.Config) (dst src : string)
    (dstKube : Clientset) (w : World) :
  Forall (λ e,
    match e with
    | Stdout _ => True
    | Api cs c =>
        (isGet c = true ∧ clientFor args src = inr cs) ∨
        (isWrite c = true ∧ cs = dstKube ∧
         callNamespace c = "istio-system")
    end) (joinPair args config dst dstKube src w).2.
Proof. apply joinPair_events. Qed.

(** C2: in the exchange of a directed pair, the secret submitted by the
    create has the name istio-mc-<src>, the namespace istio-system and the
    label istio/multiCluster=true, and no data, string data or type; the
    fallback patch submits the encoding of that same object.  The descriptor
    built from the source's CA data and token is in neither. *)
Theorem submitted_secret_has_no_payload
    (args : Args) (config : api.Config) (dst src : string)
    (dstKube : Clientset) (w : World) :
  Forall (λ e,
    match e with
    | Api _ (CCreateSecret ns s) =>
        ns = "istio-system" ∧ onlyNameNamespaceLabel src s
    | Api _ (CPatchSecret ns name pt p) =>
        ns = "istio-system" ∧ name = "istio-mc-" +:+ src ∧
        pt = types.StrategicMergePatchType ∧
        ∃ s, onlyNameNamespaceLabel src s ∧ json_Marshal s = inr p
    | _ => True
    end) (joinPair args config dst dstKube src w).2.
Proof. apply joinPair_payload. Qed.

(** ** Stops of the loop body *)

(** C7: when the pilot service account fetched from the source references
    no secret or more than one, the exchange of the pair ends the process,
    by [log.Fatal] when the destination's server address was found in the
    local configuration (by the panic on it otherwise), the clusters are as
    they were, and no create or patch has been issued. *)
Theorem wrong_secret_count_stops_before_write
    (args : Args) (config : api.Config) (dst src : string)
    (dstKube srcKube : Clientset) (sa : v1.ServiceAccount) (w : World) :
  src ≠ dst →
  clientFor args src = inr srcKube →
  ServiceAccounts_Get srcKube "istio-system" "istio-pilot-service-account" w
    = inr sa →
  length (v1.Secrets sa) ≠ 1 →
  ∃ t,
    joinPair args config dst dstKube src w =
      (Stop (match serverOf config dst with
             | Some _ => LogFatal "<nil>"
             | None => NilPanic
             end), w, t) ∧
    writes t = [].
Proof.
  intros Hne Hsrc Hsa Hlen. unfold clientFor in Hsrc.
  destruct (ClientConfig (kubeconfig args) src) as [|rest] eqn:Hrest; [done|].
  unfold serverOf. unfold_pair. rewrite decide_False by done.
  destruct (api.Contexts config !! dst) as [dctx|]; [|by eexists].
  destruct (api.Clusters config !! api.ctx_Cluster dctx) as [dcl|];
    [|by eexists].
  rewrite Hrest, Hsrc, Hsa.
  destruct (v1.Secrets sa) as [|ref [|ref' refs]]; [by eexists|done|by eexists].
Qed.

(** C8: when the secret fetched from the source has no ca.crt entry, or has
    one but no token entry, the exchange of the pair ends the process by
    [log.Fatalf] with the message "<secret> is missing ca.crt", respectively
    "<secret> is missing token"; the clusters are as they were and no create
    or patch has been issued. *)
Theorem missing_field_stops_before_write
    (args : Args) (config : api.Config) (dst src : string)
    (dstKube srcKube : Clientset) (sa : v1.ServiceAccount)
    (ref : v1.ObjectReference) (pilotSecret : v1.Secret) (w : World) :
  src ≠ dst →
  is_Some (serverOf config dst) →
  clientFor args src = inr srcKube →
  ServiceAccounts_Get srcKube "istio-system" "istio-pilot-service-account" w
    = inr sa →
  v1.Secrets sa = [ref] →
  Secrets_Get srcKube "istio-system" (v1.ref_Name ref) w = inr pilotSecret →
  v1.Data pilotSecret !! "ca.crt" = None ∨
  v1.Data pilotSecret !! "token" = None →
  ∃ t,
    joinPair args config dst dstKube src w =
      (Stop (LogFatal (v1.ref_Name ref +:+
                       match v1.Data pilotSecret !! "ca.crt" with
                       | None => " is missing ca.crt"
                       | Some _ => " is missing token"
                       end)), w, t) ∧
    writes t = [].
Proof.
  intros Hne Hsrv Hsrc Hsa Hrefs Hsec Hmiss. unfold clientFor in Hsrc.
  destruct (ClientConfig (kubeconfig args) src) as [|rest] eqn:Hrest; [done|].
  unfold serverOf in Hsrv. unfold_pair. rewrite decide_False by done.
  destruct (api.Contexts config !! dst) as [dctx|]; [|by destruct Hsrv].
  destruct (api.Clusters config !! api.ctx_Cluster dctx) as [dcl|];
    [|by destruct Hsrv].
  rewrite Hrest, Hsrc, Hsa, Hrefs, Hsec.
  destruct (v1.Data pilotSecret !! "ca.crt") as [caData|]; [|by eexists].
  destruct Hmiss as [|Htok]; [done|]. rewrite Htok. by eexists.
Qed.

(** ** The attempts of a run *)

Lemma attempts_app t1 t2 : attempts (t1 ++ t2) = attempts t1 ++ attempts t2.
Proof. apply omap_app. Qed.

Lemma attempts_cons e t :
  attempts (e :: t) =
    match e with
    | Stdout (LJoining src dst) => (src, dst) :: attempts t
    | _ => attempts t
    end.
Proof. by destruct e as [|[]]. Qed.

Lemma attempts_none t :
  Forall (λ e, ∀ s d, e ≠ Stdout (LJoining s d)) t → attempts t = [].
Proof.
  induction 1 as [|e t He _ IH]; [done|].
  rewrite attempts_cons, IH.
  destruct e as [|[]]; try done. by destruct (He src dst).
Qed.

Lemma attempts_after_joining (m : M unit) src dst w :
  traceAll (λ e, ∀ s d, e ≠ Stdout (LJoining s d)) m →
  attempts ((printf (LJoining src dst) ≫= λ _, m) w).2 = [(src, dst)].
Proof.
  intros Hm. rewrite run_bind. specialize (Hm w).
  unfold printf. destruct (m w) as [[r w2] t2]. cbn [snd app] in *.
  rewrite attempts_cons.
  f_equal. by apply attempts_none.
Qed.

Lemma joinPair_attempts args config dst dstKube src w :
  attempts (joinPair args config dst dstKube src w).2 =
    if decide (src = dst) then [] else [(src, dst)].
Proof.
  unfold joinPair. destruct (decide (src = dst)); [done|].
  apply attempts_after_joining. trace_walk; done.
Qed.

Lemma forM__ok_attempts {A} (l : list A) (f : A → M unit) g w w' t :
  (∀ x w w' t, f x w = (Ok tt, w', t) → attempts t = g x) →
  forM_ l f w = (Ok tt, w', t) → attempts t = l ≫= g.
Proof.
  intros Hf. revert w t. induction l as [|x l IH]; intros w t.
  - by intros [= <- <-].
  - rewrite run_forM_cons.
    intros ([] & w1 & t1 & t2 & H1 & H2 & ->)%bind_ok_inv.
    rewrite attempts_app. simpl. f_equal; eauto.
Qed.

Lemma joinClusters_ok_attempts args config w w' t :
  joinClusters args config w = (Ok tt, w', t) →
  attempts t = orderedPairs (clusters args).
Proof.
  apply forM__ok_attempts. clear. intros dst w w' t.
  intros (rest & ? & ? & t2 & (_ & -> & ->)%orFatal_ok_inv & H & ->)%bind_ok_inv.
  apply bind_ok_inv in H
    as (dstKube & ? & ? & t3 & (_ & -> & ->)%orFatal_ok_inv & H & ->).
  simpl. revert H. apply forM__ok_attempts. clear. intros src w w' t H.
  by rewrite <-(joinPair_attempts args config dst dstKube src w), H.
Qed.

Lemma pairsInto_cons x l dst :
  pairsInto (x :: l) dst =
    (if decide (x = dst) then [] else [(x, dst)]) ++ pairsInto l dst.
Proof. reflexivity. Qed.

Lemma pairsInto_length_fresh l dst :
  dst ∉ l → length (pairsInto l dst) = length l.
Proof.
  induction l as [|x l IH]; [done|].
  intros [Hx Hl]%not_elem_of_cons. rewrite pairsInto_cons.
  rewrite decide_False by done. simpl. by rewrite IH.
Qed.

Lemma pairsInto_length l dst :
  NoDup l → dst ∈ l → length (pairsInto l dst) = length l - 1.
Proof.
  induction 1 as [|x l Hx Hl IH]; [by intros ?%elem_of_nil|].
  rewrite pairsInto_cons. intros [->|Hd]%elem_of_cons.
  - rewrite decide_True by done. simpl.
    rewrite Nat.sub_0_r. by apply pairsInto_length_fresh.
  - rewrite decide_False by (by intros <-). simpl. rewrite IH by done.
    destruct l; [by apply elem_of_nil in Hd|simpl; lia].
Qed.

Lemma orderedPairs_length l :
  NoDup l → length (orderedPairs l) = length l * (length l - 1).
Proof.
  intros Hl. unfold orderedPairs.
  assert (∀ l0, l0 ⊆ l →
            length (l0 ≫= pairsInto l) = length l0 * (length l - 1)) as H.
  { induction l0 as [|d l0 IH]; [done|]. intros Hsub.
    rewrite bind_cons, length_app, IH, pairsInto_length; [simpl; lia|done| |];
      set_solver. }
  by apply H.
Qed.

Lemma elem_of_orderedPairs l src dst :
  (src, dst) ∈ orderedPairs l ↔ src ∈ l ∧ dst ∈ l ∧ src ≠ dst.
Proof.
  unfold orderedPairs, pairsInto. rewrite list_elem_of_bind. split.
  - intros (d & (s & Hin & Hs)%list_elem_of_bind & Hd).
    destruct (decide (s = d)); [by apply elem_of_nil in Hin|].
    apply list_elem_of_singleton in Hin as [= -> ->]. done.
  - intros (Hs & Hd & Hne). exists dst. split; [|done].
    apply list_elem_of_bind. exists src. split; [|done].
    rewrite decide_False by done. by apply list_elem_of_singleton.
Qed.

Lemma joinBody_run args config w :
  joinBody args config w = joinClusters args config w.
Proof. exact (run_ret_bind tt (λ _, joinClusters args config) w). Qed.

(** C5 (as amended): when the identifiers are pairwise distinct and the
    command returns nil, the exchanges attempted are exactly the ordered
    pairs (src, dst) of distinct identifiers, in loop order, N×(N−1) of
    them for N identifiers. *)
Theorem attempts_of_completed_join
    (args : Args) (w w' : World) (t : list Event) :
  NoDup (clusters args) →
  RunE args w = (ReturnNil, w', t) →
  attempts t = orderedPairs (clusters args) ∧
  length (attempts t) =
    length (clusters args) * (length (clusters args) - 1) ∧
  (length (clusters args) = 2 → length (attempts t) = 2) ∧
  ∀ src dst,
    (src, dst) ∈ attempts t ↔
    src ∈ clusters args ∧ dst ∈ clusters args ∧ src ≠ dst.
Proof.
  intros Hnd. unfold RunE.
  destruct (GetStartingConfig _ _) as [|config]; [done|].
  rewrite joinBody_run.
  destruct (joinClusters args config w) as [[[[]|o] w1] t1] eqn:Hrun;
    simpl; intros [= ??]; subst.
  apply joinClusters_ok_attempts in Hrun as ->.
  pose proof (orderedPairs_length _ Hnd) as Hlen.
  split_and!; [done|done| |].
  - intros H2. by rewrite Hlen, H2.
  - apply elem_of_orderedPairs.
Qed.

(** ** How the loops end the process *)

Lemma stopsIn_bind {A B} P (m : M A) (f : A → M B) :
  stopsIn P m → (∀ a, stopsIn P (f a)) → stopsIn P (m ≫= f).
Proof.
  intros Hm Hf w a w' t [(o & Hs & [= ->])|(x & w1 & t1 & t2 & _ & Hs & _)]%bind_inv.
  - by eapply Hm.
  - by eapply Hf.
Qed.

Lemma stopsIn_forM_ {A} P (l : list A) (f : A → M unit) :
  (∀ x, stopsIn P (f x)) → stopsIn P (forM_ l f).
Proof.
  intros Hf. induction l as [|x l IH]; [by intros ???? [=]|].
  rewrite run_forM_cons. by apply stopsIn_bind.
Qed.

Lemma stopsIn_never {A} P (m : M A) :
  (∀ w, ∃ a w' t, m w = (Ok a, w', t)) → stopsIn P m.
Proof. intros Hm w a w' t Hs. destruct (Hm w) as (?&?&?&?). congruence. Qed.

Lemma stopsIn_orFatal {A} (r : error + A) : stopsIn fatalOrPanic (orFatal r).
Proof. destruct r; intros ???? [= <-]. right. by eexists. Qed.

Lemma stopsIn_deref {A} (p : option A) : stopsIn fatalOrPanic (deref p).
Proof. destruct p; intros ???? [= <-]. by left. Qed.

Lemma createSecret_ok cs ns s w :
  ∃ a w' t, createSecret cs ns s w = (Ok a, w', t).
Proof.
  unfold createSecret. destruct (Secrets_Create cs ns s w) as [[??]?]. eauto.
Qed.

Lemma patchSecret_ok cs ns name pt p w :
  ∃ a w' t, patchSecret cs ns name pt p w = (Ok a, w', t).
Proof.
  unfold patchSecret. destruct (Secrets_Patch cs ns name pt p w) as [[??]?].
  eauto.
Qed.

Lemma joinPair_stops args config dst dstKube src :
  stopsIn fatalOrPanic (joinPair args config dst dstKube src).
Proof.
  unfold joinPair, log_Fatal.
  repeat first
    [ apply stopsIn_orFatal
    | apply stopsIn_deref
    | apply stopsIn_bind; [|intros ?]
    | apply stopsIn_never; intros ?;
      first [apply createSecret_ok | apply patchSecret_ok | by eexists _, _, _]
    | match goal with
      | |- stopsIn _ (if ?b then _ else _) => destruct b
      | |- stopsIn _ (match ?x with _ => _ end) => destruct x
      | |- stopsIn _ (stop _) => intros ???? [= <-]; right; by eexists
      end ].
Qed.

Lemma joinClusters_stops args config :
  stopsIn fatalOrPanic (joinClusters args config).
Proof.
  apply stopsIn_forM_. intros dst.
  apply stopsIn_bind; [apply stopsIn_orFatal|intros rest].
  apply stopsIn_bind; [apply stopsIn_orFatal|intros dstKube].
  apply stopsIn_forM_. intros src. apply joinPair_stops.
Qed.

Lemma mustStop_bind_l {A B} (m : M A) (f : A → M B) :
  mustStop m → mustStop (m ≫= f).
Proof.
  intros Hm w. destruct (Hm w) as (a & w' & t & Hs).
  rewrite run_bind, Hs. eauto.
Qed.

Lemma mustStop_bind_r {A B} (m : M A) (f : A → M B) :
  (∀ a, mustStop (f a)) → mustStop (m ≫= f).
Proof.
  intros Hf w. rewrite run_bind. destruct (m w) as [[[a|o] w1] t1]; [|eauto].
  destruct (Hf a w1) as (o & w' & t & ->). eauto.
Qed.

Lemma mustStop_forM_ {A} (l : list A) (f : A → M unit) x :
  x ∈ l → mustStop (f x) → mustStop (forM_ l f).
Proof.
  intros Hx Hs. induction l as [|y l IH]; [by apply elem_of_nil in Hx|].
  rewrite run_forM_cons. apply elem_of_cons in Hx as [<-|Hx].
  - by apply mustStop_bind_l.
  - apply mustStop_bind_r. intros _. by apply IH.
Qed.

Lemma joinPair_missing_dst_context args config dst dstKube src :
  src ≠ dst → api.Contexts config !! dst = None →
  mustStop (joinPair args config dst dstKube src).
Proof.
  intros Hne Hctx w. unfold_pair. rewrite decide_False by done.
  rewrite Hctx. eauto.
Qed.

Lemma joinClusters_missing_context args config c :
  c ∈ clusters args →
  api.Contexts config !! c = None →
  (∃ x, x ∈ clusters args ∧ x ≠ c) ∨
  (∃ err, ClientConfig (kubeconfig args) c = inl err) →
  mustStop (joinClusters args config).
Proof.
  intros Hc Hctx Hwhy. apply mustStop_forM_ with c; [done|].
  destruct Hwhy as [(x & Hx & Hne)|[err Herr]].
  - do 2 (apply mustStop_bind_r; intros ?).
    apply mustStop_forM_ with x; [done|].
    by apply joinPair_missing_dst_context.
  - apply mustStop_bind_l. rewrite Herr. intros w. by eexists _, _, _.
Qed.

Lemma joinClusters_two_no_call args config c err x y w :
  clusters args = [x; y] →
  c ∈ clusters args →
  ClientConfig (kubeconfig args) c = inl err →
  (joinClusters args config w).1.2 = w ∧
  calls (joinClusters args config w).2 = [].
Proof.
  intros Hcl Hc Herr. unfold joinClusters. rewrite Hcl in *.
  assert (c = x ∨ (x ≠ y ∧ c = y)) as [->|[Hne ->]].
  { apply elem_of_cons in Hc as [->|Hc]; [by left|].
    apply list_elem_of_singleton in Hc as ->.
    destruct (decide (x = y)) as [->|]; auto. }
  - unfold forM_. unfold_pair. by rewrite Herr.
  - unfold forM_. unfold_pair. rewrite Herr.
    destruct (decide (x = x)) as [_|]; [|done].
    destruct (decide (y = x)) as [|_]; [by subst|].
    destruct (ClientConfig (kubeconfig args) x) as [|rest]; [done|].
    destruct (NewForConfig rest) as [|dstKube]; [done|].
    destruct (api.Contexts config !! x) as [dctx|]; [|done].
    by destruct (api.Clusters config !! api.ctx_Cluster dctx).
Qed.

Lemma joinClusters_no_lookup_diagnostic args config :
  traceAll (λ e, ∀ cluster, e ≠ Stdout (LConfigNotFound cluster))
    (joinClusters args config).
Proof.
  apply traceAll_forM_. intros dst _. trace_walk.
  apply traceAll_forM_. intros src _. unfold joinPair. trace_walk; done.
Qed.

Lemma joinPair_self args config dst dstKube :
  joinPair args config dst dstKube dst = mret tt.
Proof. unfold joinPair. by rewrite decide_True. Qed.

Lemma joinPair_missing_dst_run args config dst dstKube src w :
  src ≠ dst → api.Contexts config !! dst = None →
  joinPair args config dst dstKube src w
  = (Stop NilPanic, w, [Stdout (LJoining src dst)]).
Proof.
  intros Hne Hctx. unfold_pair. rewrite decide_False by done.
  by rewrite Hctx.
Qed.

(** The inner loop passes over the identifiers equal to the destination. *)
Lemma forM__skips_self args config dst dstKube same l w :
  Forall (λ y, y = dst) same →
  forM_ (same ++ l) (joinPair args config dst dstKube) w
  = forM_ l (joinPair args config dst dstKube) w.
Proof.
  induction 1 as [|y same -> _ IH]; [done|].
  simpl app. by rewrite run_forM_cons, joinPair_self, run_ret_bind.
Qed.

(** C4 (as amended): the check of the identifiers against the local
    configuration is part of the disabled block, and the exchange path
    never prints the "configuration not found" line.  A supplied identifier
    [c] that the configuration's contexts do not hold ends the run, by
    [log.Fatal] (status 1) or by a nil-pointer panic (status 2), when
    another identifier is supplied with it or the client for [c] cannot be
    built; what ends the run is the first fatal condition in loop order.
    When [c] is the first identifier: if its client cannot be built, the
    run ends by [log.Fatal] with the text of that error before any output
    or request; if its client is built and an identifier different from
    [c] is supplied with it, the run ends by the panic on
    [config.Contexts[c]] right after the joining line of the first such
    identifier, before any request.  When the client for
    [c] cannot be built and exactly two identifiers are supplied, no request
    has been sent to any cluster and the clusters are as they were. *)
Theorem missing_context_stops_join
    (args : Args) (config : api.Config) (c : string) (w : World) :
  GetStartingConfig (kubeconfig args) (context args) = inr config →
  c ∈ clusters args →
  api.Contexts config !! c = None →
  (∀ cluster, Stdout (LConfigNotFound cluster) ∉ (RunE args w).2) ∧
  ((∃ x, x ∈ clusters args ∧ x ≠ c) ∨
   (∃ err, ClientConfig (kubeconfig args) c = inl err) →
   ∃ a, (RunE args w).1.1 = Aborted a ∧ fatalOrPanic a ∧
        (exit_status (Aborted a) = Some 1%Z ∨
         exit_status (Aborted a) = Some 2%Z)) ∧
  (∀ rest err,
     clusters args = c :: rest →
     clientFor args c = inl err →
     RunE args w = (Aborted (LogFatal (Message err)), w, [])) ∧
  (∀ same x rest dstKube,
     clusters args = c :: same ++ x :: rest →
     Forall (λ y, y = c) same →
     x ≠ c →
     clientFor args c = inr dstKube →
     RunE args w = (Aborted NilPanic, w, [Stdout (LJoining x c)])) ∧
  ((∃ err, ClientConfig (kubeconfig args) c = inl err) →
   length (clusters args) = 2 →
   (RunE args w).1.2 = w ∧ calls (RunE args w).2 = []).
Proof.
  intros Hcfg Hc Hctx. unfold RunE. rewrite Hcfg, joinBody_run. split_and!.
  - intros cluster Hin.
    pose proof (joinClusters_no_lookup_diagnostic args config w) as Hall.
    destruct (joinClusters args config w) as [[[[]|a] w1] t1]; simpl in *;
      rewrite Forall_forall in Hall; by eapply Hall.
  - intros Hwhy.
    destruct (joinClusters_missing_context args config c Hc Hctx Hwhy w)
      as (a & w' & t & Hrun).
    rewrite Hrun. exists a. simpl.
    pose proof (joinClusters_stops _ _ _ _ _ _ Hrun) as Ha.
    split_and!; [done|done|]. destruct Ha as [->|[msg ->]]; auto.
  - intros rest err Hcl Herr. unfold joinClusters. rewrite Hcl.
    unfold clientFor in Herr. unfold forM_ at 1. unfold_pair.
    destruct (ClientConfig (kubeconfig args) c) as [e|r] eqn:Hrest.
    + by injection Herr as ->.
    + by rewrite Herr.
  - intros same x rest dstKube Hcl Hsame Hne Hk. unfold joinClusters.
    unfold clientFor in Hk.
    destruct (ClientConfig (kubeconfig args) c) as [|r] eqn:Hrest; [done|].
    rewrite Hcl, run_forM_cons, run_bind. cbv beta.
    rewrite Hrest. change (orFatal (inr r)) with (mret (M:=M) r).
    rewrite run_ret_bind, Hk.
    change (orFatal (inr dstKube)) with (mret (M:=M) dstKube).
    rewrite run_ret_bind, run_forM_cons, joinPair_self, run_ret_bind.
    rewrite forM__skips_self by done.
    rewrite run_forM_cons, run_bind.
    by rewrite (joinPair_missing_dst_run _ _ _ _ _ _ Hne Hctx).
  - intros [err Herr] Hlen.
    destruct (clusters args) as [|x [|y [|z l]]] eqn:Hcl; try done.
    destruct (joinClusters_two_no_call args config c err x y w)
      as [Hw Hcalls]; [done|by rewrite Hcl|done|].
    by destruct (joinClusters args config w) as [[[[]|a] w1] t1].
Qed.

Lemma legacyChecks_wrong_count args config w :
  length (clusters args) ≠ 2 →
  legacyChecks args config w =
    (Stop (OsExit 1), w, [Stdout (LOnlyTwo (length (clusters args)))]).
Proof.
  intros Hlen. unfold legacyChecks. rewrite decide_False by done. done.
Qed.

Lemma joinClusters_no_count_diagnostic args config :
  traceAll (λ e, ∀ n, e ≠ Stdout (LOnlyTwo n)) (joinClusters args config).
Proof.
  apply traceAll_forM_. intros dst _. trace_walk.
  apply traceAll_forM_. intros src _. unfold joinPair. trace_walk; done.
Qed.

(** C3 (as amended): the two-cluster check stands at the head of the
    disabled block, so the command does not check the number of
    identifiers.  Whatever their number, the run is the run of the exchange
    loops and never prints the "only two clusters supported" line; with no
    identifier at all it returns nil at once.  The check itself, were it
    run on a list whose length is not 2, prints that line and exits with
    status 1 before any request. *)
Theorem join_does_not_check_cluster_count (args : Args) (w : World) :
  RunE args w =
    match GetStartingConfig (kubeconfig args) (context args) with
    | inl err => (ReturnErr err, w, [])
    | inr config => finish (joinClusters args config w)
    end ∧
  (∀ n, Stdout (LOnlyTwo n) ∉ (RunE args w).2) ∧
  (∀ config,
     GetStartingConfig (kubeconfig args) (context args) = inr config →
     clusters args = [] → RunE args w = (ReturnNil, w, [])) ∧
  (∀ config,
     length (clusters args) ≠ 2 →
     legacyChecks args config w =
       (Stop (OsExit 1), w, [Stdout (LOnlyTwo (length (clusters args)))])).
Proof.
  unfold RunE. split_and!.
  - destruct (GetStartingConfig _ _); [done|]. by rewrite joinBody_run.
  - intros n Hin.
    destruct (GetStartingConfig _ _) as [|config];
      [by apply elem_of_nil in Hin|].
    rewrite joinBody_run in Hin.
    pose proof (joinClusters_no_count_diagnostic args config w) as Hall.
    destruct (joinClusters args config w) as [[[[]|a] w1] t1]; simpl in *;
      rewrite Forall_forall in Hall; by eapply Hall.
  - intros config -> Hnil. rewrite joinBody_run. unfold joinClusters.
    by rewrite Hnil.
  - intros config. apply legacyChecks_wrong_count.
Qed.

End Properties.

(** * Invariants of the loops *)

Section Invariants.

Context `{K : Kube}.
Context (R : World → World → Prop) `{!PreOrder R}.

Lemma preserves_same {A} (m : M A) :
  (∀ w, (m w).1.2 = w) → preserves R m.
Proof. intros Hm w. by rewrite Hm. Qed.

Lemma preserves_bind {A B} (m : M A) (f : A → M B) :
  preserves R m → (∀ a, preserves R (f a)) → preserves R (m ≫= f).
Proof.
  intros Hm Hf w. rewrite run_bind. specialize (Hm w).
  destruct (m w) as [[[a|o] w1] t1]; [|done].
  specialize (Hf a w1). destruct (f a w1) as [[r2 w2] t2].
  simpl in *. by etrans.
Qed.

Lemma preserves_forM_ {A} (l : list A) (f : A → M unit) :
  (∀ x, preserves R (f x)) → preserves R (forM_ l f).
Proof.
  intros Hf. induction l as [|x l IH]; [by apply preserves_same|].
  rewrite run_forM_cons. by apply preserves_bind.
Qed.

(** What each iteration establishes when it completes, and what later
    iterations cannot undo, holds for every element once the loop has
    completed. *)
Lemma forM__establish {A} (I : World → Prop) (P : A → World → Prop)
    (l : list A) (f : A → M unit) w w' t :
  (∀ x, preserves R (f x)) →
  (∀ w w', I w → R w w' → I w') →
  (∀ x w w', P x w → R w w' → P x w') →
  (∀ x w w' t, x ∈ l → I w → f x w = (Ok tt, w', t) → P x w') →
  I w →
  forM_ l f w = (Ok tt, w', t) →
  ∀ x, x ∈ l → P x w'.
Proof.
  intros Hpres HI HP. revert w t.
  induction l as [|y l IH]; intros w t Hstep Hw Hrun x Hx;
    [by apply elem_of_nil in Hx|].
  rewrite run_forM_cons in Hrun.
  apply bind_ok_inv in Hrun as ([] & w1 & t1 & t2 & Hy & Hrest & ->).
  assert (R w w1) as Hww1. { specialize (Hpres y w). by rewrite Hy in Hpres. }
  assert (R w1 w') as Hw1w'.
  { pose proof (preserves_forM_ l f Hpres w1) as H. by rewrite Hrest in H. }
  apply elem_of_cons in Hx as [->|Hx].
  - eapply HP; [|exact Hw1w']. eapply Hstep; [left|done|done].
  - eapply IH; [|by eapply HI|done|done].
    intros ?????. apply Hstep. by right.
Qed.

Lemma preserves_orFatal {A} (r : error + A) : preserves R (orFatal r).
Proof. by destruct r; apply preserves_same. Qed.

Lemma preserves_deref {A} (p : option A) : preserves R (deref p).
Proof. by destruct p; apply preserves_same. Qed.

Lemma preserves_bind_orFatal {A B} (r : error + A) (f : A → M B) :
  (∀ a, r = inr a → preserves R (f a)) → preserves R (orFatal r ≫= f).
Proof.
  intros Hf. destruct r as [e|a]; [by apply preserves_same|].
  intros w. unfold orFatal. rewrite run_ret_bind. by apply Hf.
Qed.

(** The loop body changes the clusters only through its create and its
    patch of [srcSecret]. *)
Lemma joinPair_preserves args config dst dstKube src :
  (∀ ns s, preserves R (createSecret dstKube ns s)) →
  (∀ ns n pt p,
     json_Marshal (srcSecret src "istio-system") = inr p →
     preserves R (patchSecret dstKube ns n pt p)) →
  preserves R (joinPair args config dst dstKube src).
Proof.
  intros Hcreate Hpatch. unfold joinPair, log_Fatal.
  repeat first
    [ apply preserves_orFatal
    | apply preserves_deref
    | apply Hcreate
    | by apply Hpatch
    | apply preserves_bind_orFatal; intros ? ?
    | apply preserves_bind; [|intros ?]
    | match goal with
      | |- preserves _ (if ?b then _ else _) => destruct b
      | |- preserves _ (match ?x with _ => _ end) => destruct x
      end
    | by apply preserves_same ].
Qed.

End Invariants.

Section Reruns.

Context `{K : Kube}.

(** A loop whose iterations all complete and leave the clusters as they
    are does so as a whole; its observations are those of the iterations,
    in order. *)
Lemma forM__fixed {A B} (h : list Event → list B) (Q : Event → Prop)
    (g : A → list B) (l : list A) (f : A → M unit) w :
  h [] = [] →
  (∀ t1 t2, h (t1 ++ t2) = h t1 ++ h t2) →
  (∀ x, x ∈ l → ∃ t, f x w = (Ok tt, w, t) ∧ h t = g x ∧ Forall Q t) →
  ∃ t, forM_ l f w = (Ok tt, w, t) ∧ h t = l ≫= g ∧ Forall Q t.
Proof.
  intros Hnil Happ. induction l as [|x l IH]; intros Hf.
  - exists []. by repeat split.
  - destruct (Hf x) as (t1 & H1 & Hh1 & HQ1); [left|].
    destruct IH as (t2 & H2 & Hh2 & HQ2).
    { intros y Hy. apply Hf. by right. }
    exists (t1 ++ t2). rewrite run_forM_cons, run_bind, H1, H2.
    split; [done|]. rewrite Happ, Hh1, Hh2, Forall_app. done.
Qed.

(** What a completed exchange of a pair has gone through. *)
Lemma joinPair_ok_inv args config dst dstKube src w w' t :
  src ≠ dst →
  joinPair args config dst dstKube src w = (Ok tt, w', t) →
  ∃ srcKube sa ref pilotSecret result err w1,
    is_Some (serverOf config dst) ∧
    clientFor args src = inr srcKube ∧
    ServiceAccounts_Get srcKube "istio-system" "istio-pilot-service-account" w
      = inr sa ∧
    v1.Secrets sa = [ref] ∧
    Secrets_Get srcKube "istio-system" (v1.ref_Name ref) w
      = inr pilotSecret ∧
    is_Some (v1.Data pilotSecret !! "ca.crt") ∧
    is_Some (v1.Data pilotSecret !! "token") ∧
    Secrets_Create dstKube "istio-system" (srcSecret src "istio-system") w
      = (result, err, w1) ∧
    if errors.IsAlreadyExists err
    then ∃ p res err',
           json_Marshal (srcSecret src "istio-system") = inr p ∧
           Secrets_Patch dstKube "istio-system" ("istio-mc-" +:+ src)
             types.StrategicMergePatchType p w1 = (res, err', w')
    else w' = w1.
Proof.
  intros Hne. unfold serverOf, clientFor. unfold_pair.
  rewrite decide_False by done.
  destruct (api.Contexts config !! dst) as [dctx|]; [|done].
  destruct (api.Clusters config !! api.ctx_Cluster dctx) as [dcl|]; [|done].
  destruct (ClientConfig (kubeconfig args) src) as [|rest]; [done|].
  destruct (NewForConfig rest) as [|srcKube]; [done|].
  destruct (ServiceAccounts_Get srcKube _ _ w) as [|sa] eqn:Hsa; [done|].
  destruct (v1.Secrets sa) as [|ref [|??]] eqn:Hrefs; [done| |done].
  destruct (Secrets_Get srcKube _ _ w) as [|ps] eqn:Hps; [done|].
  destruct (v1.Data ps !! "ca.crt") as [ca|] eqn:Hca; [|done].
  destruct (v1.Data ps !! "token") as [tk|] eqn:Htk; [|done].
  destruct (Secrets_Create dstKube _ _ w) as [[result err] w1] eqn:Hcr.
  destruct (errors.IsAlreadyExists err) eqn:Hex.
  - destruct (json_Marshal _) as [|p] eqn:Hp; [done|].
    destruct (Secrets_Patch dstKube _ _ _ p w1) as [[res err'] w2] eqn:Hpa.
    intros [= <- <-].
    exists srcKube, sa, ref, ps, result, err, w1. rewrite Hex.
    split_and!; eauto.
  - intros [= <- <-].
    exists srcKube, sa, ref, ps, result, err, w1. rewrite Hex.
    split_and!; eauto.
Qed.

(** The exchange of a pair whose create is refused with AlreadyExists and
    whose patch goes through. *)
Lemma joinPair_patch_run args config dst dstKube src w
    srcKube sa ref pilotSecret result err w1 p res w' :
  src ≠ dst →
  is_Some (serverOf config dst) →
  clientFor args src = inr srcKube →
  ServiceAccounts_Get srcKube "istio-system" "istio-pilot-service-account" w
    = inr sa →
  v1.Secrets sa = [ref] →
  Secrets_Get srcKube "istio-system" (v1.ref_Name ref) w = inr pilotSecret →
  is_Some (v1.Data pilotSecret !! "ca.crt") →
  is_Some (v1.Data pilotSecret !! "token") →
  Secrets_Create dstKube "istio-system" (srcSecret src "istio-system") w
    = (result, Some err, w1) →
  Reason err = metav1.StatusReasonAlreadyExists →
  json_Marshal (srcSecret src "istio-system") = inr p →
  Secrets_Patch dstKube "istio-system" ("istio-mc-" +:+ src)
    types.StrategicMergePatchType p w1 = (res, None, w') →
  joinPair args config dst dstKube src w =
    (Ok tt, w',
     [Stdout (LJoining src dst);
      Api srcKube
        (CGetServiceAccount "istio-system" "istio-pilot-service-account");
      Api srcKube (CGetSecret "istio-system" (v1.ref_Name ref));
      Api dstKube
        (CCreateSecret "istio-system" (srcSecret src "istio-system"));
      Stdout (LSecretExists result);
      Api dstKube
        (CPatchSecret "istio-system" ("istio-mc-" +:+ src)
           types.StrategicMergePatchType p);
      Stdout (LPatchErr None);
      Stdout (LPatchResult res)]).
Proof.
  intros Hne Hsrv Hsrc Hsa Hrefs Hps [ca Hca] [tk Htk] Hcr Hex Hp Hpa.
  unfold serverOf, clientFor in *. unfold_pair.
  rewrite decide_False by done.
  destruct (api.Contexts config !! dst) as [dctx|]; [|by destruct Hsrv].
  destruct (api.Clusters config !! api.ctx_Cluster dctx) as [dcl|];
    [|by destruct Hsrv].
  destruct (ClientConfig (kubeconfig args) src) as [|rest]; [done|].
  rewrite Hsrc, Hsa, Hrefs, Hps, Hca, Htk, Hcr.
  unfold errors.IsAlreadyExists. rewrite bool_decide_eq_true_2 by done.
  rewrite Hp.
  change (v1.Name (srcSecret src "istio-system")) with ("istio-mc-" +:+ src).
  by rewrite Hpa.
Qed.

Lemma run_orFatal_bind {A B} (r : error + A) a (f : A → M B) w :
  r = inr a → (orFatal r ≫= f) w = f a w.
Proof. intros ->. apply run_ret_bind. Qed.

Lemma writes_app (t1 t2 : list Event) :
  writes (t1 ++ t2) = writes t1 ++ writes t2.
Proof. apply List.filter_app. Qed.

End Reruns.

(** * The command on the in-memory API server *)

Section InMemory.

Context (cfg : api.Config).

Local Abbreviation K := (Mem.kube cfg).

#[local] Arguments srcSecret : simpl never.
#[local] Arguments Mem.merge : simpl never.

Lemma secretLe_refl s : Mem.secretLe s s.
Proof. by split. Qed.

Lemma secretLe_trans s1 s2 s3 :
  Mem.secretLe s1 s2 → Mem.secretLe s2 s3 → Mem.secretLe s1 s3.
Proof. intros [Hd1 Hl1] [Hd2 Hl2]. split; [congruence|auto]. Qed.

Lemma clusterLe_refl c : Mem.clusterLe c c.
Proof.
  split_and!; try done. intros k s Hs. exists s. split; [done|].
  apply secretLe_refl.
Qed.

Lemma clusterLe_trans c1 c2 c3 :
  Mem.clusterLe c1 c2 → Mem.clusterLe c2 c3 → Mem.clusterLe c1 c3.
Proof.
  intros (Ha1 & Hc1 & Hp1 & Hs1) (Ha2 & Hc2 & Hp2 & Hs2).
  split_and!; try congruence. intros k s Hs.
  destruct (Hs1 k s Hs) as (s' & Hs' & Hle1).
  destruct (Hs2 k s' Hs') as (s'' & Hs'' & Hle2).
  exists s''. split; [done|]. by eapply secretLe_trans.
Qed.

#[local] Instance grows_preorder : PreOrder Mem.grows.
Proof.
  split.
  - intros w h. destruct (w !! h); constructor. apply clusterLe_refl.
  - intros w1 w2 w3 H12 H23 h. specialize (H12 h). specialize (H23 h).
    destruct H12; inversion H23; subst; constructor.
    by eapply clusterLe_trans.
Qed.

Lemma grows_insert w h c c' :
  w !! h = Some c → Mem.clusterLe c c' → Mem.grows w (<[h := c']> w).
Proof.
  intros Hh Hle h'. destruct (decide (h = h')) as [<-|Hne].
  - rewrite lookup_insert_eq, Hh. by constructor.
  - rewrite lookup_insert_ne by done. destruct (w !! h'); constructor.
    apply clusterLe_refl.
Qed.

Lemma clusterLe_put c k s :
  (∀ old, Mem.secrets c !! k = Some old → Mem.secretLe old s) →
  Mem.clusterLe c (Mem.withSecrets c (<[k := s]> (Mem.secrets c))).
Proof.
  intros Hold. split_and!; try done. intros k' s' Hs'. simpl.
  destruct (decide (k = k')) as [<-|Hne].
  - rewrite lookup_insert_eq. exists s. split; [done|]. by apply Hold.
  - rewrite lookup_insert_ne by done. exists s'. split; [done|].
    apply secretLe_refl.
Qed.

Lemma createSecret_grows h ns s w :
  Mem.grows w (Mem.createSecret h ns s w).2.
Proof.
  unfold Mem.createSecret.
  destruct (w !! h) as [c|] eqn:Hh; [|reflexivity].
  destruct (Mem.createDenied c); [reflexivity|].
  destruct (Mem.secrets c !! (ns, v1.Name s)) eqn:Hs; [reflexivity|].
  simpl. eapply grows_insert; [done|]. apply clusterLe_put.
  intros old Hold. congruence.
Qed.

Lemma merge_srcSecret_le src ns old :
  Mem.secretLe old (Mem.merge (srcSecret src ns) old).
Proof.
  split; unfold Mem.merge, srcSecret;
    cbn [v1.Data v1.ObjectMeta metav1.Labels].
  - apply (left_id_L ∅ (∪)).
  - intros _. apply lookup_union_Some_l, lookup_singleton_eq.
Qed.

Lemma merge_srcSecret_label src ns old :
  metav1.Labels (v1.ObjectMeta (Mem.merge (srcSecret src ns) old))
    !! "istio/multiCluster" = Some "true".
Proof.
  unfold Mem.merge, srcSecret. cbn [v1.ObjectMeta metav1.Labels].
  apply lookup_union_Some_l, lookup_singleton_eq.
Qed.

Lemma srcSecret_label src ns :
  metav1.Labels (v1.ObjectMeta (srcSecret src ns))
    !! "istio/multiCluster" = Some "true".
Proof.
  unfold srcSecret. cbn [v1.ObjectMeta metav1.Labels].
  apply lookup_singleton_eq.
Qed.

(** A patch with [srcSecret] changes nothing in a secret that carries the
    mesh-join label already. *)
Lemma merge_srcSecret_id src ns old :
  metav1.Labels (v1.ObjectMeta old) !! "istio/multiCluster" = Some "true" →
  Mem.merge (srcSecret src ns) old = old.
Proof.
  intros Hl. destruct old as [[name nsp labels] data sdata ty].
  unfold Mem.merge, srcSecret, v1.Name.
  cbn [v1.ObjectMeta v1.Data v1.StringData v1.Type_ metav1.Name
       metav1.Namespace metav1.Labels] in *.
  rewrite decide_True by done. rewrite !(left_id_L ∅ (∪)).
  rewrite <-insert_union_singleton_l, insert_id by done. done.
Qed.

Lemma withSecrets_id c : Mem.withSecrets c (Mem.secrets c) = c.
Proof. by destruct c. Qed.

Lemma patchSecret_grows h ns name pt src ns' w :
  Mem.grows w (Mem.patchSecret h ns name pt (srcSecret src ns') w).2.
Proof.
  unfold Mem.patchSecret.
  destruct (w !! h) as [c|] eqn:Hh; [|reflexivity].
  destruct (Mem.patchDenied c); [reflexivity|].
  destruct (Mem.secrets c !! (ns, name)) as [old|] eqn:Hs; [|reflexivity].
  simpl. eapply grows_insert; [done|]. apply clusterLe_put.
  intros old' Hold. simplify_eq. apply merge_srcSecret_le.
Qed.

Lemma joinPair_grows args config dst dstKube src :
  preserves (K:=K) Mem.grows (joinPair (K:=K) args config dst dstKube src).
Proof.
  apply joinPair_preserves; [apply _| |].
  - intros ns s w. unfold createSecret.
    pose proof (createSecret_grows dstKube ns s w) as H.
    change (Secrets_Create (Kube:=K)) with Mem.createSecret.
    by destruct (Mem.createSecret dstKube ns s w) as [[??]?].
  - intros ns n pt p [= <-] w. unfold patchSecret.
    pose proof (patchSecret_grows dstKube ns n pt src "istio-system" w) as H.
    change (Secrets_Patch (Kube:=K)) with Mem.patchSecret.
    by destruct (Mem.patchSecret dstKube ns n pt _ w) as [[??]?].
Qed.

(** ** Reading the in-memory server's answers *)

Lemma clientFor_mem args c :
  clientFor (K:=K) args c = Mem.clientConfig cfg c.
Proof.
  unfold clientFor.
  change (ClientConfig (Kube:=K) (kubeconfig args) c)
    with (Mem.clientConfig cfg c).
  by destruct (Mem.clientConfig cfg c).
Qed.

Lemma clientConfig_server c h :
  Mem.clientConfig cfg c = inr h → is_Some (serverOf cfg c).
Proof.
  unfold Mem.clientConfig, serverOf.
  destruct (api.Contexts cfg !! c) as [ctx|]; [|done].
  by destruct (api.Clusters cfg !! api.ctx_Cluster ctx).
Qed.

Lemma getServiceAccount_inv h ns name w sa :
  Mem.getServiceAccount h ns name w = inr sa →
  ∃ c, w !! h = Some c ∧ Mem.serviceAccounts c !! (ns, name) = Some sa.
Proof.
  unfold Mem.getServiceAccount. destruct (w !! h) as [c|]; [|done].
  destruct (Mem.serviceAccounts c !! (ns, name)) eqn:?; [|done].
  intros [= <-]. eauto.
Qed.

Lemma getSecret_inv h ns name w s :
  Mem.getSecret h ns name w = inr s →
  ∃ c, w !! h = Some c ∧ Mem.secrets c !! (ns, name) = Some s.
Proof.
  unfold Mem.getSecret. destruct (w !! h) as [c|]; [|done].
  destruct (Mem.secrets c !! (ns, name)) eqn:?; [|done].
  intros [= <-]. eauto.
Qed.

(** ** What later writes keep *)

Lemma grows_lookup w w' h c :
  Mem.grows w w' → w !! h = Some c →
  ∃ c', w' !! h = Some c' ∧ Mem.clusterLe c c'.
Proof.
  intros Hg Hh. specialize (Hg h). rewrite Hh in Hg.
  inversion Hg; subst. eauto.
Qed.

Lemma writable_mono w w' h :
  Mem.writable w h → Mem.grows w w' → Mem.writable w' h.
Proof.
  intros (c & Hh & Hc & Hp) Hg.
  destruct (grows_lookup _ _ _ _ Hg Hh) as (c' & Hh' & _ & Hc' & Hp' & _).
  exists c'. split_and!; [done|congruence|congruence].
Qed.

Lemma acceptsWrites_mono cs w w' :
  Mem.acceptsWrites cfg cs w → Mem.grows w w' → Mem.acceptsWrites cfg cs w'.
Proof. intros Hw Hg c h Hc Hh. eapply writable_mono; eauto. Qed.

Lemma readable_mono w w' src :
  Mem.readable cfg w src → Mem.grows w w' → Mem.readable cfg w' src.
Proof.
  intros (srcKube & sc & sa & ref & ps & Hk & Hsc & Hsa & Hrefs & Hps &
          Hca & Htk) Hg.
  destruct (grows_lookup _ _ _ _ Hg Hsc) as (sc' & Hsc' & Hacc & _ & _ & Hsec).
  destruct (Hsec _ _ Hps) as (ps' & Hps' & Hdata & _).
  exists srcKube, sc', sa, ref, ps'. rewrite Hacc, Hdata. by split_and!.
Qed.

Lemma hasJoinSecret_mono w w' h src :
  Mem.hasJoinSecret w h src → Mem.grows w w' → Mem.hasJoinSecret w' h src.
Proof.
  intros (c & s & Hh & Hs & Hl) Hg.
  destruct (grows_lookup _ _ _ _ Hg Hh) as (c' & Hh' & _ & _ & _ & Hsec).
  destruct (Hsec _ _ Hs) as (s' & Hs' & _ & Hl').
  exists c', s'. split_and!; auto.
Qed.

Lemma settled_mono w w' src dst :
  Mem.settled cfg w src dst → Mem.grows w w' → Mem.settled cfg w' src dst.
Proof.
  intros (dstKube & Hk & Hr & Hw & Hj) Hg. exists dstKube.
  split_and!;
    eauto using readable_mono, writable_mono, hasJoinSecret_mono.
Qed.

(** ** One pair *)

Lemma pair_readable args dst dstKube src w w' t :
  src ≠ dst →
  joinPair (K:=K) args cfg dst dstKube src w = (Ok tt, w', t) →
  Mem.readable cfg w src.
Proof.
  intros Hne Hrun.
  apply joinPair_ok_inv in Hrun
    as (srcKube & sa & ref & ps & result & err & w1 & _ & Hk & Hsa & Hrefs &
        Hps & Hca & Htk & _); [|done].
  rewrite clientFor_mem in Hk.
  apply getServiceAccount_inv in Hsa as (sc & Hsc & Hsa).
  apply getSecret_inv in Hps as (sc' & Hsc' & Hps).
  exists srcKube, sc, sa, ref, ps. split_and!; try done. congruence.
Qed.

Lemma pair_written args dst dstKube src w w' t :
  src ≠ dst →
  Mem.writable w dstKube →
  joinPair (K:=K) args cfg dst dstKube src w = (Ok tt, w', t) →
  Mem.hasJoinSecret w' dstKube src.
Proof.
  intros Hne (dc & Hdc & Hcd & Hpd) Hrun.
  apply joinPair_ok_inv in Hrun
    as (srcKube & sa & ref & ps & result & err & w1 & _ & _ & _ & _ &
        _ & _ & _ & Hcr & Hend); [|done].
  change (Secrets_Create (Kube:=K)) with Mem.createSecret in Hcr.
  unfold Mem.createSecret in Hcr. rewrite Hdc, Hcd in Hcr.
  change (v1.Name (srcSecret src "istio-system"))
    with ("istio-mc-" +:+ src) in Hcr.
  destruct (Mem.secrets dc !! ("istio-system", "istio-mc-" +:+ src))
    as [old|] eqn:Hold; injection Hcr as <- <- <-.
  - unfold errors.IsAlreadyExists, Mem.errAlreadyExists in Hend.
    cbn [Reason] in Hend. rewrite bool_decide_eq_true_2 in Hend by done.
    destruct Hend as (p & res & err' & [= <-] & Hpa).
    change (Secrets_Patch (Kube:=K)) with Mem.patchSecret in Hpa.
    unfold Mem.patchSecret in Hpa. rewrite Hdc, Hpd, Hold in Hpa.
    injection Hpa as <- <- <-.
    eexists _, _. rewrite lookup_insert_eq. split; [done|].
    cbn [Mem.secrets Mem.withSecrets]. rewrite lookup_insert_eq.
    split; [done|]. apply merge_srcSecret_label.
  - cbn [errors.IsAlreadyExists] in Hend. subst w'.
    eexists _, _. rewrite lookup_insert_eq. split; [done|].
    cbn [Mem.secrets Mem.withSecrets]. rewrite lookup_insert_eq.
    split; [done|]. apply srcSecret_label.
Qed.

Lemma pair_settles args dst dstKube src w w' t :
  src ≠ dst →
  Mem.clientConfig cfg dst = inr dstKube →
  Mem.writable w dstKube →
  joinPair (K:=K) args cfg dst dstKube src w = (Ok tt, w', t) →
  Mem.settled cfg w' src dst.
Proof.
  intros Hne Hk Hw Hrun.
  assert (Mem.grows w w') as Hg.
  { pose proof (joinPair_grows args cfg dst dstKube src w) as H.
    by rewrite Hrun in H. }
  exists dstKube. split_and!; [done| | |].
  - eapply readable_mono; [|done]. by eapply pair_readable.
  - by eapply writable_mono.
  - by eapply pair_written.
Qed.

(** The exchange of a pair that is settled: the create is refused with
    AlreadyExists, the patch goes through, and the clusters stay as they
    are. *)
Lemma settled_rerun args dst dstKube src w :
  src ≠ dst →
  Mem.clientConfig cfg dst = inr dstKube →
  Mem.settled cfg w src dst →
  ∃ t, joinPair (K:=K) args cfg dst dstKube src w = (Ok tt, w, t) ∧
       writes t = Mem.upsertCalls cfg src dst ∧
       Forall Mem.patchSucceeded t.
Proof.
  intros Hne Hk (dstKube' & Hk' & Hread & Hwr & Hjoin).
  assert (dstKube' = dstKube) as -> by congruence.
  destruct Hread as (srcKube & sc & sa & ref & ps & Hsk & Hsc & Hsa & Hrefs &
                     Hps & Hca & Htk).
  destruct Hwr as (dc & Hdc & Hcd & Hpd).
  destruct Hjoin as (dc' & old & Hdc' & Hold & Hlabel).
  assert (dc' = dc) as -> by congruence.
  eexists. split; [|split].
  - apply (joinPair_patch_run (K:=K) args cfg dst dstKube src w srcKube sa
             ref ps Mem.noSecret
             (Mem.errAlreadyExists ("istio-mc-" +:+ src)) w
             (srcSecret src "istio-system") old w).
    + done.
    + by eapply clientConfig_server.
    + by rewrite clientFor_mem.
    + change (ServiceAccounts_Get (Kube:=K)) with Mem.getServiceAccount.
      unfold Mem.getServiceAccount. by rewrite Hsc, Hsa.
    + done.
    + change (Secrets_Get (Kube:=K)) with Mem.getSecret.
      unfold Mem.getSecret. by rewrite Hsc, Hps.
    + done.
    + done.
    + change (Secrets_Create (Kube:=K)) with Mem.createSecret.
      unfold Mem.createSecret. rewrite Hdc, Hcd.
      change (v1.Name (srcSecret src "istio-system"))
        with ("istio-mc-" +:+ src).
      by rewrite Hold.
    + done.
    + done.
    + change (Secrets_Patch (Kube:=K)) with Mem.patchSecret.
      unfold Mem.patchSecret. rewrite Hdc, Hpd, Hold.
      cbv zeta. rewrite merge_srcSecret_id by done.
      rewrite (insert_id (Mem.secrets dc)) by done.
      rewrite withSecrets_id, insert_id by done. done.
  - unfold Mem.upsertCalls, Mem.clientName. rewrite Hk. reflexivity.
  - repeat constructor.
Qed.

(** ** The whole run *)

Lemma RunE_mem args w :
  RunE (K:=K) args w = finish (joinClusters (K:=K) args cfg w).
Proof.
  unfold RunE.
  change (GetStartingConfig (Kube:=K) (kubeconfig args) (context args))
    with (@inr error api.Config cfg).
  cbv beta iota. by rewrite joinBody_run.
Qed.

Lemma RunE_mem_nil args w w' t :
  RunE (K:=K) args w = (ReturnNil, w', t) ↔
  joinClusters (K:=K) args cfg w = (Ok tt, w', t).
Proof.
  rewrite RunE_mem.
  destruct (joinClusters (K:=K) args cfg w) as [[[[]|a] w1] t1]; simpl;
    split; intros [=]; by subst.
Qed.

(** The body of the outer loop, once the client of [dst] is built. *)
Lemma outer_body_inv args dst w r w' t :
  (dstRest ← orFatal (ClientConfig (Kube:=K) (kubeconfig args) dst);
   dstKube ← orFatal (NewForConfig (Kube:=K) dstRest);
   forM_ (clusters args) (joinPair (K:=K) args cfg dst dstKube)) w
    = (Ok r, w', t) →
  ∃ dstKube,
    Mem.clientConfig cfg dst = inr dstKube ∧
    forM_ (clusters args) (joinPair (K:=K) args cfg dst dstKube) w
      = (Ok r, w', t).
Proof.
  intros (rest & ? & ? & t2 & (Hk & -> & ->)%orFatal_ok_inv & H & ->)%bind_ok_inv.
  apply bind_ok_inv in H
    as (dstKube & ? & ? & t3 & ([= ->] & -> & ->)%orFatal_ok_inv & H & ->).
  by exists dstKube.
Qed.

Lemma outer_body_run args dst dstKube w :
  Mem.clientConfig cfg dst = inr dstKube →
  (dstRest ← orFatal (ClientConfig (Kube:=K) (kubeconfig args) dst);
   dstKube ← orFatal (NewForConfig (Kube:=K) dstRest);
   forM_ (clusters args) (joinPair (K:=K) args cfg dst dstKube)) w
    = forM_ (clusters args) (joinPair (K:=K) args cfg dst dstKube) w.
Proof.
  intros Hk.
  rewrite (run_orFatal_bind (K:=K) _ dstKube) by exact Hk.
  by rewrite (run_orFatal_bind (K:=K) _ dstKube).
Qed.

(** After a run that returned nil on clusters that accept writes, every
    pair of distinct identifiers is settled. *)
Lemma joinClusters_settles args w w' t :
  Mem.acceptsWrites cfg (clusters args) w →
  joinClusters (K:=K) args cfg w = (Ok tt, w', t) →
  ∀ dst, dst ∈ clusters args →
    (∃ h, Mem.clientConfig cfg dst = inr h) ∧
    ∀ src, src ∈ clusters args → src ≠ dst → Mem.settled cfg w' src dst.
Proof.
  intros Hw Hrun.
  eapply (forM__establish (K:=K) Mem.grows
            (Mem.acceptsWrites cfg (clusters args))
            (λ dst w,
               (∃ h, Mem.clientConfig cfg dst = inr h) ∧
               ∀ src, src ∈ clusters args → src ≠ dst →
                      Mem.settled cfg w src dst));
    [| | | |exact Hw|exact Hrun].
  - intros dst.
    apply preserves_bind; [apply _|apply preserves_orFatal; apply _|].
    intros rest.
    apply preserves_bind; [apply _|apply preserves_orFatal; apply _|].
    intros dstKube. apply preserves_forM_; [apply _|].
    intros src. apply joinPair_grows.
  - intros w1 w2 H1 H2. by eapply acceptsWrites_mono.
  - intros dst w1 w2 [Hh Hs] Hg. split; [done|].
    intros src Hsrc Hne. eapply settled_mono; eauto.
  - clear w w' t Hw Hrun. intros dst w w' t Hdst Hw Hrun.
    apply outer_body_inv in Hrun as (dstKube & Hk & Hrun).
    split; [by eexists|].
    eapply (forM__establish (K:=K) Mem.grows
              (λ w, Mem.writable w dstKube)
              (λ src w, src ≠ dst → Mem.settled cfg w src dst));
      [| | | |by eapply Hw|exact Hrun].
    + intros src. apply joinPair_grows.
    + intros w1 w2 H1 H2. by eapply writable_mono.
    + intros src w1 w2 Hs Hg Hne. eapply settled_mono; eauto.
    + intros src w1 w2 t1 _ Hw1 Hpair Hne. by eapply pair_settles.
Qed.

(** On clusters where every pair is settled, the run returns nil, leaves
    the clusters as they are, and its writes are a refused create and a
    patch per pair. *)
Lemma joinClusters_rerun args w :
  (∀ dst, dst ∈ clusters args →
     (∃ h, Mem.clientConfig cfg dst = inr h) ∧
     ∀ src, src ∈ clusters args → src ≠ dst → Mem.settled cfg w src dst) →
  ∃ t, joinClusters (K:=K) args cfg w = (Ok tt, w, t) ∧
       writes t =
         (dst ← clusters args; src ← clusters args;
          if decide (src = dst) then [] else Mem.upsertCalls cfg src dst) ∧
       Forall Mem.patchSucceeded t.
Proof.
  intros Hall. unfold joinClusters.
  apply (forM__fixed (K:=K) writes); [done|apply writes_app|].
  intros dst Hdst. destruct (Hall dst Hdst) as [[dstKube Hk] Hs].
  cbv beta. rewrite (outer_body_run args dst dstKube w Hk).
  apply (forM__fixed (K:=K) writes); [done|apply writes_app|].
  intros src Hsrc. destruct (decide (src = dst)) as [->|Hne].
  - exists []. unfold joinPair. rewrite decide_True by done. by repeat split.
  - apply settled_rerun; auto.
Qed.

(** The rerun where no write is refused: on clusters that accept writes, a
    run that returned nil can be repeated: the second run returns nil too
    and leaves every cluster, and so every destination secret, exactly as
    the first run left it; each of its exchanges takes the patch branch, its
    writes being the create refused with AlreadyExists followed by the
    merge-patch of the same object, and every patch succeeds. *)
Theorem rerun_takes_patch_branch
    (args : Args) (w w1 : gmap string Mem.Cluster)
    (t1 : list (@Event K)) :
  Mem.acceptsWrites cfg (clusters args) w →
  RunE (K:=K) args w = (ReturnNil, w1, t1) →
  ∃ t2,
    RunE (K:=K) args w1 = (ReturnNil, w1, t2) ∧
    writes t2 =
      (dst ← clusters args; src ← clusters args;
       if decide (src = dst) then [] else Mem.upsertCalls cfg src dst) ∧
    Forall Mem.patchSucceeded t2.
Proof.
  intros Hw Hrun%RunE_mem_nil.
  destruct (joinClusters_rerun args w1) as (t2 & Hrun2 & Hwrites & Hok).
  { by eapply joinClusters_settles. }
  exists t2. by rewrite RunE_mem_nil.
Qed.

(** The join where no write is refused: on clusters that accept writes,
    after a run that returned nil, for every two distinct identifiers [src]
    and [dst] of the list, the cluster of [dst] holds in istio-system a
    secret named istio-mc-<src> that carries the label
    istio/multiCluster=true. *)
Theorem join_leaves_labelled_secret
    (args : Args) (w w' : gmap string Mem.Cluster)
    (t : list (@Event K)) (src dst : string) :
  Mem.acceptsWrites cfg (clusters args) w →
  RunE (K:=K) args w = (ReturnNil, w', t) →
  src ∈ clusters args →
  dst ∈ clusters args →
  src ≠ dst →
  ∃ dstKube s,
    Mem.clientConfig cfg dst = inr dstKube ∧
    Mem.secretOn w' dstKube ("istio-mc-" +:+ src) = Some s ∧
    metav1.Labels (v1.ObjectMeta s) !! "istio/multiCluster" = Some "true".
Proof.
  intros Hw Hrun%RunE_mem_nil Hsrc Hdst Hne.
  destruct (joinClusters_settles args w w' t Hw Hrun dst Hdst) as [_ Hs].
  destruct (Hs src Hsrc Hne)
    as (dstKube & Hk & _ & _ & (c & s & Hc & Hsec & Hl)).
  exists dstKube, s. unfold Mem.secretOn. by rewrite Hc.
Qed.

End InMemory.

(** * The command on concrete clusters *)

Section Scenarios.

Local Abbreviation K3 := (Mem.kube Mem.cfg3).

Lemma world3_acceptsWrites_ab :
  Mem.acceptsWrites Mem.cfg3 ["a"; "b"] Mem.world3.
Proof.
  intros c h Hc Hk.
  apply elem_of_cons in Hc as [->|Hc];
    [|apply list_elem_of_singleton in Hc as ->];
    vm_compute in Hk; injection Hk as <-;
    exists Mem.healthy; by vm_compute.
Qed.

Lemma firstRun_returns_nil :
  RunE (K:=K3) (Mem.join ["a"; "b"]) Mem.world3 =
    (ReturnNil, Mem.firstRun.1.2, Mem.firstRun.2).
Proof.
  change (RunE (K:=K3) (Mem.join ["a"; "b"]) Mem.world3) with Mem.firstRun.
  assert (Mem.firstRun.1.1 = ReturnNil) as H by (vm_compute; reflexivity).
  destruct Mem.firstRun as [[e w] t]. simpl in *. by subst.
Qed.

(** C1: evaluated where cluster a refuses the creation of secrets, the
    command drops the error of the create for the pair b to a, goes on to
    the pair a to b and returns nil, leaving no istio-mc-b on a; evaluated
    where cluster a holds istio-mc-b and refuses patches, it prints the
    error of the patch, goes on and returns nil as well. *)
Theorem write_errors_do_not_stop_the_join :
  (RunE (K:=K3) (Mem.join ["a"; "b"]) Mem.worldNoCreate).1.1 = ReturnNil ∧
  exit_status
    (RunE (K:=K3) (Mem.join ["a"; "b"]) Mem.worldNoCreate).1.1 = Some 0%Z ∧
  attempts (RunE (K:=K3) (Mem.join ["a"; "b"]) Mem.worldNoCreate).2
    = [("b", "a"); ("a", "b")] ∧
  writes (RunE (K:=K3) (Mem.join ["a"; "b"]) Mem.worldNoCreate).2
    = [Api (K:=K3) "cluster-a"
         (CCreateSecret (K:=K3) "istio-system"
            (srcSecret "b" "istio-system"));
       Api (K:=K3) "cluster-b"
         (CCreateSecret (K:=K3) "istio-system"
            (srcSecret "a" "istio-system"))] ∧
  Mem.createSecret "cluster-a" "istio-system" (srcSecret "b" "istio-system")
    Mem.worldNoCreate
    = (Mem.noSecret, Some Mem.errForbidden, Mem.worldNoCreate) ∧
  Mem.secretOn (RunE (K:=K3) (Mem.join ["a"; "b"]) Mem.worldNoCreate).1.2
    "cluster-a" "istio-mc-b" = None ∧
  (RunE (K:=K3) (Mem.join ["a"; "b"]) Mem.worldNoPatch).1.1 = ReturnNil ∧
  attempts (RunE (K:=K3) (Mem.join ["a"; "b"]) Mem.worldNoPatch).2
    = [("b", "a"); ("a", "b")] ∧
  Stdout (K:=K3) (LPatchErr (Some Mem.errForbidden))
    ∈ (RunE (K:=K3) (Mem.join ["a"; "b"]) Mem.worldNoPatch).2.
Proof.
  split_and!; try reflexivity.
  apply list_elem_of_In. unfold In. lazy beta. do 6 right. left. reflexivity.
Qed.

(** C6: evaluated where cluster a refuses the creation of secrets, the
    command run twice on the identifiers a and b, the source credentials
    being the same for both runs.  Both runs return nil.  In the second run
    the exchange of b to a sends the create again, which is refused again,
    and sends no patch; cluster a holds no istio-mc-b after either run.
    Only the exchange of a to b, whose create the first run saw accepted,
    takes the patch branch. *)
Theorem refused_create_is_repeated_on_rerun :
  MemRuns.refusedRun.1.1 = ReturnNil ∧
  exit_status MemRuns.refusedRun.1.1 = Some 0%Z ∧
  MemRuns.refusedRerun.1.1 = ReturnNil ∧
  exit_status MemRuns.refusedRerun.1.1 = Some 0%Z ∧
  Mem.secretOn MemRuns.refusedRun.1.2 "cluster-b" "pilot-token"
    = Mem.secretOn Mem.worldNoCreate "cluster-b" "pilot-token" ∧
  Mem.secretOn MemRuns.refusedRun.1.2 "cluster-a" "pilot-token"
    = Mem.secretOn Mem.worldNoCreate "cluster-a" "pilot-token" ∧
  writes MemRuns.refusedRerun.2
    = [Api (K:=K3) "cluster-a"
         (CCreateSecret (K:=K3) "istio-system"
            (srcSecret "b" "istio-system"));
       Api (K:=K3) "cluster-b"
         (CCreateSecret (K:=K3) "istio-system"
            (srcSecret "a" "istio-system"));
       Api (K:=K3) "cluster-b"
         (CPatchSecret (K:=K3) "istio-system" "istio-mc-a"
            types.StrategicMergePatchType (srcSecret "a" "istio-system"))] ∧
  Mem.createSecret "cluster-a" "istio-system" (srcSecret "b" "istio-system")
    MemRuns.refusedRun.1.2
    = (Mem.noSecret, Some Mem.errForbidden, MemRuns.refusedRun.1.2) ∧
  Mem.secretOn MemRuns.refusedRun.1.2 "cluster-a" "istio-mc-b" = None ∧
  Mem.secretOn MemRuns.refusedRerun.1.2 "cluster-a" "istio-mc-b" = None.
Proof. split_and!; reflexivity. Qed.

(** C9: evaluated on the identifiers a and b where the pilot account of
    cluster a references one secret, which holds ca.crt and token, and
    cluster b refuses the creation of secrets.  The command drops the error
    of the create, sends no patch and returns nil, and cluster b holds no
    istio-mc-a after the run. *)
Theorem refused_create_leaves_no_secret :
  ServiceAccounts_Get (Kube:=K3) "cluster-a" "istio-system"
    "istio-pilot-service-account" MemRuns.worldNoCreateOnB
    = inr (Mem.pilotAccount ["pilot-token"]) ∧
  v1.Secrets (Mem.pilotAccount ["pilot-token"])
    = [{| v1.ref_Name := "pilot-token" |}] ∧
  Secrets_Get (Kube:=K3) "cluster-a" "istio-system" "pilot-token"
    MemRuns.worldNoCreateOnB
    = inr (Mem.tokenSecret "pilot-token" Mem.credentials) ∧
  is_Some (v1.Data (Mem.tokenSecret "pilot-token" Mem.credentials)
             !! "ca.crt") ∧
  is_Some (v1.Data (Mem.tokenSecret "pilot-token" Mem.credentials)
             !! "token") ∧
  (RunE (K:=K3) (Mem.join ["a"; "b"]) MemRuns.worldNoCreateOnB).1.1
    = ReturnNil ∧
  exit_status
    (RunE (K:=K3) (Mem.join ["a"; "b"]) MemRuns.worldNoCreateOnB).1.1
    = Some 0%Z ∧
  attempts (RunE (K:=K3) (Mem.join ["a"; "b"]) MemRuns.worldNoCreateOnB).2
    = [("b", "a"); ("a", "b")] ∧
  writes (RunE (K:=K3) (Mem.join ["a"; "b"]) MemRuns.worldNoCreateOnB).2
    = [Api (K:=K3) "cluster-a"
         (CCreateSecret (K:=K3) "istio-system"
            (srcSecret "b" "istio-system"));
       Api (K:=K3) "cluster-b"
         (CCreateSecret (K:=K3) "istio-system"
            (srcSecret "a" "istio-system"))] ∧
  Mem.createSecret "cluster-b" "istio-system" (srcSecret "a" "istio-system")
    MemRuns.worldNoCreateOnB
    = (Mem.noSecret, Some Mem.errForbidden, MemRuns.worldNoCreateOnB) ∧
  Mem.secretOn
    (RunE (K:=K3) (Mem.join ["a"; "b"]) MemRuns.worldNoCreateOnB).1.2
    "cluster-b" "istio-mc-a" = None.
Proof. split_and!; first [reflexivity|by eexists]. Qed.

(** C3, the claim refuted: with three identifiers the command prints no
    diagnostic, attempts all six exchanges, creates six secrets and returns
    nil. *)
Lemma three_clusters_are_joined :
  length (clusters (Mem.join ["a"; "b"; "d"])) = 3 ∧
  (RunE (K:=K3) (Mem.join ["a"; "b"; "d"]) Mem.world3).1.1 = ReturnNil ∧
  exit_status (RunE (K:=K3) (Mem.join ["a"; "b"; "d"]) Mem.world3).1.1
    = Some 0%Z ∧
  attempts (RunE (K:=K3) (Mem.join ["a"; "b"; "d"]) Mem.world3).2
    = [("b", "a"); ("d", "a"); ("a", "b"); ("d", "b"); ("a", "d");
       ("b", "d")] ∧
  length (writes (RunE (K:=K3) (Mem.join ["a"; "b"; "d"]) Mem.world3).2) = 6.
Proof. split_and!; reflexivity. Qed.

(** C4, the claim refuted: with the identifiers a, b and c, of which c is
    not a context of the configuration, the exchange of b to a has sent its
    three requests, and created istio-mc-b on cluster a, before the run
    ends on the client of c. *)
Lemma missing_context_after_requests :
  "c" ∈ clusters (Mem.join ["a"; "b"; "c"]) ∧
  api.Contexts Mem.cfg3 !! "c" = None ∧
  (RunE (K:=K3) (Mem.join ["a"; "b"; "c"]) Mem.world3).1.1
    = Aborted (LogFatal "context c does not exist") ∧
  calls (RunE (K:=K3) (Mem.join ["a"; "b"; "c"]) Mem.world3).2
    = [Api (K:=K3) "cluster-b"
         (CGetServiceAccount (K:=K3) "istio-system"
            "istio-pilot-service-account");
       Api (K:=K3) "cluster-b"
         (CGetSecret (K:=K3) "istio-system" "pilot-token");
       Api (K:=K3) "cluster-a"
         (CCreateSecret (K:=K3) "istio-system"
            (srcSecret "b" "istio-system"))] ∧
  Mem.secretOn (RunE (K:=K3) (Mem.join ["a"; "b"; "c"]) Mem.world3).1.2
    "cluster-a" "istio-mc-b" = Some (srcSecret "b" "istio-system").
Proof.
  split_and!; try reflexivity. do 3 constructor.
Qed.

(** C5, the claim refuted: with the list a, a (two identifiers) the command
    attempts no exchange at all. *)
Lemma duplicate_identifiers_attempt_nothing :
  length (clusters (Mem.join ["a"; "a"])) = 2 ∧
  (RunE (K:=K3) (Mem.join ["a"; "a"]) Mem.world3).1.1 = ReturnNil ∧
  attempts (RunE (K:=K3) (Mem.join ["a"; "a"]) Mem.world3).2 = [] ∧
  length (attempts (RunE (K:=K3) (Mem.join ["a"; "a"]) Mem.world3).2)
    ≠ 2 * (2 - 1).
Proof. split_and!; try reflexivity. by vm_compute. Qed.

(** ** The theorems at concrete inputs *)

Lemma missing_context_stops_join_witness :
  (GetStartingConfig (Kube:=K3) "" "" = inr Mem.cfg3 ∧
   "c" ∈ clusters (Mem.join ["a"; "c"]) ∧
   api.Contexts Mem.cfg3 !! "c" = None ∧
   (∀ cluster,
      Stdout (K:=K3) (LConfigNotFound cluster)
      ∉ (RunE (K:=K3) (Mem.join ["a"; "c"]) Mem.world3).2) ∧
   (∃ a, (RunE (K:=K3) (Mem.join ["a"; "c"]) Mem.world3).1.1 = Aborted a ∧
         fatalOrPanic a ∧
         (exit_status (Aborted a) = Some 1%Z ∨
          exit_status (Aborted a) = Some 2%Z)) ∧
   (RunE (K:=K3) (Mem.join ["a"; "c"]) Mem.world3).1.2 = Mem.world3 ∧
   calls (RunE (K:=K3) (Mem.join ["a"; "c"]) Mem.world3).2 = []) ∧
  ("c" ∈ clusters (Mem.join ["c"; "a"]) ∧
   clientFor (K:=K3) (Mem.join ["c"; "a"]) "c"
     = inl (Mem.errNoContext "c") ∧
   RunE (K:=K3) (Mem.join ["c"; "a"]) Mem.world3
     = (Aborted (LogFatal "context c does not exist"), Mem.world3, [])) ∧
  (GetStartingConfig (Kube:=MemRuns.kubeCurrent Mem.cfg3) "" ""
     = inr Mem.cfg3 ∧
   "" ∈ clusters (Mem.join [""; "b"]) ∧
   api.Contexts Mem.cfg3 !! "" = None ∧
   clientFor (K:=MemRuns.kubeCurrent Mem.cfg3) (Mem.join [""; "b"]) ""
     = inr "cluster-a" ∧
   RunE (K:=MemRuns.kubeCurrent Mem.cfg3) (Mem.join [""; "b"]) Mem.world3
     = (Aborted NilPanic, Mem.world3,
        [Stdout (K:=MemRuns.kubeCurrent Mem.cfg3) (LJoining "b" "")])).
Proof.
  assert ("c" ∈ clusters (Mem.join ["a"; "c"])) as Hin by do 2 constructor.
  assert ("c" ∈ clusters (Mem.join ["c"; "a"])) as Hin' by constructor.
  assert ("" ∈ clusters (Mem.join [""; "b"])) as Hin'' by constructor.
  assert (api.Contexts Mem.cfg3 !! "c" = None) as Hctx by reflexivity.
  assert (api.Contexts Mem.cfg3 !! "" = None) as Hctx'' by reflexivity.
  destruct (missing_context_stops_join (K:=K3) (Mem.join ["a"; "c"])
              Mem.cfg3 "c" Mem.world3 eq_refl Hin Hctx)
    as (Hline & Hstop & _ & _ & Hquiet).
  destruct (missing_context_stops_join (K:=K3) (Mem.join ["c"; "a"])
              Mem.cfg3 "c" Mem.world3 eq_refl Hin' Hctx)
    as (_ & _ & Hfirst & _ & _).
  destruct (missing_context_stops_join (K:=MemRuns.kubeCurrent Mem.cfg3)
              (Mem.join [""; "b"]) Mem.cfg3 "" Mem.world3 eq_refl Hin''
              Hctx'')
    as (_ & _ & _ & Hpanic & _).
  split_and!.
  - reflexivity.
  - exact Hin.
  - exact Hctx.
  - exact Hline.
  - apply Hstop. right. eexists. reflexivity.
  - apply Hquiet; [eexists|]; reflexivity.
  - apply Hquiet; [eexists|]; reflexivity.
  - exact Hin'.
  - reflexivity.
  - exact (Hfirst ["a"] (Mem.errNoContext "c") eq_refl eq_refl).
  - reflexivity.
  - exact Hin''.
  - exact Hctx''.
  - reflexivity.
  - apply (Hpanic [] "b" [] "cluster-a" eq_refl); [constructor|discriminate|].
    reflexivity.
Defined.

Lemma attempts_of_completed_join_witness :
  NoDup (clusters (Mem.join ["a"; "b"])) ∧
  RunE (K:=K3) (Mem.join ["a"; "b"]) Mem.world3
    = (ReturnNil, Mem.firstRun.1.2, Mem.firstRun.2) ∧
  attempts Mem.firstRun.2 = orderedPairs ["a"; "b"] ∧
  length (attempts Mem.firstRun.2) = 2 * (2 - 1) ∧
  (length (clusters (Mem.join ["a"; "b"])) = 2 →
   length (attempts Mem.firstRun.2) = 2) ∧
  ∀ src dst,
    (src, dst) ∈ attempts Mem.firstRun.2 ↔
    src ∈ ["a"; "b"] ∧ dst ∈ ["a"; "b"] ∧ src ≠ dst.
Proof.
  assert (NoDup (clusters (Mem.join ["a"; "b"]))) as Hnd.
  { apply (bool_decide_unpack _). by vm_compute. }
  split; [exact Hnd|]. split; [exact firstRun_returns_nil|].
  exact (attempts_of_completed_join (K:=K3) (Mem.join ["a"; "b"]) Mem.world3
           Mem.firstRun.1.2 Mem.firstRun.2 Hnd firstRun_returns_nil).
Defined.

Lemma rerun_takes_patch_branch_witness :
  Mem.acceptsWrites Mem.cfg3 (clusters (Mem.join ["a"; "b"])) Mem.world3 ∧
  RunE (K:=K3) (Mem.join ["a"; "b"]) Mem.world3
    = (ReturnNil, Mem.firstRun.1.2, Mem.firstRun.2) ∧
  ∃ t2,
    RunE (K:=K3) (Mem.join ["a"; "b"]) Mem.firstRun.1.2
      = (ReturnNil, Mem.firstRun.1.2, t2) ∧
    writes t2 =
      Mem.upsertCalls Mem.cfg3 "b" "a" ++ Mem.upsertCalls Mem.cfg3 "a" "b" ∧
    Forall Mem.patchSucceeded t2.
Proof.
  split; [exact world3_acceptsWrites_ab|].
  split; [exact firstRun_returns_nil|].
  exact (rerun_takes_patch_branch Mem.cfg3 (Mem.join ["a"; "b"]) Mem.world3
           Mem.firstRun.1.2 Mem.firstRun.2 world3_acceptsWrites_ab
           firstRun_returns_nil).
Defined.

Lemma join_leaves_labelled_secret_witness :
  Mem.acceptsWrites Mem.cfg3 (clusters (Mem.join ["a"; "b"])) Mem.world3 ∧
  RunE (K:=K3) (Mem.join ["a"; "b"]) Mem.world3
    = (ReturnNil, Mem.firstRun.1.2, Mem.firstRun.2) ∧
  "a" ∈ clusters (Mem.join ["a"; "b"]) ∧
  "b" ∈ clusters (Mem.join ["a"; "b"]) ∧
  "a" ≠ "b" ∧
  ∃ dstKube s,
    Mem.clientConfig Mem.cfg3 "b" = inr dstKube ∧
    Mem.secretOn Mem.firstRun.1.2 dstKube "istio-mc-a" = Some s ∧
    metav1.Labels (v1.ObjectMeta s) !! "istio/multiCluster" = Some "true".
Proof.
  assert ("a" ∈ clusters (Mem.join ["a"; "b"])) as Ha by constructor.
  assert ("b" ∈ clusters (Mem.join ["a"; "b"])) as Hb by do 2 constructor.
  assert ("a" ≠ "b") as Hne by discriminate.
  split_and!; [exact world3_acceptsWrites_ab|exact firstRun_returns_nil|
               exact Ha|exact Hb|exact Hne|].
  exact (join_leaves_labelled_secret Mem.cfg3 (Mem.join ["a"; "b"])
           Mem.world3 Mem.firstRun.1.2 Mem.firstRun.2 "a" "b"
           world3_acceptsWrites_ab firstRun_returns_nil Ha Hb Hne).
Defined.

Lemma wrong_secret_count_stops_before_write_witness :
  "a" ≠ "b" ∧
  clientFor (K:=K3) (Mem.join ["a"; "b"]) "a" = inr "cluster-a" ∧
  ServiceAccounts_Get (Kube:=K3) "cluster-a" "istio-system"
    "istio-pilot-service-account" Mem.worldTwoRefs
    = inr (Mem.pilotAccount ["pilot-token"; "pilot-token-old"]) ∧
  length (v1.Secrets (Mem.pilotAccount ["pilot-token"; "pilot-token-old"]))
    ≠ 1 ∧
  ∃ t,
    joinPair (K:=K3) (Mem.join ["a"; "b"]) Mem.cfg3 "b" "cluster-b" "a"
      Mem.worldTwoRefs
      = (Stop (LogFatal "<nil>"), Mem.worldTwoRefs, t) ∧
    writes t = [].
Proof.
  assert ("a" ≠ "b") as Hne by discriminate.
  assert (length (v1.Secrets
                    (Mem.pilotAccount ["pilot-token"; "pilot-token-old"]))
          ≠ 1) as Hlen by discriminate.
  split_and!; [exact Hne|reflexivity|reflexivity|exact Hlen|].
  exact (wrong_secret_count_stops_before_write (K:=K3)
           (Mem.join ["a"; "b"]) Mem.cfg3 "b" "a" "cluster-b" "cluster-a"
           (Mem.pilotAccount ["pilot-token"; "pilot-token-old"])
           Mem.worldTwoRefs Hne eq_refl eq_refl Hlen).
Defined.

Lemma missing_field_stops_before_write_witness :
  "a" ≠ "b" ∧
  is_Some (serverOf Mem.cfg3 "b") ∧
  clientFor (K:=K3) (Mem.join ["a"; "b"]) "a" = inr "cluster-a" ∧
  ServiceAccounts_Get (Kube:=K3) "cluster-a" "istio-system"
    "istio-pilot-service-account" Mem.worldNoToken
    = inr (Mem.pilotAccount ["pilot-token"]) ∧
  v1.Secrets (Mem.pilotAccount ["pilot-token"])
    = [{| v1.ref_Name := "pilot-token" |}] ∧
  Secrets_Get (Kube:=K3) "cluster-a" "istio-system" "pilot-token"
    Mem.worldNoToken
    = inr (Mem.tokenSecret "pilot-token"
             (<["ca.crt" := [Byte.x2d; Byte.x43; Byte.x41]]> ∅)) ∧
  (v1.Data (Mem.tokenSecret "pilot-token"
              (<["ca.crt" := [Byte.x2d; Byte.x43; Byte.x41]]> ∅))
     !! "ca.crt" = None ∨
   v1.Data (Mem.tokenSecret "pilot-token"
              (<["ca.crt" := [Byte.x2d; Byte.x43; Byte.x41]]> ∅))
     !! "token" = None) ∧
  ∃ t,
    joinPair (K:=K3) (Mem.join ["a"; "b"]) Mem.cfg3 "b" "cluster-b" "a"
      Mem.worldNoToken
      = (Stop (LogFatal "pilot-token is missing token"),
         Mem.worldNoToken, t) ∧
    writes t = [].
Proof.
  assert ("a" ≠ "b") as Hne by discriminate.
  assert (is_Some (serverOf Mem.cfg3 "b")) as Hsrv by (eexists; reflexivity).
  assert (v1.Data (Mem.tokenSecret "pilot-token"
                     (<["ca.crt" := [Byte.x2d; Byte.x43; Byte.x41]]> ∅))
            !! "ca.crt" = None ∨
          v1.Data (Mem.tokenSecret "pilot-token"
                     (<["ca.crt" := [Byte.x2d; Byte.x43; Byte.x41]]> ∅))
            !! "token" = None) as Hmiss by (right; reflexivity).
  split_and!; [exact Hne|exact Hsrv|reflexivity|reflexivity|reflexivity|
               reflexivity|exact Hmiss|].
  exact (missing_field_stops_before_write (K:=K3)
           (Mem.join ["a"; "b"]) Mem.cfg3 "b" "a" "cluster-b" "cluster-a"
           (Mem.pilotAccount ["pilot-token"])
           {| v1.ref_Name := "pilot-token" |}
           (Mem.tokenSecret "pilot-token"
              (<["ca.crt" := [Byte.x2d; Byte.x43; Byte.x41]]> ∅))
           Mem.worldNoToken Hne Hsrv eq_refl eq_refl eq_refl eq_refl Hmiss).
Defined.

End Scenarios.

(** * Further properties of the exchange *)

(** Walks through a computation and leaves one goal per request and per
    printed line. *)
Ltac walk_trace :=
  repeat first
    [ apply traceAll_ret
    | apply traceAll_stop
    | apply traceAll_orFatal
    | apply traceAll_deref
    | apply traceAll_bind_orFatal; intros ? ?
    | apply traceAll_bind_deref; intros ? ?
    | apply traceAll_bind; [|intros ?]
    | progress unfold log_Fatal
    | match goal with
      | |- traceAll _ (if ?b then _ else _) => destruct b eqn:?
      | |- traceAll _ (match ?x with _ => _ end) => destruct x eqn:?
      | |- traceAll _ (printf ?l) =>
          apply traceAll_single with (e := Stdout l); [done|]
      | |- traceAll _ (getNamespace ?cs ?n) =>
          apply traceAll_single with (e := Api cs (CGetNamespace n)); [done|]
      | |- traceAll _ (getServiceAccount ?cs ?ns ?n) =>
          apply traceAll_single
            with (e := Api cs (CGetServiceAccount ns n)); [done|]
      | |- traceAll _ (getSecret ?cs ?ns ?n) =>
          apply traceAll_single with (e := Api cs (CGetSecret ns n)); [done|]
      | |- traceAll _ (createSecret ?cs ?ns ?s) =>
          apply traceAll_single with (e := Api cs (CCreateSecret ns s));
          [apply createSecret_trace|]
      | |- traceAll _ (patchSecret ?cs ?ns ?n ?pt ?p) =>
          apply traceAll_single with (e := Api cs (CPatchSecret ns n pt p));
          [apply patchSecret_trace|]
      end ].

(** Closes the cases of the loop body that end before the patch: no
    event of the trace is a patch, and the conditions of the patch branch
    do not all hold. *)
Ltac no_patch :=
  split;
  [ intros (? & Hin & Hisp);
    repeat (apply elem_of_cons in Hin as [->|Hin]; [done|]);
    by apply elem_of_nil in Hin
  | intros (_ & ? & ? & ? & ? & ? & ? & ? & ? & Hs & H1 & H2 & H3 & H4 &
            H5 & H6 & H7 & H8 & H9);
    simplify_eq/=;
    repeat match goal with
      | Ha : ?x = _, Hb : ?x = _ |- _ => rewrite Ha in Hb; simplify_eq/=
      | Ha : is_Some None |- _ => by destruct Ha as [? [=]]
      | Ha : is_Some ?o, Hb : ?o = None |- _ => rewrite Hb in Ha
      end;
    done ].

Section Exchange.

Context `{K : Kube}.

(** X1: when the get of the pilot service account on the source fails, the
    exchange of the pair ends the process by [log.Fatal] with the text of
    that error; only the joining line and the get have happened, and the
    clusters are as they were. *)
Theorem account_get_error_is_fatal
    (args : Args) (config : api.Config) (dst src : string)
    (dstKube srcKube : Clientset) (err : error) (w : World) :
  src ≠ dst →
  is_Some (serverOf config dst) →
  clientFor args src = inr srcKube →
  ServiceAccounts_Get srcKube "istio-system" "istio-pilot-service-account" w
    = inl err →
  joinPair args config dst dstKube src w =
    (Stop (LogFatal (Message err)), w,
     [Stdout (LJoining src dst);
      Api srcKube
        (CGetServiceAccount "istio-system" "istio-pilot-service-account")]).
Proof.
  intros Hne Hsrv Hsrc Hsa. unfold clientFor, serverOf in *.
  destruct (ClientConfig (kubeconfig args) src) as [|rest] eqn:Hrest; [done|].
  unfold_pair. rewrite decide_False by done.
  destruct (api.Contexts config !! dst) as [dctx|]; [|by destruct Hsrv].
  destruct (api.Clusters config !! api.ctx_Cluster dctx) as [dcl|];
    [|by destruct Hsrv].
  by rewrite Hrest, Hsrc, Hsa.
Qed.

(** X2: when the get of the account's secret on the source fails, the
    exchange of the pair ends the process by [log.Fatal] with the text of
    that error, after the two gets and before any write. *)
Theorem secret_get_error_is_fatal
    (args : Args) (config : api.Config) (dst src : string)
    (dstKube srcKube : Clientset) (sa : v1.ServiceAccount)
    (ref : v1.ObjectReference) (err : error) (w : World) :
  src ≠ dst →
  is_Some (serverOf config dst) →
  clientFor args src = inr srcKube →
  ServiceAccounts_Get srcKube "istio-system" "istio-pilot-service-account" w
    = inr sa →
  v1.Secrets sa = [ref] →
  Secrets_Get srcKube "istio-system" (v1.ref_Name ref) w = inl err →
  joinPair args config dst dstKube src w =
    (Stop (LogFatal (Message err)), w,
     [Stdout (LJoining src dst);
      Api srcKube
        (CGetServiceAccount "istio-system" "istio-pilot-service-account");
      Api srcKube (CGetSecret "istio-system" (v1.ref_Name ref))]).
Proof.
  intros Hne Hsrv Hsrc Hsa Hrefs Hsec. unfold clientFor, serverOf in *.
  destruct (ClientConfig (kubeconfig args) src) as [|rest] eqn:Hrest; [done|].
  unfold_pair. rewrite decide_False by done.
  destruct (api.Contexts config !! dst) as [dctx|]; [|by destruct Hsrv].
  destruct (api.Clusters config !! api.ctx_Cluster dctx) as [dcl|];
    [|by destruct Hsrv].
  by rewrite Hrest, Hsrc, Hsa, Hrefs, Hsec.
Qed.

(** X3: when the client of the source cannot be built, the exchange of
    the pair ends the process by [log.Fatal] with the text of that error,
    before any request. *)
Theorem source_client_error_is_fatal
    (args : Args) (config : api.Config) (dst src : string)
    (dstKube : Clientset) (err : error) (w : World) :
  src ≠ dst →
  is_Some (serverOf config dst) →
  clientFor args src = inl err →
  joinPair args config dst dstKube src w =
    (Stop (LogFatal (Message err)), w, [Stdout (LJoining src dst)]).
Proof.
  intros Hne Hsrv Hsrc. unfold clientFor, serverOf in *.
  unfold_pair. rewrite decide_False by done.
  destruct (api.Contexts config !! dst) as [dctx|]; [|by destruct Hsrv].
  destruct (api.Clusters config !! api.ctx_Cluster dctx) as [dcl|];
    [|by destruct Hsrv].
  destruct (ClientConfig (kubeconfig args) src) as [e|rest] eqn:Hrest.
  - by injection Hsrc as ->.
  - by rewrite Hsrc.
Qed.

(** X4: when the client of the first listed identifier cannot be built,
    the command ends the process by [log.Fatal] with the text of that error
    before it prints or requests anything: the failure is not a skip of
    that destination. *)
Theorem destination_client_error_is_fatal
    (args : Args) (config : api.Config) (dst : string) (rest : list string)
    (err : error) (w : World) :
  GetStartingConfig (kubeconfig args) (context args) = inr config →
  clusters args = dst :: rest →
  clientFor args dst = inl err →
  RunE args w = (Aborted (LogFatal (Message err)), w, []).
Proof.
  intros Hcfg Hcl Hdst. unfold RunE. rewrite Hcfg, joinBody_run.
  unfold joinClusters. rewrite Hcl. unfold clientFor in Hdst.
  unfold forM_ at 1. unfold_pair.
  destruct (ClientConfig (kubeconfig args) dst) as [e|r] eqn:Hrest.
  - by injection Hdst as ->.
  - by rewrite Hdst.
Qed.

(** ** The order of the requests *)

Lemma calls_cons_api cs c (t : list Event) :
  calls (Api cs c :: t) = Api cs c :: calls t.
Proof. reflexivity. Qed.

Lemma calls_cons_stdout l (t : list Event) :
  calls (Stdout l :: t) = calls t.
Proof. reflexivity. Qed.

(** X5: the requests of one exchange are, in order, a beginning of: the
    get of the service account and the get of its secret on the client of
    the source, the create on the client of the destination, and at most
    one patch of istio-mc-<src> on the client of the destination.  No get
    follows a write, and there is at most one create and one patch. *)
Theorem requests_follow_the_protocol
    (args : Args) (config : api.Config) (dst src : string)
    (dstKube : Clientset) (w : World) :
  calls (joinPair args config dst dstKube src w).2 = [] ∨
  ∃ srcKube secretName patch,
    clientFor args src = inr srcKube ∧
    patchOrNone dstKube src patch ∧
    calls (joinPair args config dst dstKube src w).2
      `prefix_of` pairRequests srcKube dstKube src secretName patch.
Proof.
  unfold clientFor. unfold_pair.
  destruct (decide (src = dst)); [by left|].
  destruct (api.Contexts config !! dst) as [dctx|]; [|by left].
  destruct (api.Clusters config !! api.ctx_Cluster dctx) as [dcl|];
    [|by left].
  destruct (ClientConfig (kubeconfig args) src) as [|rest]; [by left|].
  destruct (NewForConfig rest) as [|srcKube]; [by left|].
  right. exists srcKube.
  destruct (ServiceAccounts_Get srcKube _ _ w) as [|sa].
  { exists "", []. split_and!; [done|by left|]. by eexists. }
  destruct (v1.Secrets sa) as [|ref [|??]].
  1,3: exists "", []; split_and!; [done|by left|]; by eexists.
  exists (v1.ref_Name ref).
  destruct (Secrets_Get srcKube _ _ w) as [|ps].
  { exists []. split_and!; [done|by left|]. by eexists. }
  destruct (v1.Data ps !! "ca.crt") as [ca|].
  2: { exists []. split_and!; [done|by left|]. by eexists. }
  destruct (v1.Data ps !! "token") as [tk|].
  2: { exists []. split_and!; [done|by left|]. by eexists. }
  destruct (Secrets_Create dstKube _ _ w) as [[result err] w1].
  destruct (errors.IsAlreadyExists err).
  2: { exists []. split_and!; [done|by left|]. by exists []. }
  destruct (json_Marshal _) as [|p].
  { exists []. split_and!; [done|by left|]. by exists []. }
  destruct (Secrets_Patch dstKube _ _ _ p w1) as [[res err'] w2].
  eexists. split_and!; [done|right; by eexists|]. by exists [].
Qed.

(** X6: an exchange sends a patch exactly when both gets succeeded, the
    secret holds ca.crt and token, the create was answered with an error
    whose reason is AlreadyExists, and the secret could be encoded. *)
Theorem patch_only_after_already_exists
    (args : Args) (config : api.Config) (dst src : string)
    (dstKube : Clientset) (w : World) :
  (∃ e, e ∈ (joinPair args config dst dstKube src w).2 ∧ isPatch e = true) ↔
  src ≠ dst ∧
  ∃ srcKube sa ref pilotSecret result err w1 p,
    is_Some (serverOf config dst) ∧
    clientFor args src = inr srcKube ∧
    ServiceAccounts_Get srcKube "istio-system" "istio-pilot-service-account" w
      = inr sa ∧
    v1.Secrets sa = [ref] ∧
    Secrets_Get srcKube "istio-system" (v1.ref_Name ref) w
      = inr pilotSecret ∧
    is_Some (v1.Data pilotSecret !! "ca.crt") ∧
    is_Some (v1.Data pilotSecret !! "token") ∧
    Secrets_Create dstKube "istio-system" (srcSecret src "istio-system") w
      = (result, Some err, w1) ∧
    Reason err = metav1.StatusReasonAlreadyExists ∧
    json_Marshal (srcSecret src "istio-system") = inr p.
Proof.
  unfold clientFor, serverOf. unfold_pair.
  destruct (decide (src = dst)) as [->|Hne].
  { split; [intros (e & He & _); by apply elem_of_nil in He|by intros [? _]]. }
  destruct (api.Contexts config !! dst) as [dctx|]; [|no_patch].
  destruct (api.Clusters config !! api.ctx_Cluster dctx) as [dcl|];
    [|no_patch].
  destruct (ClientConfig (kubeconfig args) src) as [|rest]; [no_patch|].
  destruct (NewForConfig rest) as [|srcKube]; [no_patch|].
  destruct (ServiceAccounts_Get srcKube _ _ w) as [|sa] eqn:Hsa; [no_patch|].
  destruct (v1.Secrets sa) as [|ref [|??]] eqn:Hrefs; [no_patch| |no_patch].
  destruct (Secrets_Get srcKube _ _ w) as [|ps] eqn:Hps; [no_patch|].
  destruct (v1.Data ps !! "ca.crt") as [ca|] eqn:Hca; [|no_patch].
  destruct (v1.Data ps !! "token") as [tk|] eqn:Htk; [|no_patch].
  destruct (Secrets_Create dstKube _ _ w) as [[result err] w1] eqn:Hcr.
  destruct err as [err|]; [|no_patch].
  unfold errors.IsAlreadyExists.
  destruct (bool_decide (Reason err = metav1.StatusReasonAlreadyExists))
    eqn:Hex.
  2: { apply bool_decide_eq_false in Hex. no_patch. }
  apply bool_decide_eq_true in Hex.
  destruct (json_Marshal _) as [|p] eqn:Hp; [no_patch|].
  destruct (Secrets_Patch dstKube _ _ _ p w1) as [[res err'] w2].
  split.
  - intros _. split; [done|].
    exists srcKube, sa, ref, ps, result, err, w1, p. split_and!; eauto.
  - intros _. eexists. split; [simpl; do 5 right; left|reflexivity].
Qed.

(** X7: once both gets on the source have succeeded and the secret holds
    both fields, the exchange of the pair completes whatever the
    destination answers to the create and to the patch, provided the secret
    can be encoded. *)
Theorem destination_answers_do_not_stop_the_pair
    (args : Args) (config : api.Config) (dst src : string)
    (dstKube srcKube : Clientset) (sa : v1.ServiceAccount)
    (ref : v1.ObjectReference) (pilotSecret : v1.Secret) (p : Payload)
    (w : World) :
  src ≠ dst →
  is_Some (serverOf config dst) →
  clientFor args src = inr srcKube →
  ServiceAccounts_Get srcKube "istio-system" "istio-pilot-service-account" w
    = inr sa →
  v1.Secrets sa = [ref] →
  Secrets_Get srcKube "istio-system" (v1.ref_Name ref) w = inr pilotSecret →
  is_Some (v1.Data pilotSecret !! "ca.crt") →
  is_Some (v1.Data pilotSecret !! "token") →
  json_Marshal (srcSecret src "istio-system") = inr p →
  (joinPair args config dst dstKube src w).1.1 = Ok tt.
Proof.
  intros Hne Hsrv Hsrc Hsa Hrefs Hps [ca Hca] [tk Htk] Hp.
  unfold serverOf, clientFor in *. unfold_pair.
  rewrite decide_False by done.
  destruct (api.Contexts config !! dst) as [dctx|]; [|by destruct Hsrv].
  destruct (api.Clusters config !! api.ctx_Cluster dctx) as [dcl|];
    [|by destruct Hsrv].
  destruct (ClientConfig (kubeconfig args) src) as [|rest]; [done|].
  rewrite Hsrc, Hsa, Hrefs, Hps, Hca, Htk.
  destruct (Secrets_Create dstKube _ _ w) as [[result err] w1].
  destruct (errors.IsAlreadyExists err); [|done].
  rewrite Hp. by destruct (Secrets_Patch dstKube _ _ _ p w1) as [[??]?].
Qed.

(** ** The descriptor *)

(** X8: the descriptor built from the source credentials refers to itself
    consistently: its current context is its only context, which names its
    only cluster, holding the given server and CA data, and its only user,
    holding the token. *)
Theorem descriptor_is_self_consistent
    (clusterName server : string) (caData token : bytes) :
  api.Contexts (descriptor clusterName server caData token)
    !! api.CurrentContext (descriptor clusterName server caData token)
    = Some {| api.ctx_Cluster := clusterName;
              api.ctx_AuthInfo := clusterName;
              api.ctx_Namespace := "" |} ∧
  api.Clusters (descriptor clusterName server caData token) !! clusterName
    = Some {| api.Server := server;
              api.CertificateAuthorityData := caData |} ∧
  api.AuthInfos (descriptor clusterName server caData token) !! clusterName
    = Some {| api.Token := string_of_list_byte token |} ∧
  dom (api.Contexts (descriptor clusterName server caData token))
    = {[clusterName]} ∧
  dom (api.Clusters (descriptor clusterName server caData token))
    = {[clusterName]} ∧
  dom (api.AuthInfos (descriptor clusterName server caData token))
    = {[clusterName]}.
Proof.
  unfold descriptor, api.NewConfig.
  cbn [api.Contexts api.Clusters api.AuthInfos api.CurrentContext].
  rewrite !lookup_insert_eq, !dom_insert_L, !dom_empty_L.
  split_and!; try done; apply (right_id_L ∅ (∪)).
Qed.

(** ** The attempts of a run, completed or not *)

Lemma forM__attempts_prefix {A} (l : list A) (f : A → M unit)
    (g : A → list (string * string)) w :
  (∀ x w, attempts (f x w).2 `prefix_of` g x) →
  (∀ x w w' t, f x w = (Ok tt, w', t) → attempts t = g x) →
  attempts (forM_ l f w).2 `prefix_of` l ≫= g.
Proof.
  intros Hpre Hok. revert w. induction l as [|x l IH]; intros w.
  - by exists [].
  - rewrite run_forM_cons, run_bind, bind_cons.
    pose proof (Hpre x w) as Hx. pose proof (Hok x w) as Hx'.
    destruct (f x w) as [[[[]|a] w1] t1]; simpl in *.
    + specialize (IH w1). destruct (forM_ l f w1) as [[r w2] t2].
      simpl in *. rewrite attempts_app, (Hx' _ _ eq_refl).
      by apply prefix_app.
    + by apply prefix_app_r.
Qed.

(** The body of the outer loop: it ends the process on the client of
    [dst], or it is the inner loop run with that client. *)
Lemma outer_body_cases args config dst w :
  (∃ err,
     clientFor args dst = inl err ∧
     (dstRest ← orFatal (ClientConfig (kubeconfig args) dst);
      dstKube ← orFatal (NewForConfig dstRest);
      forM_ (clusters args) (joinPair args config dst dstKube)) w
       = (Stop (LogFatal (Message err)), w, [])) ∨
  (∃ dstKube,
     clientFor args dst = inr dstKube ∧
     (dstRest ← orFatal (ClientConfig (kubeconfig args) dst);
      dstKube ← orFatal (NewForConfig dstRest);
      forM_ (clusters args) (joinPair args config dst dstKube)) w
       = forM_ (clusters args) (joinPair args config dst dstKube) w).
Proof.
  unfold clientFor.
  destruct (ClientConfig (kubeconfig args) dst) as [err|rest] eqn:Hrest.
  { left. by exists err. }
  rewrite (run_orFatal_bind _ rest) by done.
  destruct (NewForConfig rest) as [err|dstKube] eqn:Hkube.
  { left. by exists err. }
  right. exists dstKube. by rewrite (run_orFatal_bind _ dstKube).
Qed.

Lemma joinClusters_attempts_prefix args config w :
  attempts (joinClusters args config w).2
    `prefix_of` orderedPairs (clusters args).
Proof.
  apply forM__attempts_prefix.
  - intros dst w0.
    destruct (outer_body_cases args config dst w0)
      as [(err & _ & ->)|(dstKube & _ & ->)]; [apply prefix_nil|].
    apply forM__attempts_prefix.
    + intros src w1. by rewrite joinPair_attempts.
    + intros src w1 w2 t H.
      by rewrite <-(joinPair_attempts args config dst dstKube src w1), H.
  - intros dst w0 w1 t.
    destruct (outer_body_cases args config dst w0)
      as [(err & _ & ->)|(dstKube & _ & ->)]; [done|].
    apply forM__ok_attempts. intros src w2 w3 t' H.
    by rewrite <-(joinPair_attempts args config dst dstKube src w2), H.
Qed.

(** X9: however a run ends, the exchanges it has announced are a beginning
    of the ordered pairs of the list in loop order; it never announces the
    exchange of an identifier with itself. *)
Theorem attempts_are_a_prefix_of_the_pairs (args : Args) (w : World) :
  attempts (RunE args w).2 `prefix_of` orderedPairs (clusters args) ∧
  ∀ src dst, (src, dst) ∈ attempts (RunE args w).2 → src ≠ dst.
Proof.
  assert (attempts (RunE args w).2 `prefix_of` orderedPairs (clusters args))
    as Hpre.
  { unfold RunE.
    destruct (GetStartingConfig _ _) as [|config]; [apply prefix_nil|].
    rewrite joinBody_run.
    pose proof (joinClusters_attempts_prefix args config w).
    by destruct (joinClusters args config w) as [[[[]|a] w1] t1]. }
  split; [done|]. intros src dst Hin. destruct Hpre as [k Hk].
  eapply elem_of_orderedPairs. rewrite Hk. apply elem_of_app. by left.
Qed.

(** ** The flags the exchange does not read *)

(** X10: the value of the namespace flag has no effect on the join: the
    run is the same for every value, and every request is made in the
    namespace istio-system. *)
Theorem namespace_flag_is_ignored (args : Args) (ns : string) (w : World) :
  RunE (withNamespace args ns) w = RunE args w ∧
  Forall (λ e, match e with
               | Api _ c => callNamespace c = "istio-system"
               | Stdout _ => True
               end) (RunE (withNamespace args ns) w).2.
Proof.
  split; [reflexivity|].
  change (RunE (withNamespace args ns) w) with (RunE args w).
  unfold RunE. destruct (GetStartingConfig _ _) as [|config]; [constructor|].
  rewrite joinBody_run.
  assert (traceAll (λ e, match e with
                         | Api _ c => callNamespace c = "istio-system"
                         | Stdout _ => True
                         end) (joinClusters args config)) as Hall.
  { apply traceAll_forM_. intros dst _. walk_trace.
    apply traceAll_forM_. intros src _. unfold joinPair.
    walk_trace; done. }
  specialize (Hall w).
  by destruct (joinClusters args config w) as [[[[]|a] w1] t1].
Qed.

(** X11: the context flag is read only to load the starting
    configuration: two values under which the same configuration is loaded
    give the same run, the clients being built for the listed identifiers
    themselves. *)
Theorem context_flag_only_selects_the_configuration
    (args : Args) (c : string) (w : World) :
  GetStartingConfig (kubeconfig args) c
    = GetStartingConfig (kubeconfig args) (context args) →
  RunE (withContext args c) w = RunE args w.
Proof.
  intros Hcfg. unfold RunE.
  change (kubeconfig (withContext args c)) with (kubeconfig args).
  change (context (withContext args c)) with c.
  rewrite Hcfg. destruct (GetStartingConfig _ _) as [|config]; [done|].
  reflexivity.
Qed.

(** ** The requests of a whole run *)

Lemma joinClusters_run_events args config :
  traceAll (runEvent args) (joinClusters args config).
Proof.
  apply traceAll_forM_. intros dst Hdst. walk_trace.
  apply traceAll_forM_. intros src Hsrc. unfold joinPair.
  walk_trace; try done.
  all: split; [done|]; split.
  all: try (exists src; split; [done|]; unfold clientFor;
            by repeat match goal with
               | H : ClientConfig _ _ = _ |- _ => rewrite H
               end).
  all: try (exists dst; split; [done|]; unfold clientFor;
            by repeat match goal with
               | H : ClientConfig _ _ = _ |- _ => rewrite H
               end).
  all: try done.
  all: by exists src.
Qed.

(** X12: every request of a whole run is made in istio-system on the
    client built for one of the listed identifiers, and every create or
    patch is about a secret named istio-mc-<id> for a listed identifier. *)
Theorem requests_of_a_run (args : Args) (w : World) :
  Forall (runEvent args) (RunE args w).2.
Proof.
  unfold RunE. destruct (GetStartingConfig _ _) as [|config]; [constructor|].
  rewrite joinBody_run. pose proof (joinClusters_run_events args config w).
  by destruct (joinClusters args config w) as [[[[]|a] w1] t1].
Qed.

End Exchange.

(** * Further properties on the in-memory server *)

Section InMemoryRuns.

Context (cfg : api.Config).

Local Abbreviation K := (Mem.kube cfg).

#[local] Existing Instance grows_preorder.
#[local] Arguments srcSecret : simpl never.
#[local] Arguments Mem.merge : simpl never.

Lemma joinClusters_grows args config :
  preserves (K:=K) Mem.grows (joinClusters (K:=K) args config).
Proof.
  apply preserves_forM_; [apply _|]. intros dst.
  apply preserves_bind; [apply _|apply preserves_orFatal; apply _|].
  intros rest.
  apply preserves_bind; [apply _|apply preserves_orFatal; apply _|].
  intros dstKube. apply preserves_forM_; [apply _|].
  intros src. apply joinPair_grows.
Qed.

Lemma grows_cases (w w' : gmap string Mem.Cluster) (h : string) :
  Mem.grows w w' →
  match w !! h, w' !! h with
  | None, None => True
  | Some c, Some c' =>
      Mem.serviceAccounts c' = Mem.serviceAccounts c ∧
      Mem.createDenied c' = Mem.createDenied c ∧
      Mem.patchDenied c' = Mem.patchDenied c ∧
      ∀ k s, Mem.secrets c !! k = Some s →
             ∃ s', Mem.secrets c' !! k = Some s' ∧ v1.Data s' = v1.Data s
  | _, _ => False
  end.
Proof.
  intros Hg. specialize (Hg h).
  destruct Hg as [c c' (Ha & Hc & Hp & Hs)|]; [|done].
  split_and!; try done. intros k s Hk.
  destruct (Hs k s Hk) as (s' & Hs' & Hd & _). eauto.
Qed.

(** X13: on the in-memory server, however the run ends, every cluster is
    still there with the service accounts and write rules it had, and with
    every secret it had, its data unchanged: nothing is deleted or rolled
    back, and no source credential is altered. *)
Theorem run_keeps_accounts_and_secret_data
    (args : Args) (w : gmap string Mem.Cluster) (h : string) :
  match w !! h, (RunE (K:=K) args w).1.2 !! h with
  | None, None => True
  | Some c, Some c' =>
      Mem.serviceAccounts c' = Mem.serviceAccounts c ∧
      Mem.createDenied c' = Mem.createDenied c ∧
      Mem.patchDenied c' = Mem.patchDenied c ∧
      ∀ k s, Mem.secrets c !! k = Some s →
             ∃ s', Mem.secrets c' !! k = Some s' ∧ v1.Data s' = v1.Data s
  | _, _ => False
  end.
Proof.
  apply grows_cases. rewrite RunE_mem.
  pose proof (joinClusters_grows args cfg w) as H.
  by destruct (joinClusters (K:=K) args cfg w) as [[[[]|a] w1] t1].
Qed.

(** The answer of the in-memory server to the create of a completed
    exchange, and the clusters after the exchange. *)
Lemma pair_write_cases (args : Args) (dst dstKube src : string)
    (w w' : gmap string Mem.Cluster) (t : list (@Event K))
    (dc : Mem.Cluster) :
  src ≠ dst →
  w !! dstKube = Some dc →
  Mem.createDenied dc = None →
  Mem.patchDenied dc = None →
  joinPair (K:=K) args cfg dst dstKube src w = (Ok tt, w', t) →
  match Mem.secrets dc !! ("istio-system", "istio-mc-" +:+ src) with
  | None =>
      w' = <[dstKube :=
               Mem.withSecrets dc
                 (<[("istio-system", "istio-mc-" +:+ src) :=
                      srcSecret src "istio-system"]> (Mem.secrets dc))]> w
  | Some old =>
      w' = <[dstKube :=
               Mem.withSecrets dc
                 (<[("istio-system", "istio-mc-" +:+ src) :=
                      Mem.merge (srcSecret src "istio-system") old]>
                    (Mem.secrets dc))]> w
  end.
Proof.
  intros Hne Hdc Hcd Hpd Hrun.
  apply (joinPair_ok_inv (K:=K)) in Hrun
    as (srcKube & sa & ref & ps & result & err & w1 & _ & _ & _ & _ &
        _ & _ & _ & Hcr & Hend); [|done].
  change (Secrets_Create (Kube:=K)) with Mem.createSecret in Hcr.
  unfold Mem.createSecret in Hcr. rewrite Hdc, Hcd in Hcr.
  change (v1.Name (srcSecret src "istio-system"))
    with ("istio-mc-" +:+ src) in Hcr.
  destruct (Mem.secrets dc !! ("istio-system", "istio-mc-" +:+ src))
    as [old|] eqn:Hold; injection Hcr as <- <- <-.
  - unfold errors.IsAlreadyExists, Mem.errAlreadyExists in Hend.
    cbn [Reason] in Hend. rewrite bool_decide_eq_true_2 in Hend by done.
    destruct Hend as (p & res & err' & [= <-] & Hpa).
    change (Secrets_Patch (Kube:=K)) with Mem.patchSecret in Hpa.
    unfold Mem.patchSecret in Hpa. rewrite Hdc, Hpd, Hold in Hpa.
    by injection Hpa as <- <- <-.
  - cbn [errors.IsAlreadyExists] in Hend. by subst w'.
Qed.

(** X14: on the in-memory server, a completed exchange towards a writable
    destination that had no istio-mc-<src> leaves there exactly the secret
    with name, namespace and label and no data; the other secrets of the
    destination and the other clusters are as they were. *)
Theorem fresh_destination_stores_the_bare_secret
    (args : Args) (dst src dstKube : string)
    (w w' : gmap string Mem.Cluster) (t : list (@Event K)) :
  src ≠ dst →
  Mem.writable w dstKube →
  Mem.secretOn w dstKube ("istio-mc-" +:+ src) = None →
  joinPair (K:=K) args cfg dst dstKube src w = (Ok tt, w', t) →
  Mem.secretOn w' dstKube ("istio-mc-" +:+ src)
    = Some (srcSecret src "istio-system") ∧
  (∀ name, name ≠ "istio-mc-" +:+ src →
           Mem.secretOn w' dstKube name = Mem.secretOn w dstKube name) ∧
  (∀ h, h ≠ dstKube → w' !! h = w !! h).
Proof.
  intros Hne (dc & Hdc & Hcd & Hpd) Hfresh Hrun.
  pose proof (pair_write_cases _ _ _ _ _ _ _ _ Hne Hdc Hcd Hpd Hrun) as Hw.
  unfold Mem.secretOn in *. rewrite Hdc in Hfresh |- *.
  rewrite Hfresh in Hw. subst w'. split_and!.
  - rewrite lookup_insert_eq. cbn [Mem.secrets Mem.withSecrets].
    by rewrite lookup_insert_eq.
  - intros name Hname. rewrite lookup_insert_eq.
    cbn [Mem.secrets Mem.withSecrets].
    rewrite lookup_insert_ne; [done|]. by intros [= ?].
  - intros h Hh. by rewrite lookup_insert_ne.
Qed.

(** X15: on the in-memory server, a completed exchange towards a writable
    destination that held istio-mc-<src> already keeps the data, string
    data and type of that secret and sets its label istio/multiCluster to
    true, keeping its other labels. *)
Theorem existing_destination_secret_keeps_its_data
    (args : Args) (dst src dstKube : string) (old : v1.Secret)
    (w w' : gmap string Mem.Cluster) (t : list (@Event K)) :
  src ≠ dst →
  Mem.writable w dstKube →
  Mem.secretOn w dstKube ("istio-mc-" +:+ src) = Some old →
  joinPair (K:=K) args cfg dst dstKube src w = (Ok tt, w', t) →
  ∃ s,
    Mem.secretOn w' dstKube ("istio-mc-" +:+ src) = Some s ∧
    v1.Data s = v1.Data old ∧
    v1.StringData s = v1.StringData old ∧
    v1.Type_ s = v1.Type_ old ∧
    metav1.Labels (v1.ObjectMeta s)
      = <["istio/multiCluster" := "true"]>
          (metav1.Labels (v1.ObjectMeta old)).
Proof.
  intros Hne (dc & Hdc & Hcd & Hpd) Hold Hrun.
  pose proof (pair_write_cases _ _ _ _ _ _ _ _ Hne Hdc Hcd Hpd Hrun) as Hw.
  unfold Mem.secretOn in *. rewrite Hdc in Hold.
  rewrite Hold in Hw. subst w'.
  exists (Mem.merge (srcSecret src "istio-system") old).
  rewrite lookup_insert_eq. cbn [Mem.secrets Mem.withSecrets].
  rewrite lookup_insert_eq. unfold Mem.merge, srcSecret.
  cbn [v1.Data v1.StringData v1.Type_ v1.ObjectMeta metav1.Labels].
  rewrite !(left_id_L ∅ (∪)), decide_True by done.
  by rewrite insert_union_singleton_l.
Qed.

End InMemoryRuns.

(** * The client configuration, the list command and the checks *)

Section Configuration.

(** X16: the explicit path of the loading rules is empty or is the given
    path, and then the file could be examined and is not empty; a usable
    path is kept as it is; the context override is the given context; and
    building again from the resulting path changes nothing. *)
Theorem BuildClientConfig_keeps_usable_paths_only
    (stat : string → error + clientcmd.FileInfo) (kubeconfig context : string) :
  (clientcmd.ExplicitPath
     (clientcmd.loadingRules (BuildClientConfig stat kubeconfig context))
     = "" ∨
   clientcmd.ExplicitPath
     (clientcmd.loadingRules (BuildClientConfig stat kubeconfig context))
     = kubeconfig ∧
   ∃ info, stat kubeconfig = inr info ∧ clientcmd.Size info ≠ 0%Z) ∧
  ((∃ info, stat kubeconfig = inr info ∧ clientcmd.Size info ≠ 0%Z) →
   clientcmd.ExplicitPath
     (clientcmd.loadingRules (BuildClientConfig stat kubeconfig context))
     = kubeconfig) ∧
  clientcmd.CurrentContext
    (clientcmd.overrides (BuildClientConfig stat kubeconfig context))
    = context ∧
  BuildClientConfig stat
    (clientcmd.ExplicitPath
       (clientcmd.loadingRules (BuildClientConfig stat kubeconfig context)))
    context
    = BuildClientConfig stat kubeconfig context.
Proof.
  unfold BuildClientConfig. cbn [clientcmd.loadingRules clientcmd.ExplicitPath
    clientcmd.overrides clientcmd.CurrentContext].
  destruct (decide (kubeconfig = "")) as [->|Hne].
  { split_and!; [by left|by intros|done|done]. }
  destruct (stat kubeconfig) as [err|info] eqn:Hstat.
  { split_and!; [by left|by intros (? & [=] & _)|done|done]. }
  destruct (decide (clientcmd.Size info = 0%Z)) as [H0|Hsize].
  { split_and!; [by left| |done|done].
    intros (info' & [= <-] & Hsz). done. }
  split_and!; [right; eauto|done|done|].
  rewrite decide_False by done. rewrite Hstat. by rewrite decide_False.
Qed.

End Configuration.

Section Listing.

Context `{K : Kube}.

(** X17: when the starting configuration cannot be loaded, the list
    command returns that error and writes nothing.  Otherwise the table is
    the header followed by one row per context of the configuration and no
    other row, each with the name, cluster, user and namespace of its
    context, and the command returns what the flush of the table returns. *)
Theorem list_prints_one_row_per_context
    (flush : list (list string) → option error) (args : Args) :
  match GetStartingConfig (kubeconfig args) (context args) with
  | inl err => listRunE flush args = (ReturnErr err, [])
  | inr config =>
      ∃ rows,
        (listRunE flush args).2 = listHeader :: rows ∧
        length rows = size (api.Contexts config) ∧
        NoDup rows ∧
        (∀ row, row ∈ rows ↔
                ∃ name context,
                  api.Contexts config !! name = Some context ∧
                  row = [name; api.ctx_Cluster context;
                         api.ctx_AuthInfo context;
                         api.ctx_Namespace context]) ∧
        (listRunE flush args).1 =
          match flush (listHeader :: rows) with
          | Some err => ReturnErr err
          | None => ReturnNil
          end
  end.
Proof.
  unfold listRunE. destruct (GetStartingConfig _ _) as [err|config]; [done|].
  eexists. split; [reflexivity|]. split_and!.
  - by rewrite length_fmap, length_map_to_list.
  - apply NoDup_fmap_2_strong; [|apply NoDup_map_to_list].
    intros [n1 c1] [n2 c2] H1%elem_of_map_to_list H2%elem_of_map_to_list.
    intros [= -> _ _ _]. congruence.
  - intros row. rewrite list_elem_of_fmap. split.
    + intros ([name ctx] & -> & Hin%elem_of_map_to_list). by exists name, ctx.
    + intros (name & ctx & Hin & ->). exists (name, ctx).
      split; [done|]. by apply elem_of_map_to_list.
  - done.
Qed.

End Listing.

Section PreflightFacts.

Context `{K : Kube}.

(** The checks of a cluster end in one of two ways. *)
Lemma preflightCluster_cases args config cluster w :
  (∃ cs t,
     preflightCluster args config cluster w = (Ok (Some cs), w, t) ∧
     passes args config w cluster cs ∧
     t = [Api cs (CGetNamespace "istio-system");
          Stdout (LFoundNamespace cluster)]) ∨
  (∃ t,
     preflightCluster args config cluster w = (Ok None, w, t) ∧
     (∀ cs, ¬ passes args config w cluster cs) ∧
     omap lineCluster t = [cluster] ∧
     (api.Contexts config !! cluster = None →
      t = [Stdout (LConfigNotFound cluster)]) ∧
     Forall (λ e, match e with
                  | Stdout _ => True
                  | Api cs c =>
                      c = CGetNamespace "istio-system" ∧
                      clientFor args cluster = inr cs
                  end) t).
Proof.
  unfold preflightCluster, passes, clientFor.
  destruct (api.Contexts config !! cluster) as [ctx|] eqn:Hctx.
  2: { right. eexists. split; [reflexivity|].
       split_and!; [|done|done|by repeat constructor].
       intros cs ([? [=]] & _). }
  destruct (ClientConfig (kubeconfig args) cluster) as [err|rest] eqn:Hrest.
  { right. eexists. split; [reflexivity|].
    split_and!; [|done|done|by repeat constructor].
    intros cs (_ & [=] & _). }
  destruct (NewForConfig rest) as [err|cs] eqn:Hcs.
  { right. eexists. split; [reflexivity|].
    split_and!; [|done|done|by repeat constructor].
    intros cs (_ & [=] & _). }
  rewrite run_bind. unfold getNamespace.
  destruct (Namespaces_Get cs "istio-system" w) as [err|ns] eqn:Hns.
  - right. eexists. split; [reflexivity|].
    split_and!; [|done|done|].
    + intros cs' (_ & [= <-] & ns & Hns'). congruence.
    + by repeat constructor.
  - left. exists cs. eexists. split; [reflexivity|]. split; [|done].
    split_and!; eauto.
Qed.

(** The loop over the clusters never ends the process; it reports every
    cluster, stores the client of those that pass and raises [notFound]
    for the others. *)
Lemma preflightLoop_spec args config l csm notFound w :
  ∃ csm' notFound' t,
    preflightLoop args config l csm notFound w
      = (Ok (csm', notFound'), w, t) ∧
    omap lineCluster t = l ∧
    Forall (λ e, match e with
                 | Stdout _ => True
                 | Api cs c =>
                     c = CGetNamespace "istio-system" ∧
                     ∃ cluster, cluster ∈ l ∧ clientFor args cluster = inr cs
                 end) t ∧
    (notFound' = true ↔
     notFound = true ∨
     ∃ c, c ∈ l ∧ ∀ cs, ¬ passes args config w c cs) ∧
    (∀ c cs, c ∈ l → passes args config w c cs → csm' !! c = Some cs) ∧
    (∀ c, c ∉ l → csm' !! c = csm !! c) ∧
    (∀ c, c ∈ l → api.Contexts config !! c = None →
          Stdout (LConfigNotFound c) ∈ t).
Proof.
  revert csm notFound. induction l as [|x l IH]; intros csm notFound.
  { exists csm, notFound, []. split_and!; try done.
    - split; [by left|]. intros [?|(c & Hc%elem_of_nil & _)]; done.
    - by intros ?? ?%elem_of_nil.
    - by intros ? ?%elem_of_nil. }
  cbn [preflightLoop]. rewrite run_bind.
  destruct (preflightCluster_cases args config x w)
    as [(cs & t1 & -> & Hpass & ->)|(t1 & -> & Hfail & Hline & Hmiss & Hev)].
  - destruct (IH (<[x := cs]> csm) notFound)
      as (csm' & nf' & t2 & -> & Hlines & Hevs & Hnf & Hin & Hout & Hnotfound).
    exists csm', nf'. eexists. split; [reflexivity|]. split_and!.
    + by rewrite omap_app, Hlines.
    + simpl. constructor.
      { split; [done|]. exists x. split; [left|apply Hpass]. }
      constructor; [done|]. eapply Forall_impl; [exact Hevs|].
      intros [cs' c|]; [|done]. intros [-> (cl & Hcl & Hk)].
      split; [done|]. exists cl. split; [by right|done].
    + rewrite Hnf. split; [intros [?|(c & Hc & Hno)]|intros [?|(c & Hc & Hno)]].
      * by left.
      * right. exists c. split; [by right|done].
      * by left.
      * apply elem_of_cons in Hc as [->|Hc]; [by destruct (Hno cs)|].
        right. by exists c.
    + intros c cs' [->|Hc]%elem_of_cons Hp.
      * assert (cs' = cs) as ->.
        { destruct Hp as (_ & H1 & _), Hpass as (_ & H2 & _). congruence. }
        destruct (decide (x ∈ l)); [by apply Hin|].
        by rewrite Hout, lookup_insert_eq.
      * by apply Hin.
    + intros c [Hx Hc]%not_elem_of_cons.
      by rewrite Hout, lookup_insert_ne.
    + intros c [->|Hc]%elem_of_cons Hctx.
      * destruct Hpass as ([? Hsome] & _). congruence.
      * simpl. do 2 right. by apply Hnotfound.
  - destruct (IH csm true)
      as (csm' & nf' & t2 & -> & Hlines & Hevs & Hnf & Hin & Hout & Hnotfound).
    exists csm', nf'. eexists. split; [reflexivity|]. split_and!.
    + by rewrite omap_app, Hline, Hlines.
    + apply Forall_app. split.
      * eapply Forall_impl; [exact Hev|]. intros [cs' c|]; [|done].
        intros [-> Hk]. split; [done|]. exists x. split; [left|done].
      * eapply Forall_impl; [exact Hevs|]. intros [cs' c|]; [|done].
        intros [-> (cl & Hcl & Hk)].
        split; [done|]. exists cl. split; [by right|done].
    + rewrite Hnf. split; [intros _|by intros _; left].
      destruct (decide (notFound = true)) as [|Hnf'%not_true_is_false];
        [by left|].
      right. exists x. split; [left|done].
    + intros c cs' [->|Hc]%elem_of_cons Hp; [by destruct (Hfail cs')|].
      by apply Hin.
    + intros c [Hx Hc]%not_elem_of_cons. by apply Hout.
    + intros c [->|Hc]%elem_of_cons Hctx.
      * rewrite (Hmiss Hctx). apply elem_of_app. left. left.
      * apply elem_of_app. right. by apply Hnotfound.
Qed.

Lemma preflight_two args config w :
  length (clusters args) = 2 →
  preflight args config w =
    (let '(r, w', t) :=
       preflightLoop args config (clusters args) ∅ false w in
     match r with
     | Ok (csm, true) => (Stop (OsExit 1), w', t)
     | Ok (csm, false) => (Ok csm, w', t)
     | Stop a => (Stop a, w', t)
     end).
Proof.
  intros Hlen. unfold preflight. rewrite decide_True by done.
  rewrite run_ret_bind, run_bind.
  destruct (preflightLoop args config (clusters args) ∅ false w)
    as [[[[csm [|]]|a] w1] t1]; simpl; by rewrite ?app_nil_r.
Qed.

(** X18: with two identifiers, the checks report every listed cluster
    once, in list order, whether earlier clusters passed or failed; with
    another number they print the "only two clusters" line and exit with
    status 1 before any check. *)
Theorem preflight_reports_every_cluster
    (args : Args) (config : api.Config) (w : World) :
  (length (clusters args) = 2 →
   omap lineCluster (preflight args config w).2 = clusters args) ∧
  (length (clusters args) ≠ 2 →
   preflight args config w =
     (Stop (OsExit 1), w, [Stdout (LOnlyTwo (length (clusters args)))])).
Proof.
  split; intros Hlen.
  - rewrite preflight_two by done.
    destruct (preflightLoop_spec args config (clusters args) ∅ false w)
      as (csm' & nf' & t & -> & Hlines & _). by destruct nf'.
  - unfold preflight. by rewrite decide_False.
Qed.

(** X19: with two identifiers, the checks continue, with a client stored
    for every listed cluster and for no other, when every cluster has a
    context, a client and the istio-system namespace; they exit with status
    1 when some cluster fails one of these. *)
Theorem preflight_passes_or_exits
    (args : Args) (config : api.Config) (w : World) :
  length (clusters args) = 2 →
  ((∀ c, c ∈ clusters args → ∃ cs, passes args config w c cs) →
   ∃ csm t,
     preflight args config w = (Ok csm, w, t) ∧
     (∀ c cs, c ∈ clusters args → passes args config w c cs →
              csm !! c = Some cs) ∧
     (∀ c, c ∉ clusters args → csm !! c = None)) ∧
  ((∃ c, c ∈ clusters args ∧ ∀ cs, ¬ passes args config w c cs) →
   ∃ t, preflight args config w = (Stop (OsExit 1), w, t)).
Proof.
  intros Hlen. rewrite preflight_two by done.
  destruct (preflightLoop_spec args config (clusters args) ∅ false w)
    as (csm' & nf' & t & -> & _ & _ & Hnf & Hin & Hout & _).
  split.
  - intros Hall. destruct nf'.
    + destruct Hnf as [[?|(c & Hc & Hno)] _]; [done|done|].
      destruct (Hall c Hc) as [cs Hp]. by destruct (Hno cs).
    + exists csm', t. split_and!; [done|done|].
      intros c Hc. by rewrite Hout.
  - intros Hbad. destruct nf'; [by eexists|].
    destruct Hnf as [_ Hnf]. by discriminate Hnf; right.
Qed.

(** X20: the only requests of the checks are gets of the namespace
    istio-system on clients of listed clusters; the clusters are as they
    were. *)
Theorem preflight_only_gets_namespaces
    (args : Args) (config : api.Config) (w : World) :
  Forall (preflightEvent args) (preflight args config w).2 ∧
  (preflight args config w).1.2 = w.
Proof.
  destruct (decide (length (clusters args) = 2)) as [Hlen|Hlen].
  - rewrite preflight_two by done.
    destruct (preflightLoop_spec args config (clusters args) ∅ false w)
      as (csm' & nf' & t & -> & _ & Hev & _). by destruct nf'.
  - unfold preflight. rewrite decide_False by done. simpl.
    split; [by repeat constructor|done].
Qed.

(** X21: with two identifiers of which one is not a context of the
    configuration, the checks print the "configuration not found" line
    naming it and exit with status 1. *)
Theorem preflight_names_the_missing_context
    (args : Args) (config : api.Config) (c : string) (w : World) :
  length (clusters args) = 2 →
  c ∈ clusters args →
  api.Contexts config !! c = None →
  (preflight args config w).1.1 = Stop (OsExit 1) ∧
  Stdout (LConfigNotFound c) ∈ (preflight args config w).2.
Proof.
  intros Hlen Hc Hctx. rewrite preflight_two by done.
  destruct (preflightLoop_spec args config (clusters args) ∅ false w)
    as (csm' & nf' & t & -> & _ & _ & Hnf & _ & _ & Hmiss).
  assert (nf' = true) as ->.
  { apply Hnf. right. exists c. split; [done|].
    intros cs ([? Hsome] & _). congruence. }
  split; [done|]. by apply Hmiss.
Qed.

(** The check embedded at the head of the disabled block is this one,
    without the map of clients. *)
Lemma legacyCheckCluster_preflight args config cluster w :
  legacyCheckCluster args config cluster w =
    (let '(r, w', t) := preflightCluster args config cluster w in
     (match r with
      | Ok None => Ok true
      | Ok (Some _) => Ok false
      | Stop a => Stop a
      end, w', t)).
Proof.
  unfold legacyCheckCluster, preflightCluster.
  destruct (api.Contexts config !! cluster); [|done].
  destruct (ClientConfig (kubeconfig args) cluster) as [|rest]; [done|].
  destruct (NewForConfig rest) as [|cs]; [done|].
  rewrite !run_bind. unfold getNamespace.
  by destruct (Namespaces_Get cs "istio-system" w).
Qed.

Lemma legacyCheckClusters_preflight args config l csm notFound w :
  legacyCheckClusters args config l notFound w =
    (let '(r, w', t) := preflightLoop args config l csm notFound w in
     (match r with Ok (_, nf) => Ok nf | Stop a => Stop a end, w', t)).
Proof.
  revert csm notFound w. induction l as [|x l IH]; intros csm notFound w.
  { done. }
  cbn [legacyCheckClusters preflightLoop].
  rewrite !run_bind, legacyCheckCluster_preflight.
  destruct (preflightCluster_cases args config x w)
    as [(cs & t1 & -> & _)|(t1 & -> & _)].
  - rewrite (IH (<[x := cs]> csm)). cbn [orb].
    by destruct (preflightLoop args config l _ notFound w) as [[[[]|] ?] ?].
  - rewrite (IH csm). cbn [orb].
    by destruct (preflightLoop args config l _ true w) as [[[[]|] ?] ?].
Qed.

Lemma legacyChecks_preflight args config w :
  legacyChecks args config w =
    (let '(r, w', t) := preflight args config w in
     (match r with Ok _ => Ok tt | Stop a => Stop a end, w', t)).
Proof.
  unfold legacyChecks, preflight.
  destruct (decide (length (clusters args) = 2)); [|done].
  rewrite !run_ret_bind, !run_bind.
  rewrite (legacyCheckClusters_preflight args config _ ∅).
  destruct (preflightLoop args config (clusters args) ∅ false w)
    as [[[[csm [|]]|a] w1] t1]; done.
Qed.

End PreflightFacts.

(** * The further properties at concrete inputs *)

Section FurtherScenarios.

Local Abbreviation K3 := (Mem.kube Mem.cfg3).

Lemma account_get_error_is_fatal_witness :
  "a" ≠ "b" ∧
  is_Some (serverOf Mem.cfg3 "b") ∧
  clientFor (K:=K3) (Mem.join ["a"; "b"]) "a" = inr "cluster-a" ∧
  ServiceAccounts_Get (Kube:=K3) "cluster-a" "istio-system"
    "istio-pilot-service-account" MemRuns.worldNoAccount
    = inl (Mem.errNotFound "istio-pilot-service-account") ∧
  joinPair (K:=K3) (Mem.join ["a"; "b"]) Mem.cfg3 "b" "cluster-b" "a"
    MemRuns.worldNoAccount
    = (Stop (LogFatal "istio-pilot-service-account not found"),
       MemRuns.worldNoAccount,
       [Stdout (K:=K3) (LJoining "a" "b");
        Api (K:=K3) "cluster-a"
          (CGetServiceAccount (K:=K3) "istio-system"
             "istio-pilot-service-account")]).
Proof.
  assert ("a" ≠ "b") as Hne by discriminate.
  assert (is_Some (serverOf Mem.cfg3 "b")) as Hsrv by (eexists; reflexivity).
  split_and!; [exact Hne|exact Hsrv|reflexivity|reflexivity|].
  exact (account_get_error_is_fatal (K:=K3) (Mem.join ["a"; "b"]) Mem.cfg3
           "b" "a" "cluster-b" "cluster-a"
           (Mem.errNotFound "istio-pilot-service-account")
           MemRuns.worldNoAccount Hne Hsrv eq_refl eq_refl).
Defined.

Lemma secret_get_error_is_fatal_witness :
  "a" ≠ "b" ∧
  is_Some (serverOf Mem.cfg3 "b") ∧
  clientFor (K:=K3) (Mem.join ["a"; "b"]) "a" = inr "cluster-a" ∧
  ServiceAccounts_Get (Kube:=K3) "cluster-a" "istio-system"
    "istio-pilot-service-account" MemRuns.worldDangling
    = inr (Mem.pilotAccount ["lost-token"]) ∧
  v1.Secrets (Mem.pilotAccount ["lost-token"])
    = [{| v1.ref_Name := "lost-token" |}] ∧
  Secrets_Get (Kube:=K3) "cluster-a" "istio-system" "lost-token"
    MemRuns.worldDangling = inl (Mem.errNotFound "lost-token") ∧
  joinPair (K:=K3) (Mem.join ["a"; "b"]) Mem.cfg3 "b" "cluster-b" "a"
    MemRuns.worldDangling
    = (Stop (LogFatal "lost-token not found"), MemRuns.worldDangling,
       [Stdout (K:=K3) (LJoining "a" "b");
        Api (K:=K3) "cluster-a"
          (CGetServiceAccount (K:=K3) "istio-system"
             "istio-pilot-service-account");
        Api (K:=K3) "cluster-a"
          (CGetSecret (K:=K3) "istio-system" "lost-token")]).
Proof.
  assert ("a" ≠ "b") as Hne by discriminate.
  assert (is_Some (serverOf Mem.cfg3 "b")) as Hsrv by (eexists; reflexivity).
  split_and!; [exact Hne|exact Hsrv|reflexivity..|].
  exact (secret_get_error_is_fatal (K:=K3) (Mem.join ["a"; "b"]) Mem.cfg3
           "b" "a" "cluster-b" "cluster-a" (Mem.pilotAccount ["lost-token"])
           {| v1.ref_Name := "lost-token" |} (Mem.errNotFound "lost-token")
           MemRuns.worldDangling Hne Hsrv eq_refl eq_refl eq_refl eq_refl).
Defined.

Lemma source_client_error_is_fatal_witness :
  "c" ≠ "a" ∧
  is_Some (serverOf Mem.cfg3 "a") ∧
  clientFor (K:=K3) (Mem.join ["a"; "c"]) "c" = inl (Mem.errNoContext "c") ∧
  joinPair (K:=K3) (Mem.join ["a"; "c"]) Mem.cfg3 "a" "cluster-a" "c"
    Mem.world3
    = (Stop (LogFatal "context c does not exist"), Mem.world3,
       [Stdout (K:=K3) (LJoining "c" "a")]).
Proof.
  assert ("c" ≠ "a") as Hne by discriminate.
  assert (is_Some (serverOf Mem.cfg3 "a")) as Hsrv by (eexists; reflexivity).
  split_and!; [exact Hne|exact Hsrv|reflexivity|].
  exact (source_client_error_is_fatal (K:=K3) (Mem.join ["a"; "c"]) Mem.cfg3
           "a" "c" "cluster-a" (Mem.errNoContext "c") Mem.world3
           Hne Hsrv eq_refl).
Defined.

Lemma destination_client_error_is_fatal_witness :
  GetStartingConfig (Kube:=K3) "" "" = inr Mem.cfg3 ∧
  clusters (Mem.join ["c"; "a"]) = "c" :: ["a"] ∧
  clientFor (K:=K3) (Mem.join ["c"; "a"]) "c" = inl (Mem.errNoContext "c") ∧
  RunE (K:=K3) (Mem.join ["c"; "a"]) Mem.world3
    = (Aborted (LogFatal "context c does not exist"), Mem.world3, []).
Proof.
  split_and!; [reflexivity..|].
  exact (destination_client_error_is_fatal (K:=K3) (Mem.join ["c"; "a"])
           Mem.cfg3 "c" ["a"] (Mem.errNoContext "c") Mem.world3
           eq_refl eq_refl eq_refl).
Defined.

Lemma destination_answers_do_not_stop_the_pair_witness :
  "a" ≠ "b" ∧
  is_Some (serverOf Mem.cfg3 "b") ∧
  clientFor (K:=K3) (Mem.join ["a"; "b"]) "a" = inr "cluster-a" ∧
  ServiceAccounts_Get (Kube:=K3) "cluster-a" "istio-system"
    "istio-pilot-service-account" Mem.worldNoCreate
    = inr (Mem.pilotAccount ["pilot-token"]) ∧
  v1.Secrets (Mem.pilotAccount ["pilot-token"])
    = [{| v1.ref_Name := "pilot-token" |}] ∧
  Secrets_Get (Kube:=K3) "cluster-a" "istio-system" "pilot-token"
    Mem.worldNoCreate
    = inr (Mem.tokenSecret "pilot-token" Mem.credentials) ∧
  is_Some (v1.Data (Mem.tokenSecret "pilot-token" Mem.credentials)
             !! "ca.crt") ∧
  is_Some (v1.Data (Mem.tokenSecret "pilot-token" Mem.credentials)
             !! "token") ∧
  json_Marshal (Kube:=K3) (srcSecret "a" "istio-system")
    = inr (srcSecret "a" "istio-system") ∧
  (joinPair (K:=K3) (Mem.join ["a"; "b"]) Mem.cfg3 "b" "cluster-b" "a"
     Mem.worldNoCreate).1.1 = Ok tt.
Proof.
  assert ("a" ≠ "b") as Hne by discriminate.
  assert (is_Some (serverOf Mem.cfg3 "b")) as Hsrv by (eexists; reflexivity).
  assert (is_Some (v1.Data (Mem.tokenSecret "pilot-token" Mem.credentials)
                     !! "ca.crt")) as Hca by (eexists; reflexivity).
  assert (is_Some (v1.Data (Mem.tokenSecret "pilot-token" Mem.credentials)
                     !! "token")) as Htk by (eexists; reflexivity).
  split_and!; [exact Hne|exact Hsrv|reflexivity|reflexivity|reflexivity|
               reflexivity|exact Hca|exact Htk|reflexivity|].
  exact (destination_answers_do_not_stop_the_pair (K:=K3)
           (Mem.join ["a"; "b"]) Mem.cfg3 "b" "a" "cluster-b" "cluster-a"
           (Mem.pilotAccount ["pilot-token"])
           {| v1.ref_Name := "pilot-token" |}
           (Mem.tokenSecret "pilot-token" Mem.credentials)
           (srcSecret "a" "istio-system") Mem.worldNoCreate
           Hne Hsrv eq_refl eq_refl eq_refl eq_refl Hca Htk eq_refl).
Defined.

Lemma context_flag_only_selects_the_configuration_witness :
  GetStartingConfig (Kube:=K3) (kubeconfig (Mem.join ["a"; "b"])) "b"
    = GetStartingConfig (Kube:=K3) (kubeconfig (Mem.join ["a"; "b"]))
        (context (Mem.join ["a"; "b"])) ∧
  RunE (K:=K3) (withContext (Mem.join ["a"; "b"]) "b") Mem.world3
    = RunE (K:=K3) (Mem.join ["a"; "b"]) Mem.world3.
Proof.
  split; [reflexivity|].
  exact (context_flag_only_selects_the_configuration (K:=K3)
           (Mem.join ["a"; "b"]) "b" Mem.world3 eq_refl).
Defined.

Lemma world3_writable_b : Mem.writable Mem.world3 "cluster-b".
Proof. exists Mem.healthy. by split_and!. Qed.

Lemma firstPair_completes :
  joinPair (K:=K3) (Mem.join ["a"; "b"]) Mem.cfg3 "b" "cluster-b" "a"
    Mem.world3
    = (Ok tt, MemRuns.firstPair.1.2, MemRuns.firstPair.2).
Proof.
  change (joinPair (K:=K3) (Mem.join ["a"; "b"]) Mem.cfg3 "b" "cluster-b" "a"
            Mem.world3) with MemRuns.firstPair.
  assert (MemRuns.firstPair.1.1 = Ok tt) as H by (vm_compute; reflexivity).
  destruct MemRuns.firstPair as [[r w] t]. simpl in *. by subst.
Qed.

Lemma fresh_destination_stores_the_bare_secret_witness :
  "a" ≠ "b" ∧
  Mem.writable Mem.world3 "cluster-b" ∧
  Mem.secretOn Mem.world3 "cluster-b" "istio-mc-a" = None ∧
  joinPair (K:=K3) (Mem.join ["a"; "b"]) Mem.cfg3 "b" "cluster-b" "a"
    Mem.world3
    = (Ok tt, MemRuns.firstPair.1.2, MemRuns.firstPair.2) ∧
  Mem.secretOn MemRuns.firstPair.1.2 "cluster-b" "istio-mc-a"
    = Some (srcSecret "a" "istio-system") ∧
  (∀ name, name ≠ "istio-mc-a" →
           Mem.secretOn MemRuns.firstPair.1.2 "cluster-b" name
           = Mem.secretOn Mem.world3 "cluster-b" name) ∧
  (∀ h, h ≠ "cluster-b" → MemRuns.firstPair.1.2 !! h = Mem.world3 !! h).
Proof.
  assert ("a" ≠ "b") as Hne by discriminate.
  split_and!; [exact Hne|exact world3_writable_b|reflexivity|
               exact firstPair_completes|..];
    apply (fresh_destination_stores_the_bare_secret Mem.cfg3
             (Mem.join ["a"; "b"]) "b" "a" "cluster-b" Mem.world3
             MemRuns.firstPair.1.2 MemRuns.firstPair.2 Hne world3_writable_b
             eq_refl firstPair_completes).
Defined.

Lemma worldOldSecret_writable_b :
  Mem.writable MemRuns.worldOldSecret "cluster-b".
Proof.
  exists (Mem.withSecret Mem.healthy MemRuns.oldSecret). by split_and!.
Qed.

Lemma secondPair_completes :
  joinPair (K:=K3) (Mem.join ["a"; "b"]) Mem.cfg3 "b" "cluster-b" "a"
    MemRuns.worldOldSecret
    = (Ok tt, MemRuns.secondPair.1.2, MemRuns.secondPair.2).
Proof.
  change (joinPair (K:=K3) (Mem.join ["a"; "b"]) Mem.cfg3 "b" "cluster-b" "a"
            MemRuns.worldOldSecret) with MemRuns.secondPair.
  assert (MemRuns.secondPair.1.1 = Ok tt) as H by (vm_compute; reflexivity).
  destruct MemRuns.secondPair as [[r w] t]. simpl in *. by subst.
Qed.

Lemma existing_destination_secret_keeps_its_data_witness :
  "a" ≠ "b" ∧
  Mem.writable MemRuns.worldOldSecret "cluster-b" ∧
  Mem.secretOn MemRuns.worldOldSecret "cluster-b" "istio-mc-a"
    = Some MemRuns.oldSecret ∧
  joinPair (K:=K3) (Mem.join ["a"; "b"]) Mem.cfg3 "b" "cluster-b" "a"
    MemRuns.worldOldSecret
    = (Ok tt, MemRuns.secondPair.1.2, MemRuns.secondPair.2) ∧
  v1.Data MemRuns.oldSecret
    = {["kubeconfig" := [Byte.x61; Byte.x70; Byte.x69]]} ∧
  v1.StringData MemRuns.oldSecret = {["note" := "kept"]} ∧
  v1.Type_ MemRuns.oldSecret = "Opaque" ∧
  metav1.Labels (v1.ObjectMeta MemRuns.oldSecret) = {["owner" := "ops"]} ∧
  ∃ s,
    Mem.secretOn MemRuns.secondPair.1.2 "cluster-b" "istio-mc-a" = Some s ∧
    v1.Data s = v1.Data MemRuns.oldSecret ∧
    v1.StringData s = v1.StringData MemRuns.oldSecret ∧
    v1.Type_ s = v1.Type_ MemRuns.oldSecret ∧
    metav1.Labels (v1.ObjectMeta s)
      = <["istio/multiCluster" := "true"]>
          (metav1.Labels (v1.ObjectMeta MemRuns.oldSecret)).
Proof.
  assert ("a" ≠ "b") as Hne by discriminate.
  split_and!; [exact Hne|exact worldOldSecret_writable_b|reflexivity|
               exact secondPair_completes|reflexivity..|].
  exact (existing_destination_secret_keeps_its_data Mem.cfg3
           (Mem.join ["a"; "b"]) "b" "a" "cluster-b" MemRuns.oldSecret
           MemRuns.worldOldSecret MemRuns.secondPair.1.2
           MemRuns.secondPair.2 Hne worldOldSecret_writable_b eq_refl
           secondPair_completes).
Defined.

Lemma world3_passes_ab (c : string) :
  c ∈ clusters (Mem.join ["a"; "b"]) →
  ∃ cs, passes (K:=K3) (Mem.join ["a"; "b"]) Mem.cfg3 Mem.world3 c cs.
Proof.
  intros Hc. change (c ∈ ["a"; "b"]) in Hc.
  apply elem_of_cons in Hc as [->|Hc];
    [|apply elem_of_cons in Hc as [->|Hc]; [|by apply elem_of_nil in Hc]].
  - exists "cluster-a".
    split_and!; [by eexists|reflexivity|by eexists].
  - exists "cluster-b".
    split_and!; [by eexists|reflexivity|by eexists].
Qed.

Lemma preflight_passes_or_exits_witness :
  length (clusters (Mem.join ["a"; "b"])) = 2 ∧
  (∀ c, c ∈ clusters (Mem.join ["a"; "b"]) →
        ∃ cs, passes (K:=K3) (Mem.join ["a"; "b"]) Mem.cfg3 Mem.world3 c cs) ∧
  ∃ csm t,
    preflight (K:=K3) (Mem.join ["a"; "b"]) Mem.cfg3 Mem.world3
      = (Ok csm, Mem.world3, t) ∧
    (∀ c cs, c ∈ clusters (Mem.join ["a"; "b"]) →
             passes (K:=K3) (Mem.join ["a"; "b"]) Mem.cfg3 Mem.world3 c cs →
             csm !! c = Some cs) ∧
    (∀ c, c ∉ clusters (Mem.join ["a"; "b"]) → csm !! c = None).
Proof.
  split_and!; [reflexivity|exact world3_passes_ab|].
  exact (proj1 (preflight_passes_or_exits (K:=K3) (Mem.join ["a"; "b"])
                  Mem.cfg3 Mem.world3 eq_refl) world3_passes_ab).
Defined.

Lemma preflight_names_the_missing_context_witness :
  length (clusters (Mem.join ["a"; "c"])) = 2 ∧
  "c" ∈ clusters (Mem.join ["a"; "c"]) ∧
  api.Contexts Mem.cfg3 !! "c" = None ∧
  (preflight (K:=K3) (Mem.join ["a"; "c"]) Mem.cfg3 Mem.world3).1.1
    = Stop (OsExit 1) ∧
  Stdout (K:=K3) (LConfigNotFound "c")
    ∈ (preflight (K:=K3) (Mem.join ["a"; "c"]) Mem.cfg3 Mem.world3).2.
Proof.
  assert ("c" ∈ clusters (Mem.join ["a"; "c"])) as Hin by do 2 constructor.
  split_and!; [reflexivity|exact Hin|reflexivity|..];
    apply (preflight_names_the_missing_context (K:=K3) (Mem.join ["a"; "c"])
             Mem.cfg3 "c" Mem.world3 eq_refl Hin eq_refl).
Defined.

End FurtherScenarios.

(** * The revision that shells out to kubectl *)

(** ** [strings.Split] *)

Section SplitFacts.

Lemma Split_cons s sep :
  ∃ piece pieces, strings.Split s sep = piece :: pieces.
Proof.
  induction s as [|c s (p & ps & IH)]; simpl; [by eauto|].
  destruct (Ascii.eqb c sep); [by eauto|]. rewrite IH. by eauto.
Qed.

Lemma Split_app a b sep :
  strings.Split (a +:+ String sep b) sep
  = strings.Split a sep ++ strings.Split b sep.
Proof.
  induction a as [|c a IH]; simpl.
  - by rewrite Ascii.eqb_refl.
  - destruct (Ascii.eqb c sep); [by rewrite IH|].
    rewrite IH. by destruct (Split_cons a sep) as (p & ps & ->).
Qed.

Lemma Split_whole s sep :
  strings.ContainsRune s sep = false → strings.Split s sep = [s].
Proof.
  induction s as [|c s IH]; simpl; [done|].
  intros [Hc Hs]%orb_false_iff. by rewrite Hc, IH.
Qed.

Lemma Split_pieces s sep :
  Forall (λ piece, strings.ContainsRune piece sep = false)
    (strings.Split s sep).
Proof.
  induction s as [|c s IH]; simpl; [by repeat constructor|].
  destruct (Ascii.eqb c sep) eqn:Hc; [by constructor|].
  destruct (strings.Split s sep) as [|p ps];
    [constructor; [simpl; by rewrite Hc|constructor]|].
  inversion_clear IH. constructor; [simpl; by rewrite Hc|done].
Qed.

(** The pieces of a text of words are the pieces of its words. *)
Lemma Split_concat (words : list string) :
  words ≠ [] →
  strings.Split (String.concat " " words) " "
  = words ≫= (λ word, strings.Split word " ").
Proof.
  induction words as [|x [|y words] IH]; intros Hne; [done|..].
  - simpl. by rewrite app_nil_r.
  - change (String.concat " " (x :: y :: words))
      with (x +:+ String " " (String.concat " " (y :: words))).
    rewrite Split_app, IH by done. done.
Qed.

(** A word in front of a text goes to its first piece. *)
Lemma Split_prefix (word s : string) sep :
  strings.ContainsRune word sep = false →
  ∃ piece pieces,
    strings.Split s sep = piece :: pieces ∧
    strings.Split (word +:+ s) sep = (word +:+ piece) :: pieces.
Proof.
  induction word as [|c word IH]; simpl.
  - intros _. destruct (Split_cons s sep) as (p & ps & Hs).
    exists p, ps. by rewrite Hs.
  - intros [Hc Hw]%orb_false_iff.
    destruct (IH Hw) as (p & ps & Hs & Hws).
    exists p, ps. by rewrite Hc, Hws.
Qed.

End SplitFacts.

(** ** Runs of the commands *)

Section Walks.

Context `{K : Kube} `{H : !Host}.

Import multicluster.

Lemma Sh_run_bind {A B} (m : Sh A) (f : A → Sh B) w :
  (m ≫= f) w =
    match m w with
    | (Go a, w1, t1) => let '(r, w2, t2) := f a w1 in (r, w2, t1 ++ t2)
    | (Halted h, w1, t1) => (Halted h, w1, t1)
    end.
Proof. done. Qed.

Lemma steps_ret {A} P (a : A) : steps P (mret a).
Proof. intros w. constructor. Qed.

Lemma steps_halt {A} P h : steps P (halt (A:=A) h).
Proof. intros w. constructor. Qed.

Lemma steps_bind {A B} P (m : Sh A) (f : A → Sh B) :
  steps P m → (∀ a, steps P (f a)) → steps P (m ≫= f).
Proof.
  intros Hm Hf w. rewrite Sh_run_bind. specialize (Hm w).
  destruct (m w) as [[[a|h] w1] t1]; [|done].
  specialize (Hf a w1). destruct (f a w1) as [[r w2] t2]; simpl in *.
  by apply Forall_app.
Qed.

Lemma steps_forEach {A} P (l : list A) (f : A → Sh unit) :
  (∀ x, x ∈ l → steps P (f x)) → steps P (forEach l f).
Proof.
  induction l as [|x l IH]; intros Hf; simpl; [apply steps_ret|].
  apply steps_bind; [apply Hf; by left|].
  intros _. apply IH. intros y Hy. apply Hf. by right.
Qed.

Lemma steps_println P s : P (Println s) → steps P (println s).
Proof. intros Hs w. by repeat constructor. Qed.

Lemma steps_index P l i : steps P (index l i).
Proof. unfold index. destruct (l !! i); [apply steps_ret|apply steps_halt]. Qed.

Lemma steps_run P args : P (Exec args) → steps P (run args).
Proof.
  intros Hs w. unfold run. destruct args as [|name arg]; [constructor|].
  destruct (CombinedOutput (name :: arg) w) as [[out err] w'].
  by repeat constructor.
Qed.

Lemma steps_fatalIf P err : steps P (fatalIf err).
Proof. destruct err; [apply steps_halt|apply steps_ret]. Qed.

Lemma steps_fatalfIf P err out : steps P (fatalfIf err out).
Proof. destruct err; [apply steps_halt|apply steps_ret]. Qed.

Lemma steps_returnIf P err out : steps P (returnIf err out).
Proof. destruct err; [apply steps_halt|apply steps_ret]. Qed.

Lemma steps_impl {A} (P Q : Step → Prop) (m : Sh A) :
  (∀ e, P e → Q e) → steps P m → steps Q m.
Proof. intros HPQ Hm w. eapply Forall_impl; [apply Hm|done]. Qed.

Lemma halts_ret {A} Q (a : A) : halts Q (mret a).
Proof. by intros w h. Qed.

Lemma halts_halt {A} (Q : Halt → Prop) h : Q h → halts Q (halt (A:=A) h).
Proof. intros Hh w h' [= <-]. done. Qed.

Lemma halts_bind {A B} Q (m : Sh A) (f : A → Sh B) :
  halts Q m → (∀ a, halts Q (f a)) → halts Q (m ≫= f).
Proof.
  intros Hm Hf w h. rewrite Sh_run_bind. specialize (Hm w).
  destruct (m w) as [[[a|h'] w1] t1]; simpl in *.
  - specialize (Hf a w1 h). by destruct (f a w1) as [[r w2] t2].
  - intros [= <-]. by apply Hm.
Qed.

Lemma halts_forEach {A} Q (l : list A) (f : A → Sh unit) :
  (∀ x, halts Q (f x)) → halts Q (forEach l f).
Proof.
  intros Hf. induction l as [|x l IH]; simpl; [apply halts_ret|].
  apply halts_bind; [apply Hf|done].
Qed.

Lemma halts_println Q s : halts Q (println s).
Proof. by intros w h. Qed.

Lemma halts_index (Q : Halt → Prop) l i :
  (l !! i = None → Q IndexOutOfRange) → halts Q (index l i).
Proof.
  unfold index. destruct (l !! i); [intros _; apply halts_ret|].
  intros HQ. apply halts_halt. by apply HQ.
Qed.

Lemma halts_run (Q : Halt → Prop) args :
  (args = [] → Q IndexOutOfRange) → halts Q (run args).
Proof.
  unfold run. destruct args as [|name arg].
  - intros HQ. apply halts_halt. by apply HQ.
  - intros _ w h.
    by destruct (CombinedOutput (name :: arg) w) as [[out err] w'].
Qed.

Lemma halts_run_Split (Q : Halt → Prop) s sep :
  halts Q (run (strings.Split s sep)).
Proof.
  apply halts_run. by destruct (Split_cons s sep) as (p & ps & ->).
Qed.

Lemma halts_fatalIf (Q : Halt → Prop) err :
  (∀ msg, Q (Ended (LogFatal msg))) → halts Q (fatalIf err).
Proof. intros HQ. destruct err; [by apply halts_halt|apply halts_ret]. Qed.

Lemma halts_fatalfIf (Q : Halt → Prop) err out :
  (∀ msg, Q (Ended (LogFatal msg))) → halts Q (fatalfIf err out).
Proof. intros HQ. destruct err; [by apply halts_halt|apply halts_ret]. Qed.

Lemma halts_returnIf (Q : Halt → Prop) err out :
  (∀ e, Q (Return e)) → halts Q (returnIf err out).
Proof. intros HQ. destruct err; [by apply halts_halt|apply halts_ret]. Qed.

End Walks.

(** ** The arguments of the commands *)

Section Arguments.

Import multicluster.

Lemma argv_delete c namespace secret :
  strings.Split ("kubectl --context=" +:+ c +:+ " -n " +:+ namespace
                 +:+ " delete secret " +:+ secret) " "
  = "kubectl" :: strings.Split ("--context=" +:+ c) " "
    ++ "-n" :: strings.Split namespace " "
    ++ "delete" :: "secret" :: strings.Split secret " ".
Proof.
  rewrite <- (app_nil_r (strings.Split secret " ")).
  exact (Split_concat
           ["kubectl"; "--context=" +:+ c; "-n"; namespace; "delete";
            "secret"; secret] ltac:(done)).
Qed.

Lemma argv_delete_ca c :
  strings.Split
    ("kubectl --context=" +:+ c
     +:+ " -n istio-system delete secret istio-ca-secret") " "
  = "kubectl" :: strings.Split ("--context=" +:+ c) " "
    ++ ["-n"; "istio-system"; "delete"; "secret"; "istio-ca-secret"].
Proof. exact (argv_delete c "istio-system" "istio-ca-secret"). Qed.

Lemma argv_delete_default c namespace :
  strings.Split
    ("kubectl --context=" +:+ c +:+ " -n " +:+ namespace
     +:+ " delete secret istio.default") " "
  = "kubectl" :: strings.Split ("--context=" +:+ c) " "
    ++ "-n" :: strings.Split namespace " "
    ++ ["delete"; "secret"; "istio.default"].
Proof. exact (argv_delete c namespace "istio.default"). Qed.

Lemma argv_namespaces c :
  strings.Split
    ("kubectl --context=" +:+ c
     +:+ " get namespace -o jsonpath='{.items[*].metadata.name}'") " "
  = "kubectl" :: strings.Split ("--context=" +:+ c) " "
    ++ ["get"; "namespace"; "-o"; "jsonpath='{.items[*].metadata.name}'"].
Proof.
  exact (Split_concat
           ["kubectl"; "--context=" +:+ c; "get"; "namespace"; "-o";
            "jsonpath='{.items[*].metadata.name}'"] ltac:(done)).
Qed.

Lemma argv_export c :
  strings.Split
    ("kubectl --context=" +:+ c
     +:+ " -n istio-system get secret istio-ca-secret -o yaml --export") " "
  = "kubectl" :: strings.Split ("--context=" +:+ c) " "
    ++ ["-n"; "istio-system"; "get"; "secret"; "istio-ca-secret"; "-o";
        "yaml"; "--export"].
Proof.
  exact (Split_concat
           ["kubectl"; "--context=" +:+ c; "-n"; "istio-system"; "get";
            "secret"; "istio-ca-secret"; "-o"; "yaml"; "--export"]
           ltac:(done)).
Qed.

Lemma argv_apply c name :
  strings.Split
    ("kubectl --context=" +:+ c +:+ " -n istio-system apply -f " +:+ name
     +:+ " --validate=false") " "
  = "kubectl" :: strings.Split ("--context=" +:+ c) " "
    ++ "-n" :: "istio-system" :: "apply" :: "-f" :: strings.Split name " "
    ++ ["--validate=false"].
Proof.
  exact (Split_concat
           ["kubectl"; "--context=" +:+ c; "-n"; "istio-system"; "apply";
            "-f"; name; "--validate=false"] ltac:(done)).
Qed.

Lemma argv_deployments c namespace :
  strings.Split
    ("kubectl --context=" +:+ c +:+ " -n " +:+ namespace
     +:+ " get deployment -o=name") " "
  = "kubectl" :: strings.Split ("--context=" +:+ c) " "
    ++ "-n" :: strings.Split namespace " "
    ++ ["get"; "deployment"; "-o=name"].
Proof.
  exact (Split_concat
           ["kubectl"; "--context=" +:+ c; "-n"; namespace; "get";
            "deployment"; "-o=name"] ltac:(done)).
Qed.

Lemma argv_patch c namespace deployment :
  strings.Split
    ("kubectl --context=" +:+ c +:+ " -n " +:+ namespace +:+ " patch "
     +:+ deployment +:+ " -p " +:+ patch) " "
  = "kubectl" :: strings.Split ("--context=" +:+ c) " "
    ++ "-n" :: strings.Split namespace " "
    ++ "patch" :: strings.Split deployment " "
    ++ ["-p"; patchHead; patchTail].
Proof.
  exact (Split_concat
           ["kubectl"; "--context=" +:+ c; "-n"; namespace; "patch";
            deployment; "-p"; patch] ltac:(done)).
Qed.

End Arguments.

(** ** The walk through the commands *)

Section Rotation.

Context `{K : Kube} `{H : !Host}.

Import multicluster.

Lemma commands_app t1 t2 : commands (t1 ++ t2) = commands t1 ++ commands t2.
Proof. apply omap_app. Qed.

Lemma commands_checked (t : list Event) : commands (Checked <$> t) = [].
Proof. by induction t. Qed.

Lemma onExec_commands Q t : Forall (onExec Q) t → Forall Q (commands t).
Proof. induction 1 as [|[] t]; simpl; try done. by constructor. Qed.

Lemma index_Some l i c : l !! i = Some c → index l i = mret c.
Proof. unfold index. by intros ->. Qed.

Lemma Sh_run_ret_bind {A B} (a : A) (f : A → Sh B) w :
  (mret a ≫= f) w = f a w.
Proof. rewrite Sh_run_bind. simpl. by destruct (f a w) as [[r w2] t2]. Qed.

Lemma steps_bind_index {B} P l i c (f : string → Sh B) :
  l !! i = Some c → steps P (f c) → steps P (index l i ≫= f).
Proof.
  intros Hc Hf w. rewrite (index_Some _ _ _ Hc), Sh_run_ret_bind. apply Hf.
Qed.

Lemma halts_bind_index {B} Q l i c (f : string → Sh B) :
  l !! i = Some c → halts Q (f c) → halts Q (index l i ≫= f).
Proof.
  intros Hc Hf w. rewrite (index_Some _ _ _ Hc), Sh_run_ret_bind. apply Hf.
Qed.

Lemma steps_bind_run {B} Q args (f : string * option error → Sh B) :
  Q args → (∀ out err, steps (onExec Q) (f (out, err))) →
  steps (onExec Q) (run args ≫= f).
Proof.
  intros HQ Hf. apply steps_bind; [by apply steps_run|]. by intros [out err].
Qed.

Lemma steps_tempFile Q : steps (onExec Q) tempFile.
Proof.
  intros w. unfold tempFile. destruct (TempFile w) as [[err|t] w'];
    by repeat constructor.
Qed.

Lemma steps_write Q t data : steps (onExec Q) (write t data).
Proof.
  intros w. unfold write. destruct (File_Write t data w) as [err w'].
  by repeat constructor.
Qed.

Lemma steps_close Q t : steps (onExec Q) (close t).
Proof. intros w. by repeat constructor. Qed.

Lemma halts_tempFile (Q : Halt → Prop) :
  (∀ msg, Q (Ended (LogFatal msg))) → halts Q tempFile.
Proof.
  intros HQ w h. unfold tempFile.
  destruct (TempFile w) as [[err|t] w']; simpl; [|done].
  intros [= <-]. apply HQ.
Qed.

Lemma halts_write Q t data : halts Q (write t data).
Proof.
  intros w h. unfold write. by destruct (File_Write t data w) as [err w'].
Qed.

Lemma halts_close Q t : halts Q (close t).
Proof. by intros w h. Qed.

(** *** The steps of the parts of the command *)

Lemma scale_steps Q args c1 replicas :
  clusters args !! 1 = Some c1 →
  Q (scaleArgs c1 replicas) →
  steps (onExec Q) (scale args replicas).
Proof.
  intros Hc HQ. unfold scale. eapply steps_bind_index; [done|].
  apply steps_bind_run; [done|]. intros out [err|]; apply steps_ret.
Qed.

Lemma wait_steps Q args c1 :
  clusters args !! 1 = Some c1 →
  Q (waitArgs c1) →
  steps (onExec Q) (wait args).
Proof.
  intros Hc HQ. unfold wait. eapply steps_bind_index; [done|].
  apply steps_bind_run; [done|]. intros out [err|]; apply steps_ret.
Qed.

Lemma deleteSecret_steps Q args c1 namespace secret :
  clusters args !! 1 = Some c1 →
  Q (strings.Split ("kubectl --context=" +:+ c1 +:+ " -n " +:+ namespace
                    +:+ " delete secret " +:+ secret) " ") →
  steps (onExec Q) (deleteSecret args namespace secret).
Proof.
  intros Hc HQ. unfold deleteSecret. eapply steps_bind_index; [done|].
  apply steps_bind; [by apply steps_println|]. intros _.
  apply steps_bind_run; [done|]. intros out [err|]; [apply steps_ret|].
  apply steps_bind; [by apply steps_println|]. intros _. apply steps_ret.
Qed.

Lemma deleteDefaults_steps Q args c1 namespaces :
  clusters args !! 1 = Some c1 →
  (∀ namespace,
     namespace ∈ namespaces →
     Q (strings.Split ("kubectl --context=" +:+ namespace +:+ " -n " +:+ c1
                       +:+ " delete secret istio.default") " ")) →
  steps (onExec Q) (deleteDefaults args namespaces).
Proof.
  intros Hc HQ. apply steps_forEach. intros namespace Hn.
  eapply steps_bind_index; [done|].
  apply steps_bind_run; [by apply HQ|]. intros out err. apply steps_ret.
Qed.

Lemma replace_steps Q args c0 c1 :
  clusters args !! 0 = Some c0 →
  clusters args !! 1 = Some c1 →
  Q (scaleArgs c1 0) →
  Q (waitArgs c1) →
  Q (strings.Split
       ("kubectl --context=" +:+ c1
        +:+ " -n istio-system delete secret istio-ca-secret") " ") →
  Q (strings.Split
       ("kubectl --context=" +:+ c1
        +:+ " get namespace -o jsonpath='{.items[*].metadata.name}'") " ") →
  (∀ namespace,
     strings.ContainsRune namespace " " = false →
     Q (strings.Split ("kubectl --context=" +:+ namespace +:+ " -n " +:+ c1
                       +:+ " delete secret istio.default") " ")) →
  Q (strings.Split
       ("kubectl --context=" +:+ c0
        +:+ " -n istio-system get secret istio-ca-secret -o yaml --export")
       " ") →
  (∀ name,
     Q (strings.Split
          ("kubectl --context=" +:+ c1 +:+ " -n istio-system apply -f "
           +:+ name +:+ " --validate=false") " ")) →
  steps (onExec Q) (replace args).
Proof.
  intros Hc0 Hc1 Hscale Hwait Hdel Hns Hdef Hexp Happly. unfold replace.
  apply steps_bind; [by eapply scale_steps|]. intros err1.
  apply steps_bind; [apply steps_fatalIf|]. intros _.
  apply steps_bind; [by eapply wait_steps|]. intros err2.
  apply steps_bind; [apply steps_fatalIf|]. intros _.
  apply steps_bind; [by eapply deleteSecret_steps|]. intros err3.
  apply steps_bind; [apply steps_fatalIf|]. intros _.
  eapply steps_bind_index; [done|].
  apply steps_bind_run; [done|]. intros out err4.
  apply steps_bind; [apply steps_returnIf|]. intros _.
  apply steps_bind; [by apply steps_println|]. intros _.
  apply steps_bind.
  { eapply deleteDefaults_steps; [done|]. intros namespace Hn. apply Hdef.
    by eapply (proj1 (Forall_forall _ _) (Split_pieces out " ")). }
  intros _. eapply steps_bind_index; [done|].
  apply steps_bind_run; [done|]. intros out5 err5.
  apply steps_bind; [apply steps_returnIf|]. intros _.
  apply steps_bind; [apply steps_tempFile|]. intros t.
  apply steps_bind; [apply steps_write|]. intros err6.
  apply steps_bind; [apply steps_fatalIf|]. intros _.
  apply steps_bind; [apply steps_close|]. intros _.
  apply steps_bind; [by apply steps_println|]. intros _.
  eapply steps_bind_index; [done|].
  apply steps_bind_run; [done|]. intros out7 err7.
  apply steps_bind; [apply steps_returnIf|]. intros _. apply steps_ret.
Qed.

Lemma patchDeployment_steps Q args c1 namespace deployment :
  clusters args !! 1 = Some c1 →
  Q (strings.Split
       ("kubectl --context=" +:+ c1 +:+ " -n " +:+ namespace +:+ " patch "
        +:+ deployment +:+ " -p " +:+ patch) " ") →
  steps (onExec Q) (patchDeployment args namespace deployment).
Proof.
  intros Hc HQ. unfold patchDeployment.
  apply steps_bind; [by apply steps_println|]. intros _.
  eapply steps_bind_index; [done|].
  apply steps_bind; [by apply steps_println|]. intros _.
  apply steps_bind_run; [done|]. intros out err.
  apply steps_bind; [apply steps_fatalfIf|]. intros _.
  by apply steps_println.
Qed.

Lemma restart_steps Q args c1 namespaces :
  clusters args !! 1 = Some c1 →
  Forall (λ namespace, strings.ContainsRune namespace " " = false)
    namespaces →
  (∀ namespace,
     namespace ≠ "kube-system" → namespace ≠ "kube-public" →
     strings.ContainsRune namespace " " = false →
     Q (strings.Split
          ("kubectl --context=" +:+ c1 +:+ " -n " +:+ namespace
           +:+ " get deployment -o=name") " ")) →
  (∀ namespace deployment,
     namespace ≠ "kube-system" → namespace ≠ "kube-public" →
     strings.ContainsRune namespace " " = false →
     Q (strings.Split
          ("kubectl --context=" +:+ c1 +:+ " -n " +:+ namespace +:+ " patch "
           +:+ deployment +:+ " -p " +:+ patch) " ")) →
  steps (onExec Q) (restart args namespaces).
Proof.
  intros Hc Hsp Hget Hpatch. apply steps_forEach. intros namespace Hn.
  unfold restartNamespace.
  apply steps_bind; [by apply steps_println|]. intros _.
  destruct (decide _) as [|Hne]; [apply steps_ret|].
  assert (namespace ≠ "kube-system") as Hne1 by (intros ->; apply Hne; by left).
  assert (namespace ≠ "kube-public") as Hne2 by (intros ->; apply Hne; by right).
  pose proof (proj1 (Forall_forall _ _) Hsp _ Hn) as Hns.
  eapply steps_bind_index; [done|].
  apply steps_bind_run; [by apply Hget|]. intros out err.
  apply steps_bind; [apply steps_fatalfIf|]. intros _.
  apply steps_forEach. intros deployment _.
  eapply patchDeployment_steps; [done|]. by apply Hpatch.
Qed.

Lemma returns_bind {A B} (R : B → Prop) (m : Sh A) (f : A → Sh B) :
  (∀ a, returns R (f a)) → returns R (m ≫= f).
Proof.
  intros Hf w b. rewrite Sh_run_bind.
  destruct (m w) as [[[a|h] w1] t1]; simpl; [|done].
  specialize (Hf a w1 b). by destruct (f a w1) as [[r w2] t2].
Qed.

Lemma returns_ret {A} (R : A → Prop) (a : A) : R a → returns R (mret a).
Proof. intros HR w a' [= <-]. done. Qed.

Lemma steps_bind_returns {A B} P (R : A → Prop) (m : Sh A) (f : A → Sh B) :
  steps P m → returns R m → (∀ a, R a → steps P (f a)) → steps P (m ≫= f).
Proof.
  intros Hm HR Hf w. rewrite Sh_run_bind. specialize (Hm w).
  specialize (HR w). destruct (m w) as [[[a|h] w1] t1]; [|done].
  specialize (Hf a (HR a eq_refl) w1).
  destruct (f a w1) as [[r w2] t2]; simpl in *. by apply Forall_app.
Qed.

Lemma replace_returns args :
  returns (Forall (λ namespace, strings.ContainsRune namespace " " = false))
    (replace args).
Proof.
  unfold replace.
  repeat (apply returns_bind; intros ?;
          try match goal with
              | |- returns _ (let '(_, _) := ?a in _) => destruct a
              end).
  apply returns_ret. apply Split_pieces.
Qed.

Lemma rotate_steps args c0 c1 :
  clusters args !! 0 = Some c0 →
  clusters args !! 1 = Some c1 →
  steps (onExec (issued c0 c1)) (rotate args).
Proof.
  intros Hc0 Hc1. unfold rotate.
  eapply steps_bind_returns; [|apply replace_returns|].
  - eapply replace_steps; try done;
      first [apply issued_scale; by left|intros; by constructor].
  - intros namespaces Hsp.
    apply steps_bind; [eapply scale_steps; [done|]|].
    { apply issued_scale. by right. }
    intros err1. apply steps_bind; [apply steps_fatalIf|]. intros _.
    apply steps_bind; [eapply wait_steps; [done|by constructor]|].
    intros err2. apply steps_bind; [apply steps_fatalIf|]. intros _.
    eapply restart_steps; [done|done|..]; intros; by constructor.
Qed.

End Rotation.

Ltac walk_halts :=
  repeat first
    [ apply halts_ret
    | apply halts_println
    | apply halts_run_Split
    | apply halts_write
    | apply halts_close
    | apply halts_fatalIf; done
    | apply halts_fatalfIf; done
    | apply halts_returnIf; done
    | apply halts_tempFile; done
    | apply halts_run; discriminate
    | eapply halts_bind_index; [eassumption|]
    | apply halts_forEach; intros ?
    | apply halts_bind; [|intros ?]
    | match goal with
      | |- multicluster.halts _ (let '(_, _) := ?a in _) => destruct a
      | |- multicluster.halts _ (match ?e with Some _ => _ | None => _ end) => destruct e
      | |- multicluster.halts _ (if decide ?P then _ else _) => destruct (decide P)
      end ].

Section Outcomes.

Context `{K : Kube} `{H : !Host}.

Import multicluster.

Lemma rotate_halts args c0 c1 :
  clusters args !! 0 = Some c0 →
  clusters args !! 1 = Some c1 →
  halts written (rotate args).
Proof.
  intros Hc0 Hc1.
  unfold rotate, replace, restart, restartNamespace, patchDeployment,
    deleteDefaults, deleteSecret, scale, wait.
  walk_halts.
Qed.

(** After the copy of the secret the command no longer returns an error. *)
Lemma restart_halts args c1 namespaces :
  clusters args !! 1 = Some c1 →
  halts fatal
    (err ← scale args 1;
     fatalIf err ;;
     err ← wait args;
     fatalIf err ;;
     restart args namespaces).
Proof.
  intros Hc1.
  unfold restart, restartNamespace, patchDeployment, scale, wait.
  walk_halts.
Qed.

Lemma rotate_short args w :
  length (clusters args) < 2 →
  rotate args w = (Halted IndexOutOfRange, w, []).
Proof.
  intros Hlen. unfold rotate, replace, scale.
  assert (clusters args !! 1 = None) as Hnone
    by (apply lookup_ge_None_2; lia).
  rewrite !Sh_run_bind. unfold index. by rewrite Hnone.
Qed.

(** The checks let the command go on for two identifiers only. *)
Lemma preflight_outcome args config w :
  (∃ t1, preflight args config w = (Stop (OsExit 1), w, t1)) ∨
  (∃ csm t1 c0 c1,
     preflight args config w = (Ok csm, w, t1) ∧
     clusters args = [c0; c1]).
Proof.
  destruct (decide (length (clusters args) = 2)) as [Hlen|Hlen].
  - rewrite (preflight_two _ _ _ Hlen).
    destruct (preflightLoop_spec args config (clusters args) ∅ false w)
      as (csm & notFound & t & -> & _).
    destruct notFound; [left; by eauto|right].
    destruct (clusters args) as [|c0 [|c1 [|]]]; try done.
    by exists csm, t, c0, c1.
  - left. unfold preflight. rewrite decide_False by done.
    rewrite !run_bind. simpl. by eauto.
Qed.

Lemma RunE_cases args config w :
  GetStartingConfig (kubeconfig args) (context args) = inr config →
  (∃ t1,
     RunE args w = (Halted (Ended (OsExit 1)), w, Checked <$> t1)) ∨
  (∃ t1 c0 c1,
     clusters args = [c0; c1] ∧
     RunE args w =
       (let '(r, w2, t2) := rotate args w in
        (r, w2, (Checked <$> t1) ++ t2))).
Proof.
  intros Hcfg. unfold RunE. rewrite Hcfg, Sh_run_bind. unfold checked.
  destruct (preflight_outcome args config w)
    as [(t1 & ->)|(csm & t1 & c0 & c1 & -> & Hcl)].
  - left. by eauto.
  - right. by exists t1, c0, c1.
Qed.

Lemma RunE_commands Q args w :
  (∀ c0 c1, clusters args = [c0; c1] → ∀ argv, issued c0 c1 argv → Q argv) →
  Forall Q (commands (RunE args w).2).
Proof.
  intros HQ.
  destruct (GetStartingConfig (kubeconfig args) (context args))
    as [err|config] eqn:Hcfg.
  { unfold RunE. rewrite Hcfg. constructor. }
  destruct (RunE_cases args config w Hcfg)
    as [(t1 & ->)|(t1 & c0 & c1 & Hcl & ->)].
  { simpl. rewrite commands_checked. constructor. }
  pose proof (rotate_steps args c0 c1) as Hsteps.
  rewrite Hcl in Hsteps. specialize (Hsteps eq_refl eq_refl w).
  destruct (rotate args w) as [[r w2] t2]. simpl in *.
  rewrite commands_app, commands_checked. simpl.
  apply onExec_commands. eapply Forall_impl; [done|].
  intros [] He; simpl in *; try done. by eapply HQ.
Qed.

End Outcomes.

(** ** What the commands are and how the run ends *)

Ltac differ_by_last :=
  let Heq := fresh "Heq" in
  intros Heq;
  rewrite ?argv_delete_ca, ?argv_delete_default, ?argv_namespaces, ?argv_export, ?argv_apply,
    ?argv_deployments, ?argv_patch in Heq;
  apply (f_equal last) in Heq;
  repeat (rewrite last_cons in Heq || rewrite last_app in Heq);
  vm_compute in Heq; discriminate.

Section Commands.

Context `{K : Kube} `{H : !Host}.

Import multicluster.

Lemma issued_kubectl c0 c1 argv :
  issued c0 c1 argv →
  ∃ x rest, argv = "kubectl" :: ("--context=" +:+ x) :: rest.
Proof.
  destruct 1;
    rewrite ?argv_delete_ca, ?argv_delete_default, ?argv_namespaces, ?argv_export, ?argv_apply,
      ?argv_deployments, ?argv_patch;
    try (by eexists _, _);
    match goal with
    | |- context [strings.Split ("--context=" +:+ ?c) " "] =>
        destruct (Split_prefix "--context=" c " " eq_refl)
          as (p & ps & _ & ->)
    end; by eexists _, _.
Qed.

Lemma issued_without_patch c0 c1 argv : issued c0 c1 argv → patch ∉ argv.
Proof.
  assert (∀ s, patch ∉ strings.Split s " ") as Hsplit.
  { intros s Hin.
    pose proof (proj1 (Forall_forall _ _) (Split_pieces s " ") _ Hin) as Hsp.
    vm_compute in Hsp. discriminate. }
  destruct 1 as [replicas [-> | ->]| | | | | | | |]; try apply Hsplit;
    intros Hin; repeat (apply elem_of_cons in Hin as [Heq|Hin]);
    try (by apply elem_of_nil in Hin); vm_compute in Heq; discriminate.
Qed.

Lemma Sh_bind_first {A B} (m : Sh A) (f : A → Sh B) w a w' e t :
  m w = (Go a, w', e :: t) → ∃ t', ((m ≫= f) w).2 = e :: t'.
Proof.
  intros Hm. rewrite Sh_run_bind, Hm.
  destruct (f a w') as [[r2 w2] t2]. simpl. by eauto.
Qed.

Lemma scale_first {B} args c1 replicas (f : option error → Sh B) w :
  clusters args !! 1 = Some c1 →
  ∃ t, ((scale args replicas ≫= f) w).2 = Exec (scaleArgs c1 replicas) :: t.
Proof.
  intros Hc.
  assert (∃ err w',
            scale args replicas w
            = (Go err, w', [Exec (scaleArgs c1 replicas)]))
    as (err & w' & Hs).
  { unfold scale. rewrite (index_Some _ _ _ Hc), Sh_run_ret_bind, Sh_run_bind.
    unfold run, scaleArgs.
    destruct (CombinedOutput _ w) as [[out [err|]] w']; simpl; by eauto. }
  by eapply Sh_bind_first.
Qed.

Lemma replace_first args c1 w :
  clusters args !! 1 = Some c1 →
  ∃ t, (replace args w).2 = Exec (scaleArgs c1 0) :: t.
Proof. intros Hc. unfold replace. by apply scale_first. Qed.

Lemma replace_keeps_citadel_down args c0 c1 :
  clusters args !! 0 = Some c0 →
  clusters args !! 1 = Some c1 →
  steps (onExec (λ argv, argv ≠ scaleArgs c1 1)) (replace args).
Proof.
  intros Hc0 Hc1. eapply replace_steps; try done; intros;
    unfold scaleArgs, waitArgs; differ_by_last.
Qed.

End Commands.

Section Rotations.

Context `{K : Kube} `{H : !Host}.

Import multicluster.

(** X22: the join command of the kubectl revision stops only in the ways
    written in its code: it returns nil, returns an error, calls
    [log.Fatal] or exits with status 1.  It never panics: the checks let it
    reach the commands with two identifiers only, and every argument list
    it builds has a program name.  Without the checks, fewer than two
    identifiers make the first command panic on its index. *)
Theorem kubectl_join_never_panics (args : Args) (w : World) :
  match (RunE args w).1.1 with
  | Go _ | Halted (Return _) | Halted (Ended (LogFatal _)) => True
  | Halted (Ended (OsExit code)) => code = 1%Z
  | Halted (Ended NilPanic) | Halted IndexOutOfRange => False
  end ∧
  (length (clusters args) < 2 →
   rotate args w = (Halted IndexOutOfRange, w, [])).
Proof.
  split; [|apply rotate_short].
  destruct (GetStartingConfig (kubeconfig args) (context args))
    as [err|config] eqn:Hcfg.
  { unfold RunE. by rewrite Hcfg. }
  destruct (RunE_cases args config w Hcfg)
    as [(t1 & ->)|(t1 & c0 & c1 & Hcl & ->)]; [done|].
  pose proof (rotate_halts args c0 c1) as Hhalts.
  rewrite Hcl in Hhalts. specialize (Hhalts eq_refl eq_refl w).
  destruct (rotate args w) as [[[[]|h] w2] t2]; simpl in *; [done|].
  specialize (Hhalts h eq_refl). by destruct h as [|[]|].
Qed.

(** X23: every program the join command of the kubectl revision runs is
    kubectl, and the first argument of every command is a --context
    option. *)
Theorem only_kubectl_is_run (args : Args) (w : World) :
  Forall (λ argv, ∃ x rest, argv = "kubectl" :: ("--context=" +:+ x) :: rest)
    (commands (RunE args w).2).
Proof.
  apply RunE_commands. intros c0 c1 _ argv. apply issued_kubectl.
Qed.

(** X24: when the join command of the kubectl revision returns an error
    after its configuration was loaded, it was given two identifiers, its
    first command scaled istio-citadel of the second cluster to 0 replicas,
    and no command scaled it back to 1. *)
Theorem returned_error_leaves_citadel_scaled_down
    (args : Args) (config : api.Config) (err : error) (w : World) :
  GetStartingConfig (kubeconfig args) (context args) = inr config →
  (RunE args w).1.1 = Halted (Return err) →
  ∃ c0 c1,
    clusters args = [c0; c1] ∧
    commands (RunE args w).2 !! 0 = Some (scaleArgs c1 0) ∧
    scaleArgs c1 1 ∉ commands (RunE args w).2.
Proof.
  intros Hcfg.
  destruct (RunE_cases args config w Hcfg)
    as [(t1 & ->)|(t1 & c0 & c1 & Hcl & ->)]; [done|].
  intros Hret. exists c0, c1. split; [done|].
  assert (clusters args !! 0 = Some c0) as Hc0 by by rewrite Hcl.
  assert (clusters args !! 1 = Some c1) as Hc1 by by rewrite Hcl.
  pose proof (replace_first args c1 w Hc1) as [t Hfirst].
  pose proof (replace_keeps_citadel_down args c0 c1 Hc0 Hc1 w) as Hdown.
  pose proof (restart_halts args c1) as Hrest.
  unfold rotate in *. rewrite Sh_run_bind in *.
  destruct (replace args w) as [[[namespaces|h] w2] t2]; simpl in *.
  - specialize (Hrest namespaces Hc1 w2 (Return err)).
    set (rest := scale args 1 ≫= _) in *.
    destruct (rest w2) as [[r3 w3] t3]. simpl in *. by apply Hrest in Hret.
  - rewrite commands_app, commands_checked. subst t2. simpl. split; [done|].
    intros Hin. apply onExec_commands in Hdown.
    by apply (proj1 (Forall_forall _ _) Hdown _ Hin).
Qed.

(** X25: for a second identifier without a space, the loop over the
    namespaces runs, for every piece of the output of the namespace
    listing and in their order, kubectl with that piece as the context and
    the second identifier as the namespace of the secret istio.default; it
    goes on whatever the commands answer. *)
Theorem default_secret_deletions
    (args : Args) (c1 out : string) (w : World) :
  clusters args !! 1 = Some c1 →
  strings.ContainsRune c1 " " = false →
  (deleteDefaults args (strings.Split out " ") w).1.1 = Go tt ∧
  commands (deleteDefaults args (strings.Split out " ") w).2
    = (λ namespace,
         ["kubectl"; "--context=" +:+ namespace; "-n"; c1; "delete";
          "secret"; "istio.default"]) <$> strings.Split out " ".
Proof.
  intros Hc1 Hsp. pose proof (Split_pieces out " ") as Hpieces.
  unfold deleteDefaults.
  set (body := λ namespace : string, _).
  assert (∀ namespace w,
            strings.ContainsRune namespace " " = false →
            ∃ w', body namespace w
                  = (Go tt, w',
                     [Exec ["kubectl"; "--context=" +:+ namespace; "-n"; c1;
                            "delete"; "secret"; "istio.default"]]))
    as Hbody.
  { intros namespace w0 Hn. unfold body.
    rewrite (index_Some _ _ _ Hc1), Sh_run_ret_bind, Sh_run_bind.
    rewrite argv_delete_default, (Split_whole c1),
      (Split_whole ("--context=" +:+ namespace)) by done.
    unfold run. cbn [app].
    destruct (CombinedOutput _ w0) as [[out' err'] w']. by eauto. }
  clearbody body. revert w.
  induction Hpieces as [|namespace namespaces Hn _ IH]; intros w; [done|].
  cbn [forEach]. rewrite Sh_run_bind.
  destruct (Hbody namespace w Hn) as [w' ->].
  destruct (IH w') as [Hgo Hcmds].
  destruct (forEach namespaces body w') as [[r2 w2] t2]. simpl in *.
  by rewrite Hgo, Hcmds.
Qed.

(** X26: the join command of the kubectl revision never lists or patches
    the deployments of the namespaces kube-system and kube-public of the
    second cluster. *)
Theorem system_namespaces_are_not_restarted (args : Args) (w : World) :
  Forall
    (λ argv, ∀ c1 namespace,
       clusters args !! 1 = Some c1 →
       namespace = "kube-system" ∨ namespace = "kube-public" →
       argv ≠ strings.Split
                ("kubectl --context=" +:+ c1 +:+ " -n " +:+ namespace
                 +:+ " get deployment -o=name") " " ∧
       ∀ deployment,
         argv ≠ strings.Split
                  ("kubectl --context=" +:+ c1 +:+ " -n " +:+ namespace
                   +:+ " patch " +:+ deployment +:+ " -p " +:+ patch) " ")
    (commands (RunE args w).2).
Proof.
  apply RunE_commands. intros c0 c1 Hcl argv Hissued c1' namespace Hc1 Hns.
  rewrite Hcl in Hc1. injection Hc1 as <-.
  assert (strings.Split namespace " " = [namespace]) as Hsplit
    by by destruct Hns as [-> | ->].
  split; [|intros deployment];
    destruct Hissued
      as [replicas [-> | ->]| | | | | | |other Hks Hkp Hsp
         |other deployment' Hks Hkp Hsp];
    unfold scaleArgs, waitArgs;
    first
      [ destruct Hns as [-> | ->]; differ_by_last
      | rewrite ?argv_deployments, ?argv_patch, ?(Split_whole other), ?Hsplit
          by done;
        intros Heq; simplify_list_eq; by destruct Hns ].
Qed.

(** X27: the patch that restarts a deployment contains a space, and the
    command line is cut at the spaces: no command of the join command of
    the kubectl revision has the patch as an argument, and the command that
    patches a deployment ends with -p and the two halves of the patch. *)
Theorem patch_is_never_passed_whole
    (args : Args) (namespace deployment : string) (w : World) :
  Forall (λ argv, patch ∉ argv) (commands (RunE args w).2) ∧
  (∀ c1, clusters args !! 1 = Some c1 →
         ∃ init,
           commands (patchDeployment args namespace deployment w).2
           = [init ++ ["-p"; patchHead; patchTail]]) ∧
  patch = patchHead +:+ " " +:+ patchTail.
Proof.
  split_and!; [|intros c1 Hc1|reflexivity].
  - apply RunE_commands. intros c0 c1 _ argv. apply issued_without_patch.
  - exists ("kubectl" :: strings.Split ("--context=" +:+ c1) " "
            ++ "-n" :: strings.Split namespace " "
            ++ "patch" :: strings.Split deployment " ").
    assert (strings.Split
              ("kubectl --context=" +:+ c1 +:+ " -n " +:+ namespace
               +:+ " patch " +:+ deployment +:+ " -p " +:+ patch) " "
            = ("kubectl" :: strings.Split ("--context=" +:+ c1) " "
               ++ "-n" :: strings.Split namespace " "
               ++ "patch" :: strings.Split deployment " ")
              ++ ["-p"; patchHead; patchTail]) as Hargv.
    { rewrite argv_patch. by simplify_list_eq. }
    unfold patchDeployment.
    rewrite Sh_run_bind. unfold println at 1. cbn iota beta.
    rewrite (index_Some _ _ _ Hc1), Sh_run_ret_bind, Hargv, Sh_run_bind.
    unfold println at 1. cbn iota beta.
    rewrite Sh_run_bind. unfold run. cbn [app].
    destruct (CombinedOutput _ w) as [[out [err|]] w']; reflexivity.
Qed.

(** X28: when the command that scales istio-citadel to 0 replicas fails,
    the commands after the checks end the process by [log.Fatal] with the
    error and the output of that command; nothing else has been run. *)
Theorem scale_failure_is_fatal
    (args : Args) (c1 out : string) (err : error) (w w' : World) :
  clusters args !! 1 = Some c1 →
  CombinedOutput (scaleArgs c1 0) w = (out, Some err, w') →
  rotate args w =
    (Halted (Ended (LogFatal (Message err +:+ ": " +:+ out))), w',
     [Exec (scaleArgs c1 0)]).
Proof.
  intros Hc1 Hout.
  assert (scale args 0 w
          = (Go (Some (fmt.Errorf err out)), w', [Exec (scaleArgs c1 0)]))
    as Hs.
  { unfold scale.
    rewrite (index_Some _ _ _ Hc1), Sh_run_ret_bind, Sh_run_bind.
    unfold run. fold (scaleArgs c1 0). by rewrite Hout. }
  unfold rotate, replace. by rewrite !Sh_run_bind, Hs.
Qed.

(** X29: the join command of the kubectl revision exits with a status only
    through its checks: the status is 1, no command has been run and the
    clusters are as they were. *)
Theorem failed_checks_run_no_command (args : Args) (code : Z) (w : World) :
  (RunE args w).1.1 = Halted (Ended (OsExit code)) →
  code = 1%Z ∧ commands (RunE args w).2 = [] ∧ (RunE args w).1.2 = w.
Proof.
  destruct (GetStartingConfig (kubeconfig args) (context args))
    as [err|config] eqn:Hcfg.
  { unfold RunE. by rewrite Hcfg. }
  destruct (RunE_cases args config w Hcfg)
    as [(t1 & ->)|(t1 & c0 & c1 & Hcl & ->)].
  { simpl. intros [= <-]. by rewrite commands_checked. }
  pose proof (rotate_halts args c0 c1) as Hhalts.
  rewrite Hcl in Hhalts. specialize (Hhalts eq_refl eq_refl w).
  destruct (rotate args w) as [[[[]|h] w2] t2]; simpl in *; [done|].
  intros [= ->]. by destruct (Hhalts _ eq_refl).
Qed.

(** X30: when the join command of the kubectl revision returns nil, it was
    given two identifiers, its first command scaled istio-citadel of the
    second cluster to 0 replicas and a later command scaled it to 1, with
    no other scaling to 1 in between. *)
Theorem completed_join_scales_citadel_back (args : Args) (w : World) :
  (RunE args w).1.1 = Go tt →
  ∃ c0 c1 between after,
    clusters args = [c0; c1] ∧
    commands (RunE args w).2
      = scaleArgs c1 0 :: between ++ scaleArgs c1 1 :: after ∧
    scaleArgs c1 1 ∉ between.
Proof.
  destruct (GetStartingConfig (kubeconfig args) (context args))
    as [err|config] eqn:Hcfg.
  { unfold RunE. by rewrite Hcfg. }
  destruct (RunE_cases args config w Hcfg)
    as [(t1 & ->)|(t1 & c0 & c1 & Hcl & ->)]; [done|].
  intros Hret.
  assert (clusters args !! 0 = Some c0) as Hc0 by by rewrite Hcl.
  assert (clusters args !! 1 = Some c1) as Hc1 by by rewrite Hcl.
  pose proof (replace_first args c1 w Hc1) as [t Hfirst].
  pose proof (replace_keeps_citadel_down args c0 c1 Hc0 Hc1 w) as Hdown.
  unfold rotate in *. rewrite Sh_run_bind in *.
  destruct (replace args w) as [[[namespaces|h] w2] t2]; simpl in *; [|done].
  match goal with
  | _ : context [(scale args 1 ≫= ?f) w2] |- _ =>
      pose proof (scale_first args c1 1 f w2 Hc1) as [t' Hsecond]
  end.
  destruct ((scale args 1 ≫= _) w2) as [[r3 w3] t3]. simpl in *.
  subst t2 t3. exists c0, c1, (commands t), (commands t').
  split; [done|]. split.
  - by rewrite !commands_app, commands_checked.
  - apply onExec_commands in Hdown. simpl in Hdown.
    inversion_clear Hdown as [|? ? _ Htail]. intros Hin.
    by apply (proj1 (Forall_forall _ _) Htail _ Hin).
Qed.

End Rotations.

(** ** The kubectl revision at concrete inputs *)

Section KubectlScenarios.

Import multicluster.

Local Abbreviation K3 := (Mem.kube Mem.cfg3).
Local Abbreviation fine := (MemHost.host Mem.cfg3 MemHost.allFine).
Local Abbreviation unlisted := (MemHost.host Mem.cfg3 MemHost.noListing).
Local Abbreviation unscaled := (MemHost.host Mem.cfg3 MemHost.noScale).

Lemma returned_error_leaves_citadel_scaled_down_witness :
  GetStartingConfig (Kube:=K3) (kubeconfig (Mem.join ["a"; "b"]))
    (context (Mem.join ["a"; "b"])) = inr Mem.cfg3 ∧
  (RunE (H:=unlisted) (Mem.join ["a"; "b"]) Mem.world3).1.1
    = Halted (Return (fmt.Errorf MemHost.exitStatus1
                        "Unable to connect to the server")) ∧
  ∃ c0 c1,
    clusters (Mem.join ["a"; "b"]) = [c0; c1] ∧
    commands (RunE (H:=unlisted) (Mem.join ["a"; "b"]) Mem.world3).2 !! 0
      = Some (scaleArgs c1 0) ∧
    scaleArgs c1 1
      ∉ commands (RunE (H:=unlisted) (Mem.join ["a"; "b"]) Mem.world3).2.
Proof.
  assert ((RunE (H:=unlisted) (Mem.join ["a"; "b"]) Mem.world3).1.1
          = Halted (Return (fmt.Errorf MemHost.exitStatus1
                              "Unable to connect to the server"))) as Hret
    by (vm_compute; reflexivity).
  split_and!; [reflexivity|exact Hret|].
  exact (returned_error_leaves_citadel_scaled_down (K:=K3) (H:=unlisted)
           (Mem.join ["a"; "b"]) Mem.cfg3 _ Mem.world3 eq_refl Hret).
Defined.

Lemma default_secret_deletions_witness :
  clusters (Mem.join ["a"; "b"]) !! 1 = Some "b" ∧
  strings.ContainsRune "b" " " = false ∧
  (deleteDefaults (H:=fine) (Mem.join ["a"; "b"])
     (strings.Split "default kube-system" " ") Mem.world3).1.1 = Go tt ∧
  commands
    (deleteDefaults (H:=fine) (Mem.join ["a"; "b"])
       (strings.Split "default kube-system" " ") Mem.world3).2
    = (λ namespace,
         ["kubectl"; "--context=" +:+ namespace; "-n"; "b"; "delete";
          "secret"; "istio.default"])
        <$> strings.Split "default kube-system" " ".
Proof.
  split_and!; [reflexivity|reflexivity|..];
    apply (default_secret_deletions (K:=K3) (H:=fine) (Mem.join ["a"; "b"])
             "b" "default kube-system" Mem.world3 eq_refl eq_refl).
Defined.

Lemma scale_failure_is_fatal_witness :
  clusters (Mem.join ["a"; "b"]) !! 1 = Some "b" ∧
  CombinedOutput (Host:=unscaled) (scaleArgs "b" 0) Mem.world3
    = ("deployment not found", Some MemHost.exitStatus1, Mem.world3) ∧
  rotate (H:=unscaled) (Mem.join ["a"; "b"]) Mem.world3
    = (Halted (Ended (LogFatal "exit status 1: deployment not found")),
       Mem.world3, [Exec (H:=unscaled) (scaleArgs "b" 0)]).
Proof.
  split_and!; [reflexivity|reflexivity|].
  exact (scale_failure_is_fatal (K:=K3) (H:=unscaled) (Mem.join ["a"; "b"])
           "b" "deployment not found" MemHost.exitStatus1 Mem.world3
           Mem.world3 eq_refl eq_refl).
Defined.

Lemma failed_checks_run_no_command_witness :
  (RunE (H:=fine) (Mem.join ["a"; "c"]) Mem.world3).1.1
    = Halted (Ended (OsExit 1)) ∧
  1%Z = 1%Z ∧
  commands (RunE (H:=fine) (Mem.join ["a"; "c"]) Mem.world3).2 = [] ∧
  (RunE (H:=fine) (Mem.join ["a"; "c"]) Mem.world3).1.2 = Mem.world3.
Proof.
  assert ((RunE (H:=fine) (Mem.join ["a"; "c"]) Mem.world3).1.1
          = Halted (Ended (OsExit 1))) as Hexit
    by (vm_compute; reflexivity).
  split; [exact Hexit|].
  exact (failed_checks_run_no_command (K:=K3) (H:=fine)
           (Mem.join ["a"; "c"]) 1 Mem.world3 Hexit).
Defined.

Lemma completed_join_scales_citadel_back_witness :
  (RunE (H:=fine) (Mem.join ["a"; "b"]) Mem.world3).1.1 = Go tt ∧
  ∃ c0 c1 between after,
    clusters (Mem.join ["a"; "b"]) = [c0; c1] ∧
    commands (RunE (H:=fine) (Mem.join ["a"; "b"]) Mem.world3).2
      = scaleArgs c1 0 :: between ++ scaleArgs c1 1 :: after ∧
    scaleArgs c1 1 ∉ between.
Proof.
  assert ((RunE (H:=fine) (Mem.join ["a"; "b"]) Mem.world3).1.1 = Go tt)
    as Hnil by (vm_compute; reflexivity).
  split; [exact Hnil|].
  exact (completed_join_scales_citadel_back (K:=K3) (H:=fine)
           (Mem.join ["a"; "b"]) Mem.world3 Hnil).
Defined.

End KubectlScenarios.
